(** * Differential-drive motor control: the serial link, the axis commands
      and the facade

    A shallow embedding of [odrive_uart.py] (class [ODriveUART]) and
    [motor_control.py] (class [MotorControl]).

    Modelling conventions.
    - Python floats are modelled by exact rationals ([Q]); rounding, NaN,
      infinities and the sign of zero are outside the model.  Text
      formatting of a float ([{x:.4f}]) and [float(...)] are parameters of
      the run-time environment.
    - The serial port is a log of the operations attempted on it, in
      chronological order.  Whether an operation raises and which bytes
      [readline] returns are decided by the environment as functions of
      that log, so every theorem quantified over the environment covers
      every behaviour of the hardware.
    - A method is a function from the state to the new state and either a
      value or a raised exception; the state survives an exception, as the
      object does in Python.
    - Console output ([print], [logger.info]) and [time.sleep] are not
      modelled.
    - The module [constants] (imported as [CFG]) and the vendor module
      [odrive.enums] are not part of the sources; their values are fields
      of [Config] and [Env]. *)

From Stdlib Require Import ZArith QArith Qabs Qminmax List String Ascii Bool Lia Lqa.
From Stdlib Require Import DecimalString.
Import ListNotations.

Local Open Scope string_scope.
Local Open Scope Z_scope.

(** ** Exceptions and results *)

Inductive exn : Type :=
| SerialException
| UnicodeDecodeError
| ValueError
| AttributeError
| TypeError
| ZeroDivisionError.

Inductive result (A : Type) : Type :=
| Ok (a : A)
| Raise (e : exn).

Arguments Ok {A} a.
Arguments Raise {A} e.

(** ** A state-and-exception monad *)

Definition M (S A : Type) : Type := S -> S * result A.

Definition ret {S A : Type} (a : A) : M S A := fun s => (s, Ok a).

Definition raise {S A : Type} (e : exn) : M S A := fun s => (s, Raise e).

Definition bind {S A B : Type} (c : M S A) (k : A -> M S B) : M S B :=
  fun s =>
    match c s with
    | (s', Ok a) => k a s'
    | (s', Raise e) => (s', Raise e)
    end.

(** [try: body except Exception as e: handler e] *)
Definition try_except {S A : Type} (body : M S A) (handler : exn -> M S A) : M S A :=
  fun s =>
    match body s with
    | (s', Ok a) => (s', Ok a)
    | (s', Raise e) => handler e s'
    end.

(** In Python [UnicodeDecodeError] is a subclass of [ValueError]. *)
Definition is_ValueError (e : exn) : bool :=
  match e with
  | ValueError | UnicodeDecodeError => true
  | _ => false
  end.

(** [try: body except ValueError: handler] *)
Definition try_except_ValueError {S A : Type} (body : M S A) (handler : M S A) : M S A :=
  try_except body (fun e => if is_ValueError e then handler else raise e).

Definition gets {S A : Type} (f : S -> A) : M S A := fun s => (s, Ok (f s)).

Definition modify {S : Type} (f : S -> S) : M S unit := fun s => (f s, Ok tt).

(** Final state and outcome of a computation. *)
Definition exec {S A : Type} (c : M S A) (s : S) : S := fst (c s).
Definition outcome {S A : Type} (c : M S A) (s : S) : result A := snd (c s).

Declare Scope py_scope.
Delimit Scope py_scope with py.
Notation "x <- c ;; k" := (bind c (fun x => k))
  (at level 100, c at next level, right associativity) : py_scope.
Notation "c ;; k" := (bind c (fun _ => k))
  (at level 100, right associativity) : py_scope.
Local Open Scope py_scope.

(** ** Python string helpers *)

(** [c.isdigit()] on a character of an ASCII-decoded string. *)
Definition isdigit (c : ascii) : bool :=
  let n := nat_of_ascii c in (48 <=? n)%nat && (n <=? 57)%nat.

(** [c.isspace()] on a character of an ASCII-decoded string: tab, line
    feed, vertical tab, form feed, carriage return, the four separators
    0x1c..0x1f and the space. *)
Definition isspace (c : ascii) : bool :=
  let n := nat_of_ascii c in
  ((9 <=? n)%nat && (n <=? 13)%nat) || ((28 <=? n)%nat && (n <=? 32)%nat).

Fixpoint filter_str (p : ascii -> bool) (s : string) : string :=
  match s with
  | EmptyString => EmptyString
  | String c s' => if p c then String c (filter_str p s') else filter_str p s'
  end.

Fixpoint forall_str (p : ascii -> bool) (s : string) : bool :=
  match s with
  | EmptyString => true
  | String c s' => p c && forall_str p s'
  end.

Fixpoint lstrip (s : string) : string :=
  match s with
  | EmptyString => EmptyString
  | String c s' => if isspace c then lstrip s' else s
  end.

Fixpoint rstrip (s : string) : string :=
  match s with
  | EmptyString => EmptyString
  | String c s' =>
      match rstrip s' with
      | EmptyString => if isspace c then EmptyString else String c EmptyString
      | r => String c r
      end
  end.

(** [s.strip()] *)
Definition strip (s : string) : string := rstrip (lstrip s).

(** [s.startswith(p)] *)
Definition startswith (s p : string) : bool := String.prefix p s.

(** [b.decode('ascii')]: every byte must be below 128. *)
Definition decode_ascii {S : Type} (b : string) : M S string :=
  if forall_str (fun c => (nat_of_ascii c <? 128)%nat) b then ret b
  else raise UnicodeDecodeError.

Definition digit_value (c : ascii) : Z := Z.of_nat (nat_of_ascii c) - 48.

Fixpoint int_of_digits (acc : Z) (s : string) : Z :=
  match s with
  | EmptyString => acc
  | String c s' => int_of_digits (10 * acc + digit_value c) s'
  end.

(** [int(s)] on the strings that reach it here, the outputs of the digit
    filter: the empty string raises [ValueError], a string of decimal
    digits is its value. *)
Definition py_int {S : Type} (s : string) : M S Z :=
  match s with
  | EmptyString => raise ValueError
  | _ => if forall_str isdigit s then ret (int_of_digits 0 s) else raise ValueError
  end.

(** [''.join(c for c in r if c.isdigit())]; iterating [None] raises
    [TypeError]. *)
Definition join_digits {S : Type} (r : option string) : M S string :=
  match r with
  | Some s => ret (filter_str isdigit s)
  | None => raise TypeError
  end.

(** [x / y] on Python floats: a zero divisor raises. *)
Definition py_div {S : Type} (x y : Q) : M S Q :=
  if Qeq_bool y 0 then raise ZeroDivisionError else ret (x / y)%Q.

(** [min(a, b)] and [max(a, b)]: the first argument unless the second is
    strictly smaller (larger). *)
Definition py_min (a b : Q) : Q := if Qle_bool a b then a else b.
Definition py_max (a b : Q) : Q := if Qle_bool b a then a else b.

(** A key looked up in a dictionary whose keys are strings. *)
Inductive key : Type :=
| KeyStr (s : string)
| KeyInt (n : Z).

(** [d.get(k, default)] on a dictionary from strings to integers: the
    value of the key, or the default.  An integer key equals no string,
    so it always yields the default. *)
Definition dict_get (d : list (string * Z)) (k : key) (default : string) : Z + string :=
  match k with
  | KeyStr name =>
      match find (fun entry => String.eqb (fst entry) name) d with
      | Some entry => inl (snd entry)
      | None => inr default
      end
  | KeyInt _ => inr default
  end.

(** [str(n)] for an integer, as an f-string renders it. *)
Definition str_int (n : Z) : string := NilZero.string_of_int (Z.to_int n).

(** The line feed that ends every command. *)
Definition LF : string := String (ascii_of_nat 10) EmptyString.

(** ** The serial port *)

Inductive event : Type :=
| EvOpen (port : string)
| EvResetInput
| EvResetOutput
| EvWrite (data : string)
| EvReadline.

(** The run-time environment: the hardware behind the port and the parts
    of the Python run time that the sources use as given. *)
Record Env : Type := {
  (** does the operation just appended to the log raise? *)
  io_raises : list event -> bool;
  (** bytes returned by the [readline] just appended to the log; the empty
      string when the one-second timeout expires with nothing received *)
  rx : list event -> string;
  (** [f"{x:.{p}f}"] *)
  fmt_f : nat -> Q -> string;
  (** [float(s)], [None] standing for [ValueError] *)
  float_of_str : string -> option Q;
  (** [ODriveUART.ERROR_DICT], built from [odrive.enums]: the names that
      start with [AXIS_ERROR_], each with its value *)
  ERROR_DICT : list (string * Z)
}.

(** The module [constants]. *)
Record Config : Type := {
  ROBOT_WHEEL_DIST_M : Q;
  (** [ROBOT_WHEEL_RADIUS_M * 2 * np.pi / 60], a module-level constant of
      [motor_control.py] *)
  RPM_TO_METERS_PER_SECOND : Q;
  MOTOR_CONTROL_SERIAL_PORT : string;
  MOTOR_CONTROL_LEFT_MOTOR_AXIS : Z;
  MOTOR_CONTROL_RIGHT_MOTOR_AXIS : Z;
  MOTOR_CONTROL_LEFT_MOTOR_DIR : Q;
  MOTOR_CONTROL_RIGHT_MOTOR_DIR : Q;
  MOTOR_CONTROL_MAX_SPEED_LINEAR_MPS : Q;
  MOTOR_CONTROL_MAX_SPEED_ANGULAR_RADPS : Q
}.

Definition Bus : Type := list event.

(** ** The axis commands: [ODriveUART] *)

(** The attributes of an [ODriveUART] object other than its port. *)
Record ODriveUART : Type := {
  left_axis : Z;
  right_axis : Z;
  dir_left : Q;
  dir_right : Q
}.

Definition AXIS_STATE_CLOSED_LOOP_CONTROL : Z := 8.

Section ODriveUART_methods.

Variable env : Env.

(** One operation on the port: it is logged, then it raises or not. *)
Definition bus_op (e : event) : M Bus unit :=
  fun log =>
    let log' := (log ++ [e])%list in
    (log', if io_raises env log' then Raise SerialException else Ok tt).

Definition bus_readline : M Bus string :=
  fun log =>
    let log' := (log ++ [EvReadline])%list in
    (log', if io_raises env log' then Raise SerialException else Ok (rx env log')).

(** [ODriveUART.__init__] *)
Definition ODriveUART_init (port : string) (left_axis right_axis : Z)
    (dir_left dir_right : Q) : M Bus ODriveUART :=
  bus_op (EvOpen port) ;;
  bus_op EvResetInput ;;
  bus_op EvResetOutput ;;
  ret {| left_axis := left_axis; right_axis := right_axis;
         dir_left := dir_left; dir_right := dir_right |}.

(** Is the command a query, one whose reply is read? *)
Definition is_query (command : string) : bool :=
  startswith command "r" || startswith command "f".

(** [ODriveUART.send_command]; [None] is Python's [None]. *)
Definition send_command (command : string) : M Bus (option string) :=
  bus_op EvResetInput ;;
  bus_op (EvWrite (command ++ LF)) ;;
  if is_query command then
    line <- bus_readline ;;
    text <- decode_ascii line ;;
    let response := strip text in
    ret (Some response)
  else ret None.

(** [ODriveUART.get_errors]: the pair of the error code and its name.
    The name is what [ERROR_DICT.get] returns: a value of the dictionary
    or the default text. *)
Definition get_errors (self : ODriveUART) (axis : Z) : M Bus (Z * (Z + string)) :=
  let error_code := (-1)%Z in
  let error_name := "Unknown error" in
  error_response <- send_command ("r axis" ++ str_int axis ++ ".error") ;;
  try_except_ValueError
    (cleaned_response <- join_digits error_response ;;
     error_code <- py_int cleaned_response ;;
     let error_name := dict_get (ERROR_DICT env) (KeyInt error_code) error_name in
     ret (error_code, error_name))
    (ret (error_code, inr error_name)).

Definition get_errors_left (self : ODriveUART) : M Bus (Z * (Z + string)) :=
  get_errors self (left_axis self).

Definition get_errors_right (self : ODriveUART) : M Bus (Z * (Z + string)) :=
  get_errors self (right_axis self).

(** The body of [for axis in [0,1]] in [ODriveUART.has_errors], iterated
    over the axes left. *)
Fixpoint has_errors_loop (axes : list Z) : M Bus bool :=
  match axes with
  | [] => ret false
  | axis :: rest =>
      error_response <- send_command ("r axis" ++ str_int axis ++ ".error") ;;
      parsed <- try_except_ValueError
                  (cleaned_response <- join_digits error_response ;;
                   error_code <- py_int cleaned_response ;;
                   ret (Some error_code))
                  (ret None) ;;
      match parsed with
      | None => ret true
      | Some error_code =>
          if negb (error_code =? 0) then ret true else has_errors_loop rest
      end
  end.

(** [ODriveUART.has_errors] *)
Definition has_errors (self : ODriveUART) : M Bus bool :=
  has_errors_loop [0; 1].

Definition error_sources : list string :=
  ["axis0"; "axis0.encoder"; "axis0.controller"; "axis0.motor";
   "axis1"; "axis1.encoder"; "axis1.controller"; "axis1.motor"].

(** [ODriveUART.dump_errors]: what follows the parse of each reply only
    prints. *)
Fixpoint dump_errors_loop (sources : list string) : M Bus unit :=
  match sources with
  | [] => ret tt
  | src :: rest =>
      error_response <- send_command ("r " ++ src ++ ".error") ;;
      try_except_ValueError
        (cleaned_response <- join_digits error_response ;;
         error_code <- py_int cleaned_response ;;
         ret tt)
        (ret tt) ;;
      dump_errors_loop rest
  end.

Definition dump_errors (self : ODriveUART) : M Bus unit :=
  dump_errors_loop error_sources.

(** [ODriveUART.enable_torque_mode] *)
Definition enable_torque_mode (self : ODriveUART) (axis : Z) : M Bus unit :=
  send_command ("w axis" ++ str_int axis ++ ".controller.config.control_mode 1") ;;
  send_command ("w axis" ++ str_int axis ++ ".controller.config.input_mode 1") ;;
  ret tt.

Definition enable_torque_mode_left (self : ODriveUART) : M Bus unit :=
  enable_torque_mode self (left_axis self).

Definition enable_torque_mode_right (self : ODriveUART) : M Bus unit :=
  enable_torque_mode self (right_axis self).

(** [ODriveUART.enable_velocity_mode] *)
Definition enable_velocity_mode (self : ODriveUART) (axis : Z) : M Bus unit :=
  send_command ("w axis" ++ str_int axis ++ ".controller.config.control_mode 2") ;;
  send_command ("w axis" ++ str_int axis ++ ".controller.config.input_mode 2") ;;
  send_command ("w axis" ++ str_int axis ++ ".controller.config.vel_ramp_rate 100") ;;
  send_command ("w axis" ++ str_int axis ++ ".controller.config.vel_limit 20") ;;
  ret tt.

Definition enable_velocity_mode_left (self : ODriveUART) : M Bus unit :=
  enable_velocity_mode self (left_axis self).

Definition enable_velocity_mode_right (self : ODriveUART) : M Bus unit :=
  enable_velocity_mode self (right_axis self).

(** [ODriveUART.start] *)
Definition start (self : ODriveUART) (axis : Z) : M Bus unit :=
  send_command ("w axis" ++ str_int axis ++ ".requested_state 8") ;;
  ret tt.

Definition start_left (self : ODriveUART) : M Bus unit := start self (left_axis self).
Definition start_right (self : ODriveUART) : M Bus unit := start self (right_axis self).

(** [ODriveUART.set_speed_rpm] *)
Definition set_speed_rpm (self : ODriveUART) (axis : Z) (rpm direction : Q) : M Bus unit :=
  let rps := (rpm / 60)%Q in
  send_command ("w axis" ++ str_int axis ++ ".controller.input_vel "
                ++ fmt_f env 4 (rps * direction)%Q) ;;
  ret tt.

Definition set_speed_rpm_left (self : ODriveUART) (rpm : Q) : M Bus unit :=
  set_speed_rpm self (left_axis self) rpm (dir_left self).

Definition set_speed_rpm_right (self : ODriveUART) (rpm : Q) : M Bus unit :=
  set_speed_rpm self (right_axis self) rpm (dir_right self).

(** The torque written by [ODriveUART.set_torque_nm]. *)
Definition adjusted_torque (nm direction : Q) : Q :=
  let torque_bias := (5 # 100)%Q in
  (nm * direction + (torque_bias * direction * (if Qle_bool 0 nm then 1 else -1%Q)))%Q.

(** [ODriveUART.set_torque_nm] *)
Definition set_torque_nm (self : ODriveUART) (axis : Z) (nm direction : Q) : M Bus unit :=
  send_command ("c " ++ str_int axis ++ " " ++ fmt_f env 4 (adjusted_torque nm direction)) ;;
  send_command ("u " ++ str_int axis) ;;
  ret tt.

Definition set_torque_nm_left (self : ODriveUART) (nm : Q) : M Bus unit :=
  set_torque_nm self (left_axis self) nm (dir_left self).

Definition set_torque_nm_right (self : ODriveUART) (nm : Q) : M Bus unit :=
  set_torque_nm self (right_axis self) nm (dir_right self).

(** [ODriveUART.set_idle] *)
Definition set_idle (self : ODriveUART) (axis : Z) : M Bus unit :=
  send_command ("w axis" ++ str_int axis ++ ".requested_state 1") ;;
  ret tt.

Definition set_idle_left (self : ODriveUART) : M Bus unit := set_idle self (left_axis self).
Definition set_idle_right (self : ODriveUART) : M Bus unit := set_idle self (right_axis self).

(** [ODriveUART.clear_errors] *)
Definition clear_errors (self : ODriveUART) (axis : Z) : M Bus unit :=
  send_command ("w axis" ++ str_int axis ++ ".error 0") ;;
  send_command ("w axis" ++ str_int axis ++ ".requested_state "
                ++ str_int AXIS_STATE_CLOSED_LOOP_CONTROL) ;;
  ret tt.

Definition clear_errors_left (self : ODriveUART) : M Bus unit :=
  clear_errors self (left_axis self).

Definition clear_errors_right (self : ODriveUART) : M Bus unit :=
  clear_errors self (right_axis self).

(** [ODriveUART.disable_velocity_ramping] *)
Definition disable_velocity_ramping (self : ODriveUART) (axis : Z) : M Bus unit :=
  send_command ("w axis" ++ str_int axis ++ ".controller.config.input_mode 2") ;;
  ret tt.

Definition disable_velocity_ramping_left (self : ODriveUART) : M Bus unit :=
  disable_velocity_ramping self (left_axis self).

Definition disable_velocity_ramping_right (self : ODriveUART) : M Bus unit :=
  disable_velocity_ramping self (right_axis self).

(** [ODriveUART.set_current_limit] *)
Definition set_current_limit (self : ODriveUART) (axis : Z) (current_limit : Q) : M Bus unit :=
  send_command ("w axis" ++ str_int axis ++ ".motor.config.current_lim "
                ++ fmt_f env 1 current_limit) ;;
  ret tt.

(** [ODriveUART.get_velocity_ramp]; [None] is Python's [None].  [float]
    of the reply raises [ValueError] on text that is not a number. *)
Definition get_velocity_ramp (self : ODriveUART) (axis : Z) : M Bus (option Q) :=
  response <- send_command ("r axis" ++ str_int axis ++ ".controller.config.vel_ramp_rate") ;;
  match response with
  | Some text => ret (float_of_str env text)
  | None => ret None
  end.

End ODriveUART_methods.

(** ** The facade: [MotorControl] *)

(** The attributes of a [MotorControl] object together with the port it
    talks to.  [motor_controller] is [None] while the attribute does not
    exist (the constructor of [ODriveUART] has never succeeded). *)
Record MotorControl : Type := {
  is_idle : bool;
  left_motor_dir : Q;
  right_motor_dir : Q;
  motor_controller : option ODriveUART;
  cycle_count : Z;
  bus : Bus
}.

Definition set_is_idle (b : bool) (s : MotorControl) : MotorControl :=
  {| is_idle := b; left_motor_dir := left_motor_dir s;
     right_motor_dir := right_motor_dir s;
     motor_controller := motor_controller s;
     cycle_count := cycle_count s; bus := bus s |}.

Definition set_motor_controller (o : ODriveUART) (s : MotorControl) : MotorControl :=
  {| is_idle := is_idle s; left_motor_dir := left_motor_dir s;
     right_motor_dir := right_motor_dir s;
     motor_controller := Some o;
     cycle_count := cycle_count s; bus := bus s |}.

Definition set_cycle_count (n : Z) (s : MotorControl) : MotorControl :=
  {| is_idle := is_idle s; left_motor_dir := left_motor_dir s;
     right_motor_dir := right_motor_dir s;
     motor_controller := motor_controller s;
     cycle_count := n; bus := bus s |}.

Definition set_bus (b : Bus) (s : MotorControl) : MotorControl :=
  {| is_idle := is_idle s; left_motor_dir := left_motor_dir s;
     right_motor_dir := right_motor_dir s;
     motor_controller := motor_controller s;
     cycle_count := cycle_count s; bus := b |}.

(** Run an operation of the port inside the facade. *)
Definition lift_bus {A : Type} (c : M Bus A) : M MotorControl A :=
  fun s => let (b, r) := c (bus s) in (set_bus b s, r).

(** [self.motor_controller.f(...)]: the attribute is looked up, which
    raises [AttributeError] when it does not exist, then the method runs. *)
Definition with_mc {A : Type} (f : ODriveUART -> M Bus A) : M MotorControl A :=
  fun s =>
    match motor_controller s with
    | Some o => lift_bus (f o) s
    | None => (s, Raise AttributeError)
    end.

(** How a block of a method ends: it falls through to the next statement
    or it executes [return]. *)
Inductive flow : Type := Continue | Return.

Section MotorControl_methods.

Variable env : Env.
Variable CFG : Config.

(** [get_motor_directions], the fallback defined in [motor_control.py]. *)
Definition get_motor_directions : Q * Q :=
  (MOTOR_CONTROL_LEFT_MOTOR_DIR CFG, MOTOR_CONTROL_RIGHT_MOTOR_DIR CFG).

(** The body of [for axis in [left_axis, right_axis]] in
    [MotorControl.dump_motor_config]; the replies are only printed. *)
Fixpoint dump_motor_config_loop (axes : list Z) : M MotorControl unit :=
  match axes with
  | [] => ret tt
  | axis :: rest =>
      mode_resp <- with_mc (fun _ => send_command env
                      ("r axis" ++ str_int axis ++ ".controller.config.control_mode")) ;;
      input_mode_resp <- with_mc (fun _ => send_command env
                      ("r axis" ++ str_int axis ++ ".controller.config.input_mode")) ;;
      ramp_rate <- with_mc (fun o => get_velocity_ramp env o axis) ;;
      current_limit <- with_mc (fun _ => send_command env
                      ("r axis" ++ str_int axis ++ ".motor.config.current_lim")) ;;
      vel_limit <- with_mc (fun _ => send_command env
                      ("r axis" ++ str_int axis ++ ".controller.config.vel_limit")) ;;
      dump_motor_config_loop rest
  end.

(** [MotorControl.dump_motor_config] *)
Definition dump_motor_config : M MotorControl unit :=
  try_except
    (axes <- with_mc (fun o => ret [left_axis o; right_axis o]) ;;
     dump_motor_config_loop axes)
    (fun _ => ret tt).

(** [MotorControl.start_motors_velocity_mode] *)
Definition start_motors_velocity_mode : M MotorControl unit :=
  with_mc (start_left env) ;;
  with_mc (start_right env) ;;
  with_mc (enable_velocity_mode_left env) ;;
  with_mc (enable_velocity_mode_right env) ;;
  with_mc (disable_velocity_ramping_left env) ;;
  with_mc (disable_velocity_ramping_right env) ;;
  with_mc (fun o => set_current_limit env o (left_axis o) 40) ;;
  with_mc (fun o => set_current_limit env o (right_axis o) 40) ;;
  left_ramp <- with_mc (fun o => get_velocity_ramp env o (left_axis o)) ;;
  right_ramp <- with_mc (fun o => get_velocity_ramp env o (right_axis o)) ;;
  dump_motor_config.

(** [MotorControl.start_motors_torque_mode] *)
Definition start_motors_torque_mode : M MotorControl unit :=
  with_mc (start_left env) ;;
  with_mc (start_right env) ;;
  with_mc (enable_torque_mode_left env) ;;
  with_mc (enable_torque_mode_right env).

(** [reset_odrive] of [odrive_uart.py] has an empty body (a docstring and
    comments), and [MotorControl.reset_odrive] only sleeps after it. *)
Definition reset_odrive : M MotorControl unit := ret tt.

(** [MotorControl.reset_and_initialize_motors] *)
Definition reset_and_initialize_motors (torque_mode : bool) : M MotorControl unit :=
  reset_odrive ;;
  try_except
    (dl <- gets left_motor_dir ;;
     dr <- gets right_motor_dir ;;
     o <- lift_bus (ODriveUART_init env (MOTOR_CONTROL_SERIAL_PORT CFG)
                      (MOTOR_CONTROL_LEFT_MOTOR_AXIS CFG)
                      (MOTOR_CONTROL_RIGHT_MOTOR_AXIS CFG) dl dr) ;;
     modify (set_motor_controller o) ;;
     with_mc (clear_errors_left env) ;;
     with_mc (clear_errors_right env) ;;
     if torque_mode then start_motors_torque_mode
     else start_motors_velocity_mode)
    (fun _ => ret tt).

(** [MotorControl.stop] *)
Definition stop : M MotorControl unit :=
  try_except
    (with_mc (fun o => set_speed_rpm_left env o 0) ;;
     with_mc (fun o => set_speed_rpm_right env o 0) ;;
     with_mc (set_idle_left env) ;;
     with_mc (set_idle_right env) ;;
     modify (set_is_idle true))
    (fun _ => ret tt).

(** [hasattr(self, 'motor_controller')] *)
Definition hasattr_motor_controller : M MotorControl bool :=
  gets (fun s => match motor_controller s with Some _ => true | None => false end).

(** [MotorControl.emergency_stop] *)
Definition emergency_stop : M MotorControl unit :=
  try_except stop
    (fun _ =>
       try_except
         (has <- hasattr_motor_controller ;;
          if has then
            with_mc (fun o => set_speed_rpm_left env o 0) ;;
            with_mc (fun o => set_speed_rpm_right env o 0)
          else ret tt)
         (fun _ =>
            try_except
              (has <- hasattr_motor_controller ;;
               if has then
                 with_mc (set_idle_left env) ;;
                 with_mc (set_idle_right env)
               else ret tt)
              (fun _ => ret tt))).

(** Lines 203 and 204: [max(min(x, limit), -limit)]. *)
Definition clip (x limit : Q) : Q := py_max (py_min x limit) (- limit).

(** Lines 207 to 213: the left and right wheel velocities of a body
    velocity and a yaw rate. *)
Definition wheel_velocities (velocity_target_mps yaw_rate_target_rad_s : Q) : Q * Q :=
  let wheel_base_width_m := ROBOT_WHEEL_DIST_M CFG in
  let angular_component := ((wheel_base_width_m * yaw_rate_target_rad_s) / 2)%Q in
  let left_wheel_velocity := (velocity_target_mps - angular_component)%Q in
  let right_wheel_velocity := (velocity_target_mps + angular_component)%Q in
  (left_wheel_velocity, right_wheel_velocity).

(** [MotorControl.set_linear_angular_velocities] *)
Definition set_linear_angular_velocities
    (velocity_target_mps yaw_rate_target_rad_s : Q) : M MotorControl unit :=
  try_except
    ((if Qeq_bool velocity_target_mps 0 && Qeq_bool yaw_rate_target_rad_s 0
      then stop else ret tt) ;;
     idle <- gets is_idle ;;
     (if idle then
        with_mc (clear_errors_left env) ;;
        with_mc (clear_errors_right env) ;;
        modify (set_is_idle false)
      else ret tt) ;;
     count <- gets cycle_count ;;
     checked <-
       (if count mod 20 =? 0 then
          try_except
            (faulty <- with_mc (has_errors env) ;;
             if faulty then
               with_mc (dump_errors env) ;;
               emergency_stop ;;
               reset_and_initialize_motors false ;;
               ret Return
             else ret Continue)
            (fun _ =>
               emergency_stop ;;
               reset_and_initialize_motors false ;;
               ret Return)
        else ret Continue) ;;
     match checked with
     | Return => ret tt
     | Continue =>
         let velocity_target_mps :=
           clip velocity_target_mps (MOTOR_CONTROL_MAX_SPEED_LINEAR_MPS CFG) in
         let yaw_rate_target_rad_s :=
           clip yaw_rate_target_rad_s (MOTOR_CONTROL_MAX_SPEED_ANGULAR_RADPS CFG) in
         let (left_wheel_velocity, right_wheel_velocity) :=
           wheel_velocities velocity_target_mps yaw_rate_target_rad_s in
         left_wheel_rpm <- py_div left_wheel_velocity (RPM_TO_METERS_PER_SECOND CFG) ;;
         right_wheel_rpm <- py_div right_wheel_velocity (RPM_TO_METERS_PER_SECOND CFG) ;;
         sent <-
           try_except
             (with_mc (fun o => set_speed_rpm_left env o left_wheel_rpm) ;;
              with_mc (fun o => set_speed_rpm_right env o right_wheel_rpm) ;;
              ret Continue)
             (fun _ =>
                emergency_stop ;;
                reset_and_initialize_motors false ;;
                ret Return) ;;
         match sent with
         | Return => ret tt
         | Continue => modify (fun s => set_cycle_count (cycle_count s + 1) s)
         end
     end)
    (fun _ => emergency_stop).

(** [MotorControl.__init__], on a port with the given history. *)
Definition MotorControl_init (log : Bus) : MotorControl :=
  let (dl, dr) := get_motor_directions in
  let s := {| is_idle := false; left_motor_dir := dl; right_motor_dir := dr;
              motor_controller := None; cycle_count := 0; bus := log |} in
  set_cycle_count 0 (exec (reset_and_initialize_motors false) s).

End MotorControl_methods.

(** ** The kinematics as the specification words it *)

(** [bodyToWheel(linear_mps, angular_rad_s, trackWidth_m)] of the
    specification: [angularComponent = trackWidth * angular / 2],
    [left = linear - angularComponent], [right = linear + angularComponent]. *)
Definition bodyToWheel (linear_mps angular_rad_s trackWidth_m : Q) : Q * Q :=
  let angularComponent := (trackWidth_m * angular_rad_s / 2)%Q in
  ((linear_mps - angularComponent)%Q, (linear_mps + angularComponent)%Q).

(** ** Reference environments and configuration *)

(** Round a non-negative rational to the nearest integer, ties to even. *)
Definition round_half_even (q : Q) : Z :=
  let n := Qnum q in
  let d := Z.pos (Qden q) in
  let f := n / d in
  let r := 2 * (n mod d) in
  if r <? d then f
  else if d <? r then f + 1
  else if Z.even f then f else f + 1.

Fixpoint zeros (n : nat) : string :=
  match n with
  | O => EmptyString
  | S n' => String "0" (zeros n')
  end.

(** Pad with zeros on the left up to the width. *)
Definition pad_zeros (width : nat) (s : string) : string :=
  zeros (width - String.length s) ++ s.

(** A fixed-point formatter on exact rationals, an instance of [fmt_f]. *)
Definition fmt_fixed (p : nat) (q : Q) : string :=
  let scale := 10 ^ Z.of_nat p in
  let n := round_half_even (Qabs q * inject_Z scale) in
  let sign := if Qle_bool 0 q then "" else "-" in
  let whole := str_int (n / scale) in
  match p with
  | O => sign ++ whole
  | _ => sign ++ whole ++ "." ++ pad_zeros p (str_int (n mod scale))
  end.

(** An environment from the two behaviours of the hardware.  [float] is
    given on the one reply text the reference hardware below produces. *)
Definition mk_env (raises : list event -> bool) (line : list event -> string) : Env :=
  {| io_raises := raises;
     rx := line;
     fmt_f := fmt_fixed;
     float_of_str := fun s => if String.eqb s "0" then Some 0%Q else None;
     ERROR_DICT := [("AXIS_ERROR_NONE", 0); ("AXIS_ERROR_INVALID_STATE", 1)] |}.

(** Healthy hardware: no operation raises, every query is answered [0]. *)
Definition healthy_env : Env := mk_env (fun _ => false) (fun _ => "0" ++ LF).

(** Silent hardware: no operation raises, no query is ever answered. *)
Definition silent_env : Env := mk_env (fun _ => false) (fun _ => "").

(** Hardware whose error registers read [0x20]. *)
Definition faulted_env : Env := mk_env (fun _ => false) (fun _ => "0x20" ++ LF).

(** A port on which every write raises. *)
Definition unplugged_env : Env :=
  mk_env (fun log => match last log EvResetInput with EvWrite _ => true | _ => false end)
         (fun _ => "").

(** The reference configuration: limits of 4 m/s and 8 rad/s, a track of
    half a metre, the port, axes and directions that the constructor of
    [ODriveUART] has as defaults. *)
Definition reference_CFG : Config :=
  {| ROBOT_WHEEL_DIST_M := 1 # 2;
     RPM_TO_METERS_PER_SECOND := 1 # 100;
     MOTOR_CONTROL_SERIAL_PORT := "/dev/ttyACM0";
     MOTOR_CONTROL_LEFT_MOTOR_AXIS := 1;
     MOTOR_CONTROL_RIGHT_MOTOR_AXIS := 0;
     MOTOR_CONTROL_LEFT_MOTOR_DIR := 1;
     MOTOR_CONTROL_RIGHT_MOTOR_DIR := 1;
     MOTOR_CONTROL_MAX_SPEED_LINEAR_MPS := 4;
     MOTOR_CONTROL_MAX_SPEED_ANGULAR_RADPS := 8 |}.

Definition reference_odrive : ODriveUART :=
  {| left_axis := 1; right_axis := 0; dir_left := 1; dir_right := 1 |}.

(** A running facade: controller attached, active, between two health
    checks, nothing yet on the port. *)
Definition running_facade : MotorControl :=
  {| is_idle := false; left_motor_dir := 1; right_motor_dir := 1;
     motor_controller := Some reference_odrive; cycle_count := 1; bus := [] |}.

(** ** Vocabulary of the statements *)

Local Open Scope list_scope.

(** Bytes that [decode('ascii')] accepts. *)
Definition is_ascii (b : string) : bool :=
  forall_str (fun c => (nat_of_ascii c <? 128)%nat) b.

(** The operations of an exchange, as they appear on the port: a command
    sent, and a command sent with its reply read. *)
Definition sent (command : string) : list event :=
  [EvResetInput; EvWrite (command ++ LF)%string].

Definition exchanged (command : string) : list event :=
  [EvResetInput; EvWrite (command ++ LF)%string; EvReadline].

(** The error code read from a reply: the value of its digits, [None]
    when it has none. *)
Definition reply_code (reply : string) : option Z :=
  match filter_str isdigit reply with
  | EmptyString => None
  | digits => Some (int_of_digits 0 digits)
  end.

(** A reply that reports a fault: no digits, or digits that are not zero. *)
Definition reply_is_fault (reply : string) : bool :=
  match reply_code reply with
  | None => true
  | Some code => negb (code =? 0)
  end.

(** The query of the error register of an axis. *)
Definition error_query (axis : Z) : string :=
  ("r axis" ++ str_int axis ++ ".error")%string.

Section Phases.

Variable env : Env.
Variable CFG : Config.

(** The velocity setpoint command of an axis. *)
Definition input_vel_command (axis : Z) (value : Q) : string :=
  ("w axis" ++ str_int axis ++ ".controller.input_vel " ++ fmt_f env 4 value)%string.

(** The idle request of an axis. *)
Definition idle_command (axis : Z) : string :=
  ("w axis" ++ str_int axis ++ ".requested_state 1")%string.

(** The two writes of [clear_errors]: the error register is cleared and
    closed-loop control is requested. *)
Definition clear_error_command (axis : Z) : string :=
  ("w axis" ++ str_int axis ++ ".error 0")%string.

Definition closed_loop_command (axis : Z) : string :=
  ("w axis" ++ str_int axis ++ ".requested_state "
   ++ str_int AXIS_STATE_CLOSED_LOOP_CONTROL)%string.

Definition rearm_events (axis : Z) : list event :=
  sent (clear_error_command axis) ++ sent (closed_loop_command axis).

(** What [stop] puts on the port when nothing fails: zero velocity to the
    left and to the right axis, then idle to the left and to the right. *)
Definition stop_events (o : ODriveUART) : list event :=
  sent (input_vel_command (left_axis o) (0 / 60 * dir_left o)) ++
  sent (input_vel_command (right_axis o) (0 / 60 * dir_right o)) ++
  sent (idle_command (left_axis o)) ++
  sent (idle_command (right_axis o)).

(** A computation that leaves the cycle counter as it found it. *)
Definition keeps_count {A : Type} (c : M MotorControl A) : Prop :=
  forall s, cycle_count (fst (c s)) = cycle_count s.

(** Lines 166 to 181: the zero special case and the re-arming of an idle
    drivetrain. *)
Definition approach (velocity_target_mps yaw_rate_target_rad_s : Q) : M MotorControl unit :=
  (if Qeq_bool velocity_target_mps 0 && Qeq_bool yaw_rate_target_rad_s 0
   then stop env else ret tt) ;;
  idle <- gets is_idle ;;
  if idle then
    with_mc (clear_errors_left env) ;;
    with_mc (clear_errors_right env) ;;
    modify (set_is_idle false)
  else ret tt.

(** Recovery: the emergency stop, then the reset and re-initialisation. *)
Definition recover : M MotorControl flow :=
  emergency_stop env ;;
  reset_and_initialize_motors env CFG false ;;
  ret Return.

(** What the health check reads before it decides: [has_errors], and
    [dump_errors] when it found errors. *)
Definition fault_probe : M MotorControl unit :=
  faulty <- with_mc (has_errors env) ;;
  if faulty then with_mc (dump_errors env) else ret tt.

(** Lines 183 to 200: the periodic error check. *)
Definition health_check (count : Z) : M MotorControl flow :=
  if count mod 20 =? 0 then
    try_except
      (faulty <- with_mc (has_errors env) ;;
       if faulty then
         with_mc (dump_errors env) ;;
         emergency_stop env ;;
         reset_and_initialize_motors env CFG false ;;
         ret Return
       else ret Continue)
      (fun _ => recover)
  else ret Continue.

(** Lines 202 to 232: clipping, kinematics and the two velocity commands. *)
Definition drive (velocity_target_mps yaw_rate_target_rad_s : Q) : M MotorControl unit :=
  let velocity_target_mps :=
    clip velocity_target_mps (MOTOR_CONTROL_MAX_SPEED_LINEAR_MPS CFG) in
  let yaw_rate_target_rad_s :=
    clip yaw_rate_target_rad_s (MOTOR_CONTROL_MAX_SPEED_ANGULAR_RADPS CFG) in
  let (left_wheel_velocity, right_wheel_velocity) :=
    wheel_velocities CFG velocity_target_mps yaw_rate_target_rad_s in
  left_wheel_rpm <- py_div left_wheel_velocity (RPM_TO_METERS_PER_SECOND CFG) ;;
  right_wheel_rpm <- py_div right_wheel_velocity (RPM_TO_METERS_PER_SECOND CFG) ;;
  sent <-
    try_except
      (with_mc (fun o => set_speed_rpm_left env o left_wheel_rpm) ;;
       with_mc (fun o => set_speed_rpm_right env o right_wheel_rpm) ;;
       ret Continue)
      (fun _ => recover) ;;
  match sent with
  | Return => ret tt
  | Continue => modify (fun s => set_cycle_count (cycle_count s + 1) s)
  end.

End Phases.

(** The facade at a health-check boundary. *)
Definition facade_at_check : MotorControl := set_cycle_count 0 running_facade.

(** ** More of [ODriveUART]: the other commands and the feedback queries *)

(** [s.split(' ')]: the fields between single spaces, empty fields kept. *)
Fixpoint split_space (s : string) : list string :=
  match s with
  | EmptyString => [EmptyString]
  | String c s' =>
      if Ascii.eqb c " " then EmptyString :: split_space s'
      else match split_space s' with
           | field :: fields => String c field :: fields
           | [] => [String c EmptyString]
           end
  end.

(** [r.split(' ')] on what [send_command] returned; [None] has no
    attribute [split]. *)
Definition split_reply {S : Type} (r : option string) : M S (list string) :=
  match r with
  | Some text => ret (split_space text)
  | None => raise AttributeError
  end.

(** [a, b = fields]: exactly two values, else [ValueError]. *)
Definition unpack2 {S : Type} (fields : list string) : M S (string * string) :=
  match fields with
  | [a; b] => ret (a, b)
  | _ => raise ValueError
  end.

Section ODriveUART_feedback.

Variable env : Env.

(** [float(s)] on a text. *)
Definition py_float {S : Type} (s : string) : M S Q :=
  match float_of_str env s with
  | Some x => ret x
  | None => raise ValueError
  end.

(** [float(r)] on what [send_command] returned; [float(None)] raises
    [TypeError]. *)
Definition float_reply {S : Type} (r : option string) : M S Q :=
  match r with
  | Some text => py_float text
  | None => raise TypeError
  end.

(** [ODriveUART.check_errors] *)
Definition check_errors (self : ODriveUART) (axis : Z) : M Bus bool :=
  response <- send_command env ("r axis" ++ str_int axis ++ ".error")%string ;;
  try_except_ValueError
    (cleaned_response <- join_digits response ;;
     code <- py_int cleaned_response ;;
     ret (negb (code =? 0)))
    (ret true).

Definition check_errors_left (self : ODriveUART) : M Bus bool :=
  check_errors self (left_axis self).

Definition check_errors_right (self : ODriveUART) : M Bus bool :=
  check_errors self (right_axis self).

(** [ODriveUART.stop] *)
Definition ODriveUART_stop (self : ODriveUART) (axis : Z) : M Bus unit :=
  send_command env ("w axis" ++ str_int axis ++ ".controller.input_vel 0")%string ;;
  send_command env ("w axis" ++ str_int axis ++ ".controller.input_torque 0")%string ;;
  ret tt.

Definition stop_left (self : ODriveUART) : M Bus unit :=
  ODriveUART_stop self (left_axis self).

Definition stop_right (self : ODriveUART) : M Bus unit :=
  ODriveUART_stop self (right_axis self).

(** [ODriveUART.enable_watchdog] and [ODriveUART.disable_watchdog] *)
Definition enable_watchdog (self : ODriveUART) (axis : Z) : M Bus unit :=
  send_command env ("w axis" ++ str_int axis ++ ".config.enable_watchdog 1")%string ;;
  ret tt.

Definition disable_watchdog (self : ODriveUART) (axis : Z) : M Bus unit :=
  send_command env ("w axis" ++ str_int axis ++ ".config.enable_watchdog 0")%string ;;
  ret tt.

(** [ODriveUART.config_velocity_ramp] *)
Definition config_velocity_ramp (self : ODriveUART) (axis : Z) (ramp_rate : Q) : M Bus unit :=
  send_command env ("w axis" ++ str_int axis ++ ".controller.config.vel_ramp_rate "
                    ++ fmt_f env 3 ramp_rate)%string ;;
  ret tt.

(** [ODriveUART.reboot]: it returns what [send_command] returns. *)
Definition reboot (self : ODriveUART) : M Bus (option string) :=
  send_command env "sr".

(** [ODriveUART.get_speed_rpm] *)
Definition get_speed_rpm (self : ODriveUART) (axis : Z) (direction : Q) : M Bus Q :=
  response <- send_command env ("r axis" ++ str_int axis ++ ".encoder.vel_estimate")%string ;;
  x <- float_reply response ;;
  ret (x * direction * 60)%Q.

Definition get_speed_rpm_left (self : ODriveUART) : M Bus Q :=
  get_speed_rpm self (left_axis self) (dir_left self).

Definition get_speed_rpm_right (self : ODriveUART) : M Bus Q :=
  get_speed_rpm self (right_axis self) (dir_right self).

(** [ODriveUART.get_position_turns] *)
Definition get_position_turns (self : ODriveUART) (axis : Z) (direction : Q) : M Bus Q :=
  response <- send_command env ("r axis" ++ str_int axis ++ ".encoder.pos_estimate")%string ;;
  x <- float_reply response ;;
  ret (x * direction)%Q.

(** [ODriveUART.get_pos_vel]: position in turns and velocity in turns per
    minute, both signed by the direction. *)
Definition get_pos_vel (self : ODriveUART) (axis : Z) (direction : Q) : M Bus (Q * Q) :=
  response <- send_command env ("f " ++ str_int axis)%string ;;
  fields <- split_reply response ;;
  pv <- unpack2 fields ;;
  let (pos, vel) := pv in
  p <- py_float pos ;;
  v <- py_float vel ;;
  ret (p * direction, v * direction * 60)%Q.

Definition get_pos_vel_left (self : ODriveUART) : M Bus (Q * Q) :=
  get_pos_vel self (left_axis self) (dir_left self).

Definition get_pos_vel_right (self : ODriveUART) : M Bus (Q * Q) :=
  get_pos_vel self (right_axis self) (dir_right self).

End ODriveUART_feedback.

(** ** More of [MotorControl]: the velocity feedback *)

Section MotorControl_feedback.

Variable env : Env.
Variable CFG : Config.

(** [MotorControl.get_left_motor_velocity] *)
Definition get_left_motor_velocity : M MotorControl Q :=
  try_except
    (pv <- with_mc (get_pos_vel_left env) ;;
     let (l_pos_m, l_vel_mps) := pv in
     let l_vel_mps := (l_vel_mps * RPM_TO_METERS_PER_SECOND CFG)%Q in
     ret l_vel_mps)
    (fun _ =>
       reset_and_initialize_motors env CFG false ;;
       ret 0%Q).

(** [MotorControl.get_right_motor_velocity] *)
Definition get_right_motor_velocity : M MotorControl Q :=
  try_except
    (pv <- with_mc (get_pos_vel_right env) ;;
     let (r_pos_m, r_vel_mps) := pv in
     let r_vel_mps := (r_vel_mps * RPM_TO_METERS_PER_SECOND CFG)%Q in
     ret r_vel_mps)
    (fun _ =>
       reset_and_initialize_motors env CFG false ;;
       ret 0%Q).

End MotorControl_feedback.

(** ** The input programs: [controller_control.py], [backshot.py] and
       [backshot2.py]

    Each program polls an input device in a thread, and in its main loop
    turns the latest input into target velocities, smooths them and calls
    the facade.  The loop bodies are embedded as step functions of the
    input read at that turn; the threads, the terminal and the game
    controller library are outside the model. *)

Definition Qlt_bool (a b : Q) : bool := negb (Qle_bool b a).

(** [apply_deadzone] of [controller_control.py] *)
Definition apply_deadzone {S : Type} (value deadzone : Q) : M S Q :=
  if Qlt_bool (Qabs value) deadzone then ret 0%Q
  else if Qlt_bool 0 value then py_div (value - deadzone)%Q (1 - deadzone)%Q
  else py_div (value + deadzone)%Q (1 - deadzone)%Q.

(** [d.get(k, False)] on a dictionary from button numbers to button
    states. *)
Fixpoint button_get (d : list (Z * bool)) (k : Z) : bool :=
  match d with
  | [] => false
  | (k', v) :: rest => if k' =? k then v else button_get rest k
  end.

(** What [ControllerManager.get_controller_state] returns. *)
Record ControllerState : Type := {
  cs_left_stick_x : Q;
  cs_left_stick_y : Q;
  cs_right_stick_x : Q;
  cs_right_stick_y : Q;
  cs_l2_trigger : Q;
  cs_r2_trigger : Q;
  cs_buttons : list (Z * bool)
}.

Inductive control_mode : Type :=
| emergency_stop_mode
| trigger_reverse
| trigger_forward
| right_stick
| left_stick
| idle_mode.

(** The variables of the main loop of [controller_control.py]. *)
Record ControlVars : Type := {
  cv_current_linear : Q;
  cv_current_angular : Q;
  cv_target_linear : Q;
  cv_target_angular : Q;
  cv_last_control_mode : option control_mode
}.

Definition SMOOTHING : Q := 3 # 10.
Definition MAX_LINEAR_SPEED : Q := 4.
Definition MAX_ANGULAR_SPEED : Q := 8.
Definition STICK_DEADZONE : Q := 15 # 100.
Definition TRIGGER_DEADZONE : Q := 5 # 100.

(** Lines 168 to 225 of [controller_control.py]: the targets and the
    control mode chosen from the controller state, the emergency-stop
    button aside. *)
Definition controller_targets {S : Type} (state : ControllerState)
  : M S (Q * Q * control_mode) :=
  left_x <- apply_deadzone (cs_left_stick_x state) STICK_DEADZONE ;;
  left_y <- apply_deadzone (- cs_left_stick_y state)%Q STICK_DEADZONE ;;
  right_x <- apply_deadzone (cs_right_stick_x state) STICK_DEADZONE ;;
  right_y <- apply_deadzone (- cs_right_stick_y state)%Q STICK_DEADZONE ;;
  let l2 := if Qlt_bool TRIGGER_DEADZONE (cs_l2_trigger state)
            then cs_l2_trigger state else 0%Q in
  let r2 := if Qlt_bool TRIGGER_DEADZONE (cs_r2_trigger state)
            then cs_r2_trigger state else 0%Q in
  if Qlt_bool 0 l2 || Qlt_bool 0 r2 then
    if Qlt_bool r2 l2
    then ret ((l2 * MAX_LINEAR_SPEED)%Q, 0%Q, trigger_reverse)
    else ret ((- r2 * MAX_LINEAR_SPEED)%Q, 0%Q, trigger_forward)
  else if Qlt_bool 0 (Qabs right_x) || Qlt_bool 0 (Qabs right_y) then
    ret ((- right_y * MAX_LINEAR_SPEED)%Q, (right_x * MAX_ANGULAR_SPEED)%Q, right_stick)
  else if Qlt_bool 0 (Qabs left_x) || Qlt_bool 0 (Qabs left_y) then
    ret ((- left_y * MAX_LINEAR_SPEED)%Q, (left_x * MAX_ANGULAR_SPEED)%Q, left_stick)
  else ret (0%Q, 0%Q, idle_mode).

(** [current += (target - current) * SMOOTHING] *)
Definition smooth (current target : Q) : Q :=
  (current + (target - current) * SMOOTHING)%Q.

Section InputLoops.

Variable env : Env.
Variable CFG : Config.

(** One turn of the main loop of [controller_control.py] on the state
    read at that turn; [None] is [break]. *)
Definition controller_step (state : ControllerState) (v : ControlVars)
  : M MotorControl (option ControlVars) :=
  if button_get (cs_buttons state) 9 then ret None
  else
    chosen <-
      (if button_get (cs_buttons state) 0 then
         ret (0%Q, 0%Q, emergency_stop_mode)
       else controller_targets state) ;;
    let '(target_linear, target_angular, mode) := chosen in
    let current_linear := smooth (cv_current_linear v) target_linear in
    let current_angular := smooth (cv_current_angular v) target_angular in
    set_linear_angular_velocities env CFG current_linear current_angular ;;
    ret (Some {| cv_current_linear := current_linear;
                 cv_current_angular := current_angular;
                 cv_target_linear := target_linear;
                 cv_target_angular := target_angular;
                 cv_last_control_mode := Some mode |}).

(** The main loop of [controller_control.py] over the states read at its
    successive turns, as far as they are given. *)
Fixpoint controller_loop (states : list ControllerState) (v : ControlVars)
  : M MotorControl ControlVars :=
  match states with
  | [] => ret v
  | state :: rest =>
      next <- controller_step state v ;;
      match next with
      | None => ret v
      | Some v' => controller_loop rest v'
      end
  end.

End InputLoops.

(** The variables of the loop at its start. *)
Definition control_vars_init : ControlVars :=
  {| cv_current_linear := 0; cv_current_angular := 0;
     cv_target_linear := 0; cv_target_angular := 0;
     cv_last_control_mode := None |}.

(** *** [backshot.py]: the keyboard *)

(** The variables of the main loop of [backshot.py]. *)
Record KeyVars : Type := {
  kv_last_command : option string;
  kv_current_linear : Q;
  kv_current_angular : Q;
  kv_target_linear : Q;
  kv_target_angular : Q
}.

Definition key_vars_init : KeyVars :=
  {| kv_last_command := None; kv_current_linear := 0; kv_current_angular := 0;
     kv_target_linear := 0; kv_target_angular := 0 |}.

(** [if cmd:] on what [get_current_key] returned: [None] and the empty
    string are false. *)
Definition key_truthy (cmd : option string) : bool :=
  match cmd with
  | Some (String _ _) => true
  | _ => false
  end.

(** [last_command in ['w', 's', 'a', 'd']] *)
Definition is_move_command (last_command : option string) : bool :=
  match last_command with
  | Some c => String.eqb c "w" || String.eqb c "s" || String.eqb c "a" || String.eqb c "d"
  | None => false
  end.

(** Lines 75 to 124 of [backshot.py]: the key read at this turn sets the
    targets and the last command; [None] is [break]. *)
Definition key_targets (cmd : option string) (v : KeyVars)
  : option (option string * Q * Q) :=
  let keep := Some (kv_last_command v, kv_target_linear v, kv_target_angular v) in
  if key_truthy cmd then
    match cmd with
    | Some c =>
        if String.eqb c "w" then Some (Some c, (-4)%Q, 0%Q)
        else if String.eqb c "s" then Some (Some c, 4%Q, 0%Q)
        else if String.eqb c "a" then Some (Some c, 0%Q, (-8)%Q)
        else if String.eqb c "d" then Some (Some c, 0%Q, 8%Q)
        else if String.eqb c "x" then Some (Some c, 0%Q, 0%Q)
        else if String.eqb c "q" then None
        else if String.eqb c (String (ascii_of_nat 3) EmptyString) then None
        else keep
    | None => keep
    end
  else if is_move_command (kv_last_command v) then Some (None, 0%Q, 0%Q)
  else keep.

Section KeyboardLoop.

Variable env : Env.
Variable CFG : Config.

(** One turn of the main loop of [backshot.py]. *)
Definition keyboard_step (cmd : option string) (v : KeyVars)
  : M MotorControl (option KeyVars) :=
  match key_targets cmd v with
  | None => ret None
  | Some (last_command, target_linear, target_angular) =>
      let current_linear := smooth (kv_current_linear v) target_linear in
      let current_angular := smooth (kv_current_angular v) target_angular in
      set_linear_angular_velocities env CFG current_linear current_angular ;;
      ret (Some {| kv_last_command := last_command;
                   kv_current_linear := current_linear;
                   kv_current_angular := current_angular;
                   kv_target_linear := target_linear;
                   kv_target_angular := target_angular |})
  end.

(** The main loop of [backshot.py] over the keys read at its successive
    turns, as far as they are given. *)
Fixpoint keyboard_loop (keys : list (option string)) (v : KeyVars)
  : M MotorControl KeyVars :=
  match keys with
  | [] => ret v
  | cmd :: rest =>
      next <- keyboard_step cmd v ;;
      match next with
      | None => ret v
      | Some v' => keyboard_loop rest v'
      end
  end.

End KeyboardLoop.

(** *** [backshot2.py]: the game controller as a keyboard *)

(** The attributes of a [ControllerInput] object that its command logic
    reads and writes. *)
Record ControllerInput : Type := {
  ci_current_command : option string;
  ci_input_active : bool;
  ci_left_stick_x : Q;
  ci_left_stick_y : Q;
  ci_right_stick_x : Q;
  ci_right_stick_y : Q;
  ci_l2_trigger : Q;
  ci_r2_trigger : Q;
  ci_buttons : list (Z * bool)
}.

Definition set_input_active (b : bool) (c : ControllerInput) : ControllerInput :=
  {| ci_current_command := ci_current_command c; ci_input_active := b;
     ci_left_stick_x := ci_left_stick_x c; ci_left_stick_y := ci_left_stick_y c;
     ci_right_stick_x := ci_right_stick_x c; ci_right_stick_y := ci_right_stick_y c;
     ci_l2_trigger := ci_l2_trigger c; ci_r2_trigger := ci_r2_trigger c;
     ci_buttons := ci_buttons c |}.

Definition set_current_command (cmd : option string) (c : ControllerInput) : ControllerInput :=
  {| ci_current_command := cmd; ci_input_active := ci_input_active c;
     ci_left_stick_x := ci_left_stick_x c; ci_left_stick_y := ci_left_stick_y c;
     ci_right_stick_x := ci_right_stick_x c; ci_right_stick_y := ci_right_stick_y c;
     ci_l2_trigger := ci_l2_trigger c; ci_r2_trigger := ci_r2_trigger c;
     ci_buttons := ci_buttons c |}.

(** The command of a stick pushed beyond the deadzone. *)
Definition stick_command (x y deadzone : Q) : string :=
  if Qlt_bool (Qabs x) (Qabs y)
  then (if Qlt_bool y (- deadzone) then "w" else "s")
  else (if Qlt_bool deadzone x then "d" else "a").

(** [ControllerInput._determine_command]: the object after the call and
    the command returned. *)
Definition determine_command (c : ControllerInput) : ControllerInput * option string :=
  let DEADZONE := (15 # 100)%Q in
  let TRIGGER_DEADZONE := (5 # 100)%Q in
  if button_get (ci_buttons c) 9 then (c, Some "q")
  else if button_get (ci_buttons c) 0 then (c, Some "x")
  else if Qlt_bool TRIGGER_DEADZONE (ci_r2_trigger c) then
    (set_input_active true c, Some "w")
  else if Qlt_bool TRIGGER_DEADZONE (ci_l2_trigger c) then
    (set_input_active true c, Some "s")
  else if Qlt_bool DEADZONE (Qabs (ci_right_stick_x c))
          || Qlt_bool DEADZONE (Qabs (ci_right_stick_y c)) then
    (set_input_active true c,
     Some (stick_command (ci_right_stick_x c) (ci_right_stick_y c) DEADZONE))
  else if Qlt_bool DEADZONE (Qabs (ci_left_stick_x c))
          || Qlt_bool DEADZONE (Qabs (ci_left_stick_y c)) then
    (set_input_active true c,
     Some (stick_command (ci_left_stick_x c) (ci_left_stick_y c) DEADZONE))
  else (set_input_active false c, None).

(** The last statement of a turn of [ControllerInput.controller_thread]:
    [self.current_command = self._determine_command()]. *)
Definition update_command (c : ControllerInput) : ControllerInput :=
  let (c', cmd) := determine_command c in set_current_command cmd c'.

(** [ControllerInput.get_current_command] *)
Definition get_current_command (c : ControllerInput) : option string :=
  if ci_input_active c then ci_current_command c else None.

(** [ControllerInput.is_input_active] *)
Definition is_input_active (c : ControllerInput) : bool := ci_input_active c.

(** ** More vocabulary *)

(** A computation on the port that never reads: what it adds to the log
    has no [readline]. *)
Definition never_reads {A : Type} (c : M Bus A) : Prop :=
  forall log, exists events, fst (c log) = log ++ events /\ ~ In EvReadline events.

(** The number of spaces of a text. *)
Fixpoint count_spaces (s : string) : nat :=
  match s with
  | EmptyString => O
  | String c s' => if Ascii.eqb c " " then S (count_spaces s') else count_spaces s'
  end.

(** The queries of the feedback accessors. *)
Definition feedback_query (axis : Z) : string := ("f " ++ str_int axis)%string.

Definition vel_estimate_query (axis : Z) : string :=
  ("r axis" ++ str_int axis ++ ".encoder.vel_estimate")%string.

(** A computation of the facade that leaves an attribute as it found it. *)
Definition preserves {X A : Type} (f : MotorControl -> X) (c : M MotorControl A) : Prop :=
  forall s, f (fst (c s)) = f s.

(** The controller object that [reset_and_initialize_motors] builds. *)
Definition configured_odrive (CFG : Config) (s : MotorControl) : ODriveUART :=
  {| left_axis := MOTOR_CONTROL_LEFT_MOTOR_AXIS CFG;
     right_axis := MOTOR_CONTROL_RIGHT_MOTOR_AXIS CFG;
     dir_left := left_motor_dir s;
     dir_right := right_motor_dir s |}.

(** A controller state within the range of the hardware: sticks in
    [-1, 1], triggers in [0, 1]. *)
Definition in_range (state : ControllerState) : Prop :=
  (Qabs (cs_left_stick_x state) <= 1 /\ Qabs (cs_left_stick_y state) <= 1 /\
   Qabs (cs_right_stick_x state) <= 1 /\ Qabs (cs_right_stick_y state) <= 1 /\
   0 <= cs_l2_trigger state <= 1 /\ 0 <= cs_r2_trigger state <= 1)%Q.

(** Velocities within the limits of the input programs. *)
Definition within_limits (linear angular : Q) : Prop :=
  (Qabs linear <= MAX_LINEAR_SPEED /\ Qabs angular <= MAX_ANGULAR_SPEED)%Q.

(** The value of [apply_deadzone] when the dead zone is not 1. *)
Definition deadzone_value (value deadzone : Q) : Q :=
  if Qlt_bool (Qabs value) deadzone then 0%Q
  else if Qlt_bool 0 value then ((value - deadzone) / (1 - deadzone))%Q
  else ((value + deadzone) / (1 - deadzone))%Q.

(** The invariant of the main loop of [controller_control.py]. *)
Definition control_vars_ok (v : ControlVars) : Prop :=
  within_limits (cv_current_linear v) (cv_current_angular v) /\
  within_limits (cv_target_linear v) (cv_target_angular v).

(** The invariant of the main loop of [backshot.py]: the velocities are
    within the limits, and the targets are zero unless the last command
    is a movement key. *)
Definition key_vars_ok (v : KeyVars) : Prop :=
  within_limits (kv_current_linear v) (kv_current_angular v) /\
  within_limits (kv_target_linear v) (kv_target_angular v) /\
  (is_move_command (kv_last_command v) = false ->
   kv_target_linear v = 0%Q /\ kv_target_angular v = 0%Q).

(** *** What a call puts on the port *)

(** The text that follows a prefix, when the text starts with it. *)
Fixpoint after_prefix (p s : string) : option string :=
  match p with
  | EmptyString => Some s
  | String a p' =>
      match s with
      | String b s' => if Ascii.eqb a b then after_prefix p' s' else None
      | EmptyString => None
      end
  end.

(** The characters of an integer as [str] renders it. *)
Definition is_int_char (c : ascii) : bool := isdigit c || Ascii.eqb c "-".

Fixpoint skip_int (s : string) : string :=
  match s with
  | String c s' => if is_int_char c then skip_int s' else s
  | EmptyString => EmptyString
  end.

(** Is the line written to the port a velocity setpoint, that is
    [w axis], an integer, [.controller.input_vel ] and whatever follows? *)
Definition is_velocity_setpoint (data : string) : bool :=
  match after_prefix "w axis" data with
  | Some rest =>
      match after_prefix ".controller.input_vel " (skip_int rest) with
      | Some _ => true
      | None => false
      end
  | None => false
  end.

(** The line that [set_speed_rpm_left] and [set_speed_rpm_right] write
    through the controller [o] for [rpm] turns per minute. *)
Definition left_setpoint (env : Env) (o : ODriveUART) (rpm : Q) : string :=
  (input_vel_command env (left_axis o) (rpm / 60 * dir_left o) ++ LF)%string.

Definition right_setpoint (env : Env) (o : ODriveUART) (rpm : Q) : string :=
  (input_vel_command env (right_axis o) (rpm / 60 * dir_right o) ++ LF)%string.

(** The controller objects a call started in the state [s] can talk
    through: the one of [s], and the one a reset builds. *)
Definition call_controller (CFG : Config) (s : MotorControl) (o : ODriveUART) : Prop :=
  motor_controller s = Some o \/ o = configured_odrive CFG s.

(** What a call of [set_linear_angular_velocities] with the inputs [v]
    and [yaw], started in the state [s], may put on the port: an event
    that is a velocity setpoint is the zero setpoint of the left or of the
    right axis, or the setpoint of the left or of the right wheel velocity
    of the clipped inputs, which is within the bound. *)
Definition bounded_setpoint (env : Env) (CFG : Config) (s : MotorControl) (v yaw : Q)
    (ev : event) : Prop :=
  match ev with
  | EvWrite data =>
      is_velocity_setpoint data = true ->
      let max_linear := MOTOR_CONTROL_MAX_SPEED_LINEAR_MPS CFG in
      let max_angular := MOTOR_CONTROL_MAX_SPEED_ANGULAR_RADPS CFG in
      let track := ROBOT_WHEEL_DIST_M CFG in
      let rpm_to_mps := RPM_TO_METERS_PER_SECOND CFG in
      let wheels := wheel_velocities CFG (clip v max_linear) (clip yaw max_angular) in
      exists o,
        call_controller CFG s o /\
        (data = left_setpoint env o 0 \/
         data = right_setpoint env o 0 \/
         (data = left_setpoint env o (fst wheels / rpm_to_mps) /\
          Qabs (fst wheels) <= max_linear + track * max_angular / 2)%Q \/
         (data = right_setpoint env o (snd wheels / rpm_to_mps) /\
          Qabs (snd wheels) <= max_linear + track * max_angular / 2)%Q)
  | _ => True
  end.

(** The log [b'] continues the log [b] with events that satisfy [P]. *)
Definition grows (P : event -> Prop) (b b' : Bus) : Prop :=
  exists added, b' = b ++ added /\ Forall P added.

(** A computation on the port that adds only events that satisfy [P]. *)
Definition emits {A : Type} (P : event -> Prop) (c : M Bus A) : Prop :=
  forall log, grows P log (fst (c log)).

(** The drivetrain of [s] is the one of [s0], possibly after a reset: the
    directions are the same, and the controller object is the same or the
    one a reset builds. *)
Definition same_drivetrain (CFG : Config) (s0 s : MotorControl) : Prop :=
  (motor_controller s = motor_controller s0 \/
   motor_controller s = Some (configured_odrive CFG s0)) /\
  left_motor_dir s = left_motor_dir s0 /\
  right_motor_dir s = right_motor_dir s0.

(** From a state with the drivetrain of [s0], the computation keeps the
    drivetrain and adds to the port only events that satisfy [P]. *)
Definition continues {A : Type} (CFG : Config) (P : event -> Prop) (s0 : MotorControl)
    (c : M MotorControl A) (s : MotorControl) : Prop :=
  same_drivetrain CFG s0 s ->
  same_drivetrain CFG s0 (fst (c s)) /\ grows P (bus s) (bus (fst (c s))).

(** ** More reference data *)

(** Hardware that accepts every operation and answers every query with
    the same line; [float] reads the texts of the table. *)
Definition table_env (line : string) (floats : list (string * Q)) : Env :=
  {| io_raises := fun _ => false;
     rx := fun _ => line;
     fmt_f := fmt_fixed;
     float_of_str := fun text =>
       match find (fun entry => String.eqb (fst entry) text) floats with
       | Some entry => Some (snd entry)
       | None => None
       end;
     ERROR_DICT := [] |}.


(** The reference facade after [stop]. *)
Definition idle_facade : MotorControl := set_is_idle true running_facade.

(** A controller with the right stick pushed up and a little to the
    right, nothing else touched. *)
Definition stick_up_state : ControllerState :=
  {| cs_left_stick_x := 0; cs_left_stick_y := 0;
     cs_right_stick_x := 1 # 5; cs_right_stick_y := - (4 # 5);
     cs_l2_trigger := 0; cs_r2_trigger := 0; cs_buttons := [] |}.

(** The same controller with the options button pressed. *)
Definition quit_state : ControllerState :=
  {| cs_left_stick_x := 0; cs_left_stick_y := 0;
     cs_right_stick_x := 1 # 5; cs_right_stick_y := - (4 # 5);
     cs_l2_trigger := 0; cs_r2_trigger := 0; cs_buttons := [(9, true)] |}.

(** The variables of the keyboard loop after one turn with [w] held. *)
Definition moving_vars : KeyVars :=
  {| kv_last_command := Some "w"%string;
     kv_current_linear := - (12 # 10); kv_current_angular := 0;
     kv_target_linear := -4; kv_target_angular := 0 |}.

(** A [ControllerInput] at rest, and one with the right stick pushed up. *)
Definition resting_input : ControllerInput :=
  {| ci_current_command := None; ci_input_active := false;
     ci_left_stick_x := 0; ci_left_stick_y := 0;
     ci_right_stick_x := 0; ci_right_stick_y := 0;
     ci_l2_trigger := 0; ci_r2_trigger := 0; ci_buttons := [] |}.

Definition stick_up_input : ControllerInput :=
  {| ci_current_command := None; ci_input_active := false;
     ci_left_stick_x := 0; ci_left_stick_y := 0;
     ci_right_stick_x := 1 # 5; ci_right_stick_y := - (4 # 5);
     ci_l2_trigger := 0; ci_r2_trigger := 0; ci_buttons := [] |}.

(** A [ControllerInput] at rest with the options button pressed. *)
Definition quit_pressed_input : ControllerInput :=
  {| ci_current_command := None; ci_input_active := false;
     ci_left_stick_x := 0; ci_left_stick_y := 0;
     ci_right_stick_x := 0; ci_right_stick_y := 0;
     ci_l2_trigger := 0; ci_r2_trigger := 0; ci_buttons := [(9, true)] |}.

(** An axis that reports the setpoint text [1.6667] as its velocity. *)
Definition setpoint_echo_env : Env :=
  table_env ("1.6667" ++ LF)%string [("1.6667"%string, 16667 # 10000)].

(** An axis that reports the position 0.5 and the velocity text [1.6667]. *)
Definition feedback_echo_env : Env :=
  table_env ("0.5 1.6667" ++ LF)%string
    [("0.5"%string, 1 # 2); ("1.6667"%string, 16667 # 10000)].

(** * Properties *)

(** ** The monad *)

Lemma bind_ok {S A B : Type} (c : M S A) (k : A -> M S B) (s s' : S) (a : A) :
  c s = (s', Ok a) -> bind c k s = k a s'.
Proof. intros H. unfold bind. rewrite H. reflexivity. Qed.

Lemma bind_raise {S A B : Type} (c : M S A) (k : A -> M S B) (s s' : S) (e : exn) :
  c s = (s', Raise e) -> bind c k s = (s', Raise e).
Proof. intros H. unfold bind. rewrite H. reflexivity. Qed.

Lemma try_except_ok {S A : Type} (c : M S A) (h : exn -> M S A) (s s' : S) (a : A) :
  c s = (s', Ok a) -> try_except c h s = (s', Ok a).
Proof. intros H. unfold try_except. rewrite H. reflexivity. Qed.

Lemma try_except_raise {S A : Type} (c : M S A) (h : exn -> M S A) (s s' : S) (e : exn) :
  c s = (s', Raise e) -> try_except c h s = h e s'.
Proof. intros H. unfold try_except. rewrite H. reflexivity. Qed.

(** ** The link: [send_command] *)

Section LinkProperties.

Variable env : Env.

Lemma is_query_head (c : ascii) (s : string) :
  is_query (String c s) = (Ascii.eqb c "r" || Ascii.eqb c "f")%bool.
Proof.
  unfold is_query, startswith. cbn [prefix].
  destruct (ascii_dec "r" c) as [Er | Er], (ascii_dec "f" c) as [Ef | Ef];
    destruct (Ascii.eqb_spec c "r"), (Ascii.eqb_spec c "f");
    try congruence; destruct s; reflexivity.
Qed.

(** A command is a query exactly when its first character is [r] or [f]. *)
Lemma is_query_iff (command : string) :
  is_query command = true <->
  exists rest, command = String "r" rest \/ command = String "f" rest.
Proof.
  destruct command as [| c s].
  - split; [discriminate | intros [rest [H | H]]; discriminate].
  - rewrite is_query_head, orb_true_iff, !Ascii.eqb_eq. split.
    + intros [-> | ->]; exists s; auto.
    + intros [rest [H | H]]; inversion H; auto.
Qed.

(** [send_command] in full: every way it can end. *)
Lemma send_command_eq (command : string) (log : Bus) :
  send_command env command log =
  if io_raises env (log ++ [EvResetInput]) then
    (log ++ [EvResetInput], Raise SerialException)
  else if io_raises env (log ++ sent command) then
    (log ++ sent command, Raise SerialException)
  else if is_query command then
    if io_raises env (log ++ exchanged command) then
      (log ++ exchanged command, Raise SerialException)
    else if is_ascii (rx env (log ++ exchanged command)) then
      (log ++ exchanged command, Ok (Some (strip (rx env (log ++ exchanged command)))))
    else (log ++ exchanged command, Raise UnicodeDecodeError)
  else (log ++ sent command, Ok None).
Proof.
  unfold send_command, bind, bus_op, bus_readline, decode_ascii, ret, raise,
    sent, exchanged, is_ascii.
  cbv zeta. rewrite <- !app_assoc. cbn [app].
  destruct (io_raises env (log ++ [EvResetInput])); [reflexivity |].
  destruct (io_raises env (log ++ [EvResetInput; EvWrite (command ++ LF)%string]));
    [reflexivity |].
  destruct (is_query command); [| reflexivity].
  rewrite <- ?app_assoc. cbn [app].
  destruct (io_raises env (log ++ [EvResetInput; EvWrite (command ++ LF)%string; EvReadline]));
    [reflexivity |].
  destruct (forall_str _ _); reflexivity.
Qed.

(** A write that the port accepts. *)
Lemma send_command_write (command : string) (log : Bus) :
  is_query command = false ->
  io_raises env (log ++ [EvResetInput]) = false ->
  io_raises env (log ++ sent command) = false ->
  send_command env command log = (log ++ sent command, Ok None).
Proof.
  intros Hq H1 H2. rewrite send_command_eq, H1, H2, Hq. reflexivity.
Qed.

(** C9: [send_command] discards the input buffer before it writes the
    command, whatever the command; it reads a reply, and returns it, only
    for a command that starts with [r] or [f]; for any other command it
    reads nothing and returns [None]. *)
Theorem send_command_reads_only_queries (command : string) (log : Bus) :
  let log' := fst (send_command env command log) in
  let r := snd (send_command env command log) in
  (* the buffer is discarded first, the command is written next *)
  (log' = log ++ [EvResetInput] \/
   exists rest, log' = log ++ EvResetInput :: EvWrite (command ++ LF)%string :: rest) /\
  (* a command that is not a query *)
  (is_query command = false ->
     (log' = log ++ [EvResetInput] \/ log' = log ++ sent command) /\
     (forall v, r = Ok v -> v = None) /\
     (io_raises env (log ++ [EvResetInput]) = false ->
      io_raises env (log ++ sent command) = false -> r = Ok None)) /\
  (* a query *)
  (is_query command = true ->
     (forall v, r = Ok v ->
        log' = log ++ exchanged command /\ v = Some (strip (rx env log'))) /\
     (io_raises env (log ++ [EvResetInput]) = false ->
      io_raises env (log ++ sent command) = false ->
      io_raises env (log ++ exchanged command) = false ->
      is_ascii (rx env (log ++ exchanged command)) = true ->
      r = Ok (Some (strip (rx env (log ++ exchanged command)))))) /\
  (* a reply is returned only to a query *)
  (forall text, r = Ok (Some text) -> is_query command = true).
Proof.
  cbv zeta. rewrite send_command_eq. unfold sent, exchanged.
  destruct (io_raises env (log ++ [EvResetInput])) eqn:E1; cbn [fst snd].
  { repeat split; auto; intros; try discriminate. }
  destruct (io_raises env (log ++ [EvResetInput; EvWrite (command ++ LF)%string])) eqn:E2;
    cbn [fst snd].
  { split; [right; exists []; reflexivity |].
    repeat split; auto; intros; try discriminate. }
  destruct (is_query command) eqn:Eq.
  - destruct (io_raises env (log ++ [EvResetInput; EvWrite (command ++ LF)%string; EvReadline]))
      eqn:E3; cbn [fst snd].
    { split; [right; exists [EvReadline]; reflexivity |].
      repeat split; auto; intros; try discriminate. }
    destruct (is_ascii _) eqn:Ea; cbn [fst snd].
    + split; [right; exists [EvReadline]; reflexivity |].
      repeat split; auto; intros; try discriminate; congruence.
    + split; [right; exists [EvReadline]; reflexivity |].
      repeat split; auto; intros; try discriminate.
  - cbn [fst snd]. split; [right; exists []; reflexivity |].
    repeat split; auto; intros; try discriminate; congruence.
Qed.

(** C2, as the code has it: when the timeout of [readline] expires with
    nothing received, a query returns the empty string; it does not raise. *)
Theorem send_command_timeout_returns_empty (command : string) (log : Bus) :
  is_query command = true ->
  io_raises env (log ++ [EvResetInput]) = false ->
  io_raises env (log ++ sent command) = false ->
  io_raises env (log ++ exchanged command) = false ->
  rx env (log ++ exchanged command) = "" ->
  send_command env command log = (log ++ exchanged command, Ok (Some "")).
Proof.
  intros Hq H1 H2 H3 Hrx.
  rewrite send_command_eq, H1, H2, Hq, H3, Hrx. reflexivity.
Qed.

End LinkProperties.

(** ** The axis commands *)

Section AxisProperties.

Variable env : Env.

Lemma forall_filter_str (p : ascii -> bool) (s : string) :
  forall_str p (filter_str p s) = true.
Proof.
  induction s as [| c s IH]; simpl; [reflexivity |].
  destruct (p c) eqn:E; simpl; [rewrite E |]; exact IH.
Qed.

Lemma reply_code_none (reply : string) :
  reply_code reply = None <-> filter_str isdigit reply = ""%string.
Proof.
  unfold reply_code. destruct (filter_str isdigit reply); split; congruence.
Qed.

Lemma reply_code_some (reply : string) :
  filter_str isdigit reply <> ""%string ->
  reply_code reply = Some (int_of_digits 0 (filter_str isdigit reply)).
Proof.
  unfold reply_code. destruct (filter_str isdigit reply); congruence.
Qed.

(** The [try] block shared by [get_errors], [has_errors] and
    [dump_errors], on a reply text. *)
Lemma parse_reply {S A : Type} (reply : string) (k : Z -> A) (dflt : A) (s : S) :
  try_except_ValueError
    (cleaned_response <- join_digits (Some reply) ;;
     error_code <- py_int cleaned_response ;;
     ret (k error_code))
    (ret dflt) s
  = (s, Ok (match reply_code reply with Some code => k code | None => dflt end)).
Proof.
  unfold try_except_ValueError, try_except, bind, join_digits, ret, reply_code, py_int.
  pose proof (forall_filter_str isdigit reply) as Hd.
  destruct (filter_str isdigit reply) as [| c d] eqn:E.
  - reflexivity.
  - rewrite Hd. reflexivity.
Qed.

Lemma get_errors_on_reply (self : ODriveUART) (axis : Z) (log log' : Bus) (reply : string) :
  send_command env (error_query axis) log = (log', Ok (Some reply)) ->
  get_errors env self axis log =
  (log', Ok (match reply_code reply with
             | Some code => code
             | None => -1
             end, inr "Unknown error"%string)).
Proof.
  intros Hs. unfold get_errors. cbv zeta.
  rewrite (bind_ok _ _ _ _ _ Hs).
  rewrite (parse_reply reply
             (fun code => (code, dict_get (ERROR_DICT env) (KeyInt code)
                                   "Unknown error"%string))
             (-1, inr "Unknown error"%string) log').
  destruct (reply_code reply); reflexivity.
Qed.

Lemma has_errors_loop_on_reply (axis : Z) (rest : list Z) (log log' : Bus) (reply : string) :
  send_command env (error_query axis) log = (log', Ok (Some reply)) ->
  has_errors_loop env (axis :: rest) log =
  if reply_is_fault reply then (log', Ok true) else has_errors_loop env rest log'.
Proof.
  intros Hs. cbn [has_errors_loop].
  rewrite (bind_ok _ _ _ _ _ Hs).
  rewrite (bind_ok _ _ _ _ _ (parse_reply reply (fun code => Some code) None log')).
  unfold reply_is_fault. destruct (reply_code reply) as [code |]; [| reflexivity].
  destruct (negb (code =? 0)); reflexivity.
Qed.

Lemma has_errors_loop_on_raise (axis : Z) (rest : list Z) (log log' : Bus) (e : exn) :
  send_command env (error_query axis) log = (log', Raise e) ->
  has_errors_loop env (axis :: rest) log = (log', Raise e).
Proof.
  intros Hs. cbn [has_errors_loop]. exact (bind_raise _ _ _ _ _ Hs).
Qed.

(** A query returns a text or raises; it never returns [None]. *)
Lemma send_command_query_cases (command : string) (log : Bus) :
  is_query command = true ->
  (exists e, send_command env command log = (fst (send_command env command log), Raise e)) \/
  (send_command env command log =
   (log ++ exchanged command, Ok (Some (strip (rx env (log ++ exchanged command)))))).
Proof.
  intros Hq. rewrite !send_command_eq, Hq.
  destruct (io_raises env (log ++ [EvResetInput])); [left; eexists; reflexivity |].
  destruct (io_raises env (log ++ sent command)); [left; eexists; reflexivity |].
  destruct (io_raises env (log ++ exchanged command)); [left; eexists; reflexivity |].
  destruct (is_ascii _); [right; reflexivity | left; eexists; reflexivity].
Qed.

(** On a port that accepts everything and answers in ASCII, [has_errors]
    returns. *)
Lemma has_errors_returns (self : ODriveUART) (log : Bus) :
  (forall l, io_raises env l = false) ->
  (forall l, is_ascii (rx env l) = true) ->
  exists b, snd (has_errors env self log) = Ok b.
Proof.
  intros Hio Hrx. unfold has_errors.
  assert (Hq : forall axis l,
             send_command env (error_query axis) l =
             (l ++ exchanged (error_query axis),
              Ok (Some (strip (rx env (l ++ exchanged (error_query axis))))))).
  { intros axis l. rewrite send_command_eq, !Hio, Hrx. reflexivity. }
  rewrite (has_errors_loop_on_reply 0 [1] _ _ _ (Hq 0 log)).
  destruct (reply_is_fault _); [exists true; reflexivity |].
  rewrite (has_errors_loop_on_reply 1 [] _ _ _ (Hq 1 _)).
  destruct (reply_is_fault _); [exists true | exists false]; reflexivity.
Qed.

(** C6: [get_errors] parses the digits of the reply and nothing else; when
    the reply has no digit it returns the code [-1] with the name
    [Unknown error], and [has_errors] reports a fault at that axis, be it
    the first axis polled or the second.  (The name is [Unknown error]
    for every code: the dictionary is keyed by names, not by codes.) *)
Theorem get_errors_unknown_is_fault
    (self : ODriveUART) (axis : Z) (log log' : Bus) (reply : string) :
  send_command env (error_query axis) log = (log', Ok (Some reply)) ->
  (filter_str isdigit reply <> ""%string ->
   get_errors env self axis log =
   (log', Ok (int_of_digits 0 (filter_str isdigit reply), inr "Unknown error"%string))) /\
  (filter_str isdigit reply = ""%string ->
   get_errors env self axis log = (log', Ok (-1, inr "Unknown error"%string)) /\
   (forall rest, has_errors_loop env (axis :: rest) log = (log', Ok true)) /\
   (axis = 0 -> has_errors env self log = (log', Ok true)) /\
   (axis = 1 ->
    forall log0 reply0,
      send_command env (error_query 0) log0 = (log, Ok (Some reply0)) ->
      reply_is_fault reply0 = false ->
      has_errors env self log0 = (log', Ok true))).
Proof.
  intros Hs. split.
  - intros Hd. rewrite (get_errors_on_reply self axis log log' reply Hs).
    rewrite (reply_code_some reply Hd). reflexivity.
  - intros Hd. apply reply_code_none in Hd.
    assert (Hloop : forall rest, has_errors_loop env (axis :: rest) log = (log', Ok true)).
    { intros rest. rewrite (has_errors_loop_on_reply axis rest log log' reply Hs).
      unfold reply_is_fault. rewrite Hd. reflexivity. }
    split; [| split; [exact Hloop | split]].
    + rewrite (get_errors_on_reply self axis log log' reply Hs), Hd. reflexivity.
    + intros ->. exact (Hloop [1]).
    + intros -> log0 reply0 Hs0 H0. unfold has_errors.
      rewrite (has_errors_loop_on_reply 0 [1] log0 log reply0 Hs0), H0.
      exact (Hloop []).
Qed.

(** C10: [has_errors] polls axis 0, then axis 1, whatever axes the object
    was configured with; it answers [True] at the first reply that is not
    a parseable zero, without polling further, and [False] only after
    both replies were parseable zeros. *)
Theorem has_errors_fixed_axes (self : ODriveUART) (log log' : Bus) (b : bool) :
  has_errors env self log = (log', Ok b) ->
  let q0 := log ++ exchanged "r axis0.error" in
  let q1 := q0 ++ exchanged "r axis1.error" in
  let reply0 := strip (rx env q0) in
  let reply1 := strip (rx env q1) in
  (forall self', has_errors env self' log = has_errors env self log) /\
  ((b = true /\ log' = q0 /\ reply_is_fault reply0 = true) \/
   (b = reply_is_fault reply1 /\ log' = q1 /\ reply_is_fault reply0 = false)).
Proof.
  intros H. cbv zeta. split; [reflexivity |].
  unfold has_errors in H.
  destruct (send_command_query_cases "r axis0.error" log eq_refl) as [[e He] | H0].
  { rewrite (has_errors_loop_on_raise 0 [1] log _ e He) in H. discriminate. }
  rewrite (has_errors_loop_on_reply 0 [1] log _ _ H0) in H.
  destruct (reply_is_fault (strip (rx env (log ++ exchanged "r axis0.error")))) eqn:F0.
  { left. inversion H. auto. }
  right.
  destruct (send_command_query_cases "r axis1.error"
              (log ++ exchanged "r axis0.error") eq_refl) as [[e He] | H1].
  { rewrite (has_errors_loop_on_raise 1 [] _ _ e He) in H. discriminate. }
  rewrite (has_errors_loop_on_reply 1 [] _ _ _ H1) in H.
  destruct (reply_is_fault
              (strip (rx env ((log ++ exchanged "r axis0.error")
                              ++ exchanged "r axis1.error")))) eqn:F1;
    cbn [has_errors_loop] in H; unfold ret in H; inversion H; auto.
Qed.

(** C8: [set_torque_nm] writes [c axis torque], where the torque is
    [nm * direction] pushed 0.05 N.m further in the direction of motion
    (the sign of [nm], zero counting as positive, times the direction),
    and then the latch command [u axis]. *)
Theorem set_torque_nm_bias_then_latch
    (self : ODriveUART) (axis : Z) (nm direction : Q) (log : Bus) :
  let torque_command :=
    ("c " ++ str_int axis ++ " " ++ fmt_f env 4 (adjusted_torque nm direction))%string in
  let update_command := ("u " ++ str_int axis)%string in
  io_raises env (log ++ [EvResetInput]) = false ->
  io_raises env (log ++ sent torque_command) = false ->
  io_raises env ((log ++ sent torque_command) ++ [EvResetInput]) = false ->
  io_raises env ((log ++ sent torque_command) ++ sent update_command) = false ->
  set_torque_nm env self axis nm direction log =
    ((log ++ sent torque_command) ++ sent update_command, Ok tt) /\
  (0 <= nm -> adjusted_torque nm direction == nm * direction + (5 # 100) * direction)%Q /\
  (nm < 0 -> adjusted_torque nm direction == nm * direction - (5 # 100) * direction)%Q /\
  (direction == 1 \/ direction == -1 ->
   Qabs (adjusted_torque nm direction) == Qabs nm + (5 # 100))%Q.
Proof.
  cbv zeta. intros H1 H2 H3 H4.
  assert (Hpos : (0 <= nm -> adjusted_torque nm direction
                            == nm * direction + (5 # 100) * direction)%Q).
  { intros Hnm. unfold adjusted_torque. cbv zeta.
    rewrite (proj2 (Qle_bool_iff 0 nm) Hnm). ring. }
  assert (Hneg : (nm < 0 -> adjusted_torque nm direction
                            == nm * direction - (5 # 100) * direction)%Q).
  { intros Hnm. unfold adjusted_torque. cbv zeta.
    destruct (Qle_bool 0 nm) eqn:E.
    - apply Qle_bool_iff in E. lra.
    - ring. }
  split; [| split; [exact Hpos | split; [exact Hneg |]]].
  - unfold set_torque_nm.
    rewrite (bind_ok _ _ _ _ _
               (send_command_write env
                  ("c " ++ str_int axis ++ " "
                   ++ fmt_f env 4 (adjusted_torque nm direction))%string
                  log eq_refl H1 H2)).
    rewrite (bind_ok _ _ _ _ _
               (send_command_write env ("u " ++ str_int axis)%string _ eq_refl H3 H4)).
    reflexivity.
  - intros Hd. destruct (Qlt_le_dec nm 0) as [Hnm | Hnm].
    + rewrite (Hneg Hnm). rewrite (Qabs_neg nm) by lra.
      destruct Hd as [Hd | Hd]; rewrite Hd.
      * rewrite Qabs_neg by lra. ring.
      * rewrite Qabs_pos by lra. ring.
    + rewrite (Hpos Hnm). rewrite (Qabs_pos nm) by lra.
      destruct Hd as [Hd | Hd]; rewrite Hd.
      * rewrite Qabs_pos by lra. ring.
      * rewrite Qabs_neg by lra. ring.
Qed.

End AxisProperties.

(** ** The kinematics and the limits *)

Section KinematicsProperties.

Variable CFG : Config.

(** The wheel velocities of the code are [bodyToWheel] at the configured
    track width. *)
Lemma wheel_velocities_bodyToWheel (linear angular : Q) :
  wheel_velocities CFG linear angular =
  bodyToWheel linear angular (ROBOT_WHEEL_DIST_M CFG).
Proof. reflexivity. Qed.

(** Negating the yaw rate exchanges the two wheels, at any linear speed. *)
Lemma wheel_velocities_swap (linear angular : Q) :
  (fst (wheel_velocities CFG linear (- angular)) == snd (wheel_velocities CFG linear angular) /\
   snd (wheel_velocities CFG linear (- angular)) == fst (wheel_velocities CFG linear angular))%Q.
Proof. unfold wheel_velocities. cbn [fst snd]. split; field. Qed.

(** C7: the wheel decomposition is antisymmetric in the yaw rate at zero
    linear speed: the left and right velocities of [-a] are the right and
    left velocities of [a]. *)
Theorem wheel_velocities_antisymmetric (angular : Q) :
  (fst (wheel_velocities CFG 0 (- angular)) == snd (wheel_velocities CFG 0 angular) /\
   snd (wheel_velocities CFG 0 (- angular)) == fst (wheel_velocities CFG 0 angular) /\
   fst (bodyToWheel 0 (- angular) (ROBOT_WHEEL_DIST_M CFG))
     == snd (bodyToWheel 0 angular (ROBOT_WHEEL_DIST_M CFG)) /\
   snd (bodyToWheel 0 (- angular) (ROBOT_WHEEL_DIST_M CFG))
     == fst (bodyToWheel 0 angular (ROBOT_WHEEL_DIST_M CFG)))%Q.
Proof.
  rewrite <- !wheel_velocities_bodyToWheel.
  destruct (wheel_velocities_swap 0 angular) as [H1 H2]. auto.
Qed.

Lemma py_min_le (a b : Q) : (py_min a b <= a /\ py_min a b <= b)%Q.
Proof.
  unfold py_min. destruct (Qle_bool a b) eqn:E.
  - apply Qle_bool_iff in E. split; lra.
  - assert (~ (a <= b)%Q) by (intros H; apply Qle_bool_iff in H; congruence).
    split; lra.
Qed.

Lemma py_min_cases (a b : Q) : py_min a b = a \/ py_min a b = b.
Proof. unfold py_min. destruct (Qle_bool a b); auto. Qed.

Lemma py_max_ge (a b : Q) : (a <= py_max a b /\ b <= py_max a b)%Q.
Proof.
  unfold py_max. destruct (Qle_bool b a) eqn:E.
  - apply Qle_bool_iff in E. split; lra.
  - assert (~ (b <= a)%Q) by (intros H; apply Qle_bool_iff in H; congruence).
    split; lra.
Qed.

Lemma py_max_cases (a b : Q) : py_max a b = a \/ py_max a b = b.
Proof. unfold py_max. destruct (Qle_bool b a); auto. Qed.

(** Clipping to a non-negative limit lands within the limit. *)
Lemma clip_bounds (x limit : Q) :
  (0 <= limit -> - limit <= clip x limit <= limit)%Q.
Proof.
  intros Hl. unfold clip.
  pose proof (py_min_le x limit) as [_ Hm].
  pose proof (py_max_ge (py_min x limit) (- limit)) as [_ Hx].
  split; [exact Hx |].
  destruct (py_max_cases (py_min x limit) (- limit)) as [-> | ->]; lra.
Qed.

(** Clipping leaves a value within the limit as it is. *)
Lemma clip_inside (x limit : Q) :
  (- limit <= x <= limit -> clip x limit = x)%Q.
Proof.
  intros [H1 H2]. unfold clip, py_min, py_max.
  rewrite (proj2 (Qle_bool_iff x limit) H2).
  rewrite (proj2 (Qle_bool_iff (- limit) x) H1). reflexivity.
Qed.

(** The bound on a wheel velocity computed from clipped inputs. *)
Lemma wheel_velocities_bound (linear angular : Q) :
  let max_linear := MOTOR_CONTROL_MAX_SPEED_LINEAR_MPS CFG in
  let max_angular := MOTOR_CONTROL_MAX_SPEED_ANGULAR_RADPS CFG in
  let track := ROBOT_WHEEL_DIST_M CFG in
  let wheels := wheel_velocities CFG (clip linear max_linear) (clip angular max_angular) in
  (0 <= max_linear -> 0 <= max_angular -> 0 <= track ->
   Qabs (fst wheels) <= max_linear + track * max_angular / 2 /\
   Qabs (snd wheels) <= max_linear + track * max_angular / 2)%Q.
Proof.
  cbv zeta. intros Hl Ha Ht.
  pose proof (clip_bounds linear _ Hl) as [L1 L2].
  pose proof (clip_bounds angular _ Ha) as [A1 A2].
  unfold wheel_velocities. cbn [fst snd].
  set (cl := clip linear (MOTOR_CONTROL_MAX_SPEED_LINEAR_MPS CFG)) in *.
  set (ca := clip angular (MOTOR_CONTROL_MAX_SPEED_ANGULAR_RADPS CFG)) in *.
  set (ml := MOTOR_CONTROL_MAX_SPEED_LINEAR_MPS CFG) in *.
  set (ma := MOTOR_CONTROL_MAX_SPEED_ANGULAR_RADPS CFG) in *.
  set (w := ROBOT_WHEEL_DIST_M CFG) in *.
  assert (P1 : (w * ca <= w * ma)%Q) by nra.
  assert (P2 : (- (w * ma) <= w * ca)%Q) by nra.
  set (p := (w * ca)%Q) in *. set (q := (w * ma)%Q) in *.
  clearbody p q cl ca ml ma w.
  assert (E : forall x : Q, (x / 2 == x * (1 # 2))%Q) by (intros; field).
  split; apply Qabs_Qle_condition; rewrite !E; split; lra.
Qed.

End KinematicsProperties.

(** ** The facade *)

Section FacadeProperties.

Variable env : Env.
Variable CFG : Config.

(** *** Outcomes *)

Lemma try_except_pass (body : M MotorControl unit) (s : MotorControl) :
  snd (try_except body (fun _ => ret tt) s) = Ok tt.
Proof.
  unfold try_except. destruct (body s) as [s' [[] | e]]; reflexivity.
Qed.

Lemma stop_returns (s : MotorControl) : snd (stop env s) = Ok tt.
Proof. apply try_except_pass. Qed.

(** [stop] never raises, so the fall-backs of [emergency_stop] never run. *)
Lemma emergency_stop_is_stop (s : MotorControl) : emergency_stop env s = stop env s.
Proof.
  unfold emergency_stop, try_except at 1.
  pose proof (stop_returns s) as H.
  destruct (stop env s) as [s' r]. cbn [snd] in H. rewrite H. reflexivity.
Qed.

Lemma emergency_stop_returns (s : MotorControl) : snd (emergency_stop env s) = Ok tt.
Proof. rewrite emergency_stop_is_stop. apply stop_returns. Qed.

Lemma reset_and_initialize_motors_returns (torque_mode : bool) (s : MotorControl) :
  snd (reset_and_initialize_motors env CFG torque_mode s) = Ok tt.
Proof.
  unfold reset_and_initialize_motors, reset_odrive, bind at 1, ret at 1.
  apply try_except_pass.
Qed.

(** A computation that always returns, as a state transformer. *)
Lemma returns_eq {A : Type} (c : M MotorControl A) (s : MotorControl) (a : A) :
  snd (c s) = Ok a -> c s = (exec c s, Ok a).
Proof. unfold exec. destruct (c s) as [s' r]. cbn. intros ->. reflexivity. Qed.

(** *** A write through the facade *)

Lemma with_mc_write (f : ODriveUART -> M Bus unit) (command : string)
    (s : MotorControl) (o : ODriveUART) :
  motor_controller s = Some o ->
  f o = (send_command env command ;; ret tt) ->
  is_query command = false ->
  (with_mc f s = (set_bus (bus s ++ [EvResetInput]) s, Raise SerialException) /\
   io_raises env (bus s ++ [EvResetInput]) = true) \/
  (with_mc f s = (set_bus (bus s ++ sent command) s, Raise SerialException) /\
   io_raises env (bus s ++ [EvResetInput]) = false /\
   io_raises env (bus s ++ sent command) = true) \/
  (with_mc f s = (set_bus (bus s ++ sent command) s, Ok tt) /\
   io_raises env (bus s ++ [EvResetInput]) = false /\
   io_raises env (bus s ++ sent command) = false).
Proof.
  intros Ho Hf Hq. unfold with_mc, lift_bus. rewrite Ho, Hf.
  unfold bind. rewrite send_command_eq, Hq.
  destruct (io_raises env (bus s ++ [EvResetInput])); [left; auto |].
  destruct (io_raises env (bus s ++ sent command)); right; [left | right]; auto.
Qed.

(** C3, as the code has it: [stop] never raises.  With a controller
    attached, either the port accepts all eight operations, and then zero
    velocity was written to both axes, both were set idle, in that order,
    and [is_idle] is recorded; or one operation raises, and then nothing
    further is written and [is_idle] keeps the value it had.  Without a
    controller nothing changes at all. *)
Theorem stop_records_idle_on_success (s : MotorControl) :
  let s' := exec (stop env) s in
  outcome (stop env) s = Ok tt /\
  match motor_controller s with
  | None => s' = s
  | Some o =>
      (is_idle s' = true /\
       bus s' = bus s ++ stop_events env o /\
       forall k, (1 <= k <= 8)%nat ->
                 io_raises env (bus s ++ firstn k (stop_events env o)) = false) \/
      (is_idle s' = is_idle s /\
       exists k, (1 <= k <= 8)%nat /\
                 bus s' = bus s ++ firstn k (stop_events env o) /\
                 io_raises env (bus s') = true)
  end.
Proof.
  cbv zeta. split; [apply stop_returns |].
  destruct (motor_controller s) as [o |] eqn:Ho.
  2:{ unfold exec, stop, try_except, bind, with_mc. rewrite Ho. reflexivity. }
  unfold exec, stop.
  set (c1 := input_vel_command env (left_axis o) (0 / 60 * dir_left o)).
  set (c2 := input_vel_command env (right_axis o) (0 / 60 * dir_right o)).
  set (c3 := idle_command (left_axis o)).
  set (c4 := idle_command (right_axis o)).
  assert (E8 : stop_events env o = sent c1 ++ sent c2 ++ sent c3 ++ sent c4) by reflexivity.
  unfold try_except.
  (* zero velocity, left *)
  destruct (with_mc_write (fun o => set_speed_rpm_left env o 0) c1 s o Ho eq_refl eq_refl)
    as [[W1 R1] | [[W1 [R1 R1']] | [W1 [R1 R1']]]].
  { right. rewrite (bind_raise _ _ _ _ _ W1). cbn.
    split; [reflexivity |]. exists 1%nat. repeat split; auto; lia. }
  { right. rewrite (bind_raise _ _ _ _ _ W1). cbn.
    split; [reflexivity |]. exists 2%nat. repeat split; auto; lia. }
  rewrite (bind_ok _ _ _ _ _ W1).
  set (s1 := set_bus (bus s ++ sent c1) s) in *.
  (* zero velocity, right *)
  destruct (with_mc_write (fun o => set_speed_rpm_right env o 0) c2 s1 o Ho eq_refl eq_refl)
    as [[W2 R2] | [[W2 [R2 R2']] | [W2 [R2 R2']]]];
    cbn [s1 bus set_bus] in W2, R2; rewrite <- ?app_assoc in W2, R2;
    try (cbn [s1 bus set_bus] in R2'; rewrite <- ?app_assoc in R2').
  { right. rewrite (bind_raise _ _ _ _ _ W2). cbn [fst is_idle bus set_bus s1].
    split; [reflexivity |]. exists 3%nat. repeat split; auto; lia. }
  { right. rewrite (bind_raise _ _ _ _ _ W2). cbn [fst is_idle bus set_bus s1].
    split; [reflexivity |]. exists 4%nat. repeat split; auto; lia. }
  rewrite (bind_ok _ _ _ _ _ W2).
  set (s2 := set_bus (bus s ++ sent c1 ++ sent c2) s1) in *.
  (* idle, left *)
  destruct (with_mc_write (set_idle_left env) c3 s2 o Ho eq_refl eq_refl)
    as [[W3 R3] | [[W3 [R3 R3']] | [W3 [R3 R3']]]];
    cbn [s2 s1 bus set_bus] in W3, R3; rewrite <- ?app_assoc in W3, R3;
    try (cbn [s2 s1 bus set_bus] in R3'; rewrite <- ?app_assoc in R3').
  { right. rewrite (bind_raise _ _ _ _ _ W3). cbn [fst is_idle bus set_bus s1 s2].
    split; [reflexivity |]. exists 5%nat. repeat split; auto; lia. }
  { right. rewrite (bind_raise _ _ _ _ _ W3). cbn [fst is_idle bus set_bus s1 s2].
    split; [reflexivity |]. exists 6%nat. repeat split; auto; lia. }
  rewrite (bind_ok _ _ _ _ _ W3).
  set (s3 := set_bus (bus s ++ sent c1 ++ sent c2 ++ sent c3) s2) in *.
  (* idle, right *)
  destruct (with_mc_write (set_idle_right env) c4 s3 o Ho eq_refl eq_refl)
    as [[W4 R4] | [[W4 [R4 R4']] | [W4 [R4 R4']]]];
    cbn [s3 s2 s1 bus set_bus] in W4, R4; rewrite <- ?app_assoc in W4, R4;
    try (cbn [s3 s2 s1 bus set_bus] in R4'; rewrite <- ?app_assoc in R4').
  { right. rewrite (bind_raise _ _ _ _ _ W4). cbn [fst is_idle bus set_bus s1 s2 s3].
    split; [reflexivity |]. exists 7%nat. repeat split; auto; lia. }
  { right. rewrite (bind_raise _ _ _ _ _ W4). cbn [fst is_idle bus set_bus s1 s2 s3].
    split; [reflexivity |]. exists 8%nat. repeat split; auto; lia. }
  rewrite (bind_ok _ _ _ _ _ W4).
  left. cbn [modify fst is_idle bus set_bus set_is_idle s1 s2 s3].
  split; [reflexivity |]. split; [rewrite E8; reflexivity |].
  intros k Hk.
  destruct k as [| [| [| [| [| [| [| [| [| k]]]]]]]]]; try lia; assumption.
Qed.

(** *** What keeps the cycle counter *)

Lemma keeps_ret {A : Type} (a : A) : keeps_count (ret a).
Proof. intros s. reflexivity. Qed.

Lemma keeps_raise {A : Type} (e : exn) : keeps_count (@raise _ A e).
Proof. intros s. reflexivity. Qed.

Lemma keeps_gets {A : Type} (f : MotorControl -> A) : keeps_count (gets f).
Proof. intros s. reflexivity. Qed.

Lemma keeps_bind {A B : Type} (c : M MotorControl A) (k : A -> M MotorControl B) :
  keeps_count c -> (forall a, keeps_count (k a)) -> keeps_count (bind c k).
Proof.
  intros Hc Hk s. unfold bind. specialize (Hc s).
  destruct (c s) as [s' [a | e]]; cbn [fst] in *.
  - rewrite (Hk a s'). exact Hc.
  - exact Hc.
Qed.

Lemma keeps_try {A : Type} (c : M MotorControl A) (h : exn -> M MotorControl A) :
  keeps_count c -> (forall e, keeps_count (h e)) -> keeps_count (try_except c h).
Proof.
  intros Hc Hh s. unfold try_except. specialize (Hc s).
  destruct (c s) as [s' [a | e]]; cbn [fst] in *.
  - exact Hc.
  - rewrite (Hh e s'). exact Hc.
Qed.

Lemma keeps_lift_bus {A : Type} (c : M Bus A) : keeps_count (lift_bus c).
Proof. intros s. unfold lift_bus. destruct (c (bus s)). reflexivity. Qed.

Lemma keeps_with_mc {A : Type} (f : ODriveUART -> M Bus A) : keeps_count (with_mc f).
Proof.
  intros s. unfold with_mc. destruct (motor_controller s); [| reflexivity].
  apply keeps_lift_bus.
Qed.

Lemma keeps_set_is_idle (b : bool) : keeps_count (modify (set_is_idle b)).
Proof. intros s. reflexivity. Qed.

Lemma keeps_set_motor_controller (o : ODriveUART) :
  keeps_count (modify (set_motor_controller o)).
Proof. intros s. reflexivity. Qed.

Lemma keeps_if {A : Type} (b : bool) (c1 c2 : M MotorControl A) :
  keeps_count c1 -> keeps_count c2 -> keeps_count (if b then c1 else c2).
Proof. destruct b; auto. Qed.

Create HintDb keeps.
#[local] Hint Resolve keeps_ret keeps_raise keeps_gets keeps_lift_bus keeps_with_mc
  keeps_set_is_idle keeps_set_motor_controller : keeps.
#[local] Hint Extern 2 (keeps_count (bind _ _)) => apply keeps_bind; [| intros ?] : keeps.
#[local] Hint Extern 2 (keeps_count (try_except _ _)) => apply keeps_try; [| intros ?] : keeps.
#[local] Hint Extern 2 (keeps_count (if _ then _ else _)) => apply keeps_if : keeps.

Lemma keeps_stop : keeps_count (stop env).
Proof. unfold stop. auto 20 with keeps. Qed.

Lemma keeps_emergency_stop : keeps_count (emergency_stop env).
Proof. intros s. rewrite emergency_stop_is_stop. apply keeps_stop. Qed.

Lemma keeps_dump_motor_config_loop (axes : list Z) :
  keeps_count (dump_motor_config_loop env axes).
Proof.
  induction axes as [| axis rest IH]; cbn [dump_motor_config_loop]; auto 20 with keeps.
Qed.

Lemma keeps_dump_motor_config : keeps_count (dump_motor_config env).
Proof.
  unfold dump_motor_config. apply keeps_try; [| auto with keeps].
  apply keeps_bind; [auto with keeps |]. intros axes.
  apply keeps_dump_motor_config_loop.
Qed.

Lemma keeps_start_motors_velocity_mode : keeps_count (start_motors_velocity_mode env).
Proof.
  pose proof keeps_dump_motor_config.
  unfold start_motors_velocity_mode. auto 30 with keeps.
Qed.

Lemma keeps_start_motors_torque_mode : keeps_count (start_motors_torque_mode env).
Proof. unfold start_motors_torque_mode. auto 20 with keeps. Qed.

Lemma keeps_reset_and_initialize_motors (torque_mode : bool) :
  keeps_count (reset_and_initialize_motors env CFG torque_mode).
Proof.
  pose proof keeps_start_motors_velocity_mode.
  pose proof keeps_start_motors_torque_mode.
  unfold reset_and_initialize_motors, reset_odrive. auto 30 with keeps.
Qed.

(** *** The phases of [set_linear_angular_velocities] *)

Lemma bind_assoc {S A B C : Type} (c : M S A) (f : A -> M S B) (k : B -> M S C) (s : S) :
  bind (bind c f) k s = bind c (fun a => bind (f a) k) s.
Proof. unfold bind. destruct (c s) as [s' [a | e]]; reflexivity. Qed.

Lemma set_linear_angular_velocities_phases (v yaw : Q) (s : MotorControl) :
  set_linear_angular_velocities env CFG v yaw s =
  try_except
    (approach env v yaw ;;
     count <- gets cycle_count ;;
     checked <- health_check env CFG count ;;
     match checked with
     | Return => ret tt
     | Continue => drive env CFG v yaw
     end)
    (fun _ => emergency_stop env) s.
Proof.
  unfold set_linear_angular_velocities, try_except, approach.
  rewrite bind_assoc. reflexivity.
Qed.

Lemma keeps_approach (v yaw : Q) : keeps_count (approach env v yaw).
Proof. pose proof keeps_stop. unfold approach. auto 20 with keeps. Qed.

Lemma keeps_recover : keeps_count (recover env CFG).
Proof.
  pose proof keeps_emergency_stop.
  pose proof (keeps_reset_and_initialize_motors false).
  unfold recover. auto 20 with keeps.
Qed.

Lemma keeps_health_check (count : Z) : keeps_count (health_check env CFG count).
Proof.
  pose proof keeps_emergency_stop.
  pose proof (keeps_reset_and_initialize_motors false).
  pose proof keeps_recover.
  unfold health_check. auto 30 with keeps.
Qed.

(** Recovery always completes, and it ends the call. *)
Lemma recover_eq (s : MotorControl) :
  recover env CFG s =
  (exec (reset_and_initialize_motors env CFG false) (exec (emergency_stop env) s), Ok Return).
Proof.
  unfold recover.
  rewrite (bind_ok _ _ _ _ _ (returns_eq _ s tt (emergency_stop_returns s))).
  rewrite (bind_ok _ _ _ _ _
             (returns_eq _ _ tt (reset_and_initialize_motors_returns false _))).
  reflexivity.
Qed.

(** A health check that finds a fault runs recovery from the state the
    probe left, and ends the call. *)
Lemma health_check_fault (s1 : MotorControl) :
  cycle_count s1 mod 20 = 0 ->
  snd (with_mc (has_errors env) s1) <> Ok false ->
  health_check env CFG (cycle_count s1) s1 = recover env CFG (exec (fault_probe env) s1).
Proof.
  intros Hc Hf. unfold health_check, fault_probe, exec, try_except, bind.
  rewrite (proj2 (Z.eqb_eq _ _) Hc).
  destruct (with_mc (has_errors env) s1) as [s2 [[|] | e]]; cbn [fst snd] in *.
  - destruct (with_mc (dump_errors env) s2) as [s3 [[] | e]]; cbn [fst]; [| reflexivity].
    rewrite recover_eq.
    pose proof (emergency_stop_returns s3) as He.
    unfold exec. destruct (emergency_stop env s3) as [s4 r4]. cbn [fst snd] in *.
    rewrite He.
    pose proof (reset_and_initialize_motors_returns false s4) as Hr.
    destruct (reset_and_initialize_motors env CFG false s4) as [s5 r5].
    cbn [fst snd] in *. rewrite Hr. reflexivity.
  - congruence.
  - reflexivity.
Qed.

(** C4: when the call reaches the periodic health check (the cycle count
    is a multiple of 20) and the check finds a fault ([has_errors] answers
    [True] or raises), the call is exactly recovery: the emergency stop
    and the re-initialisation run from the state the probe left, the call
    returns after them, the velocities asked for play no part in what is
    done after the check, and the cycle count is left as it was. *)
Theorem health_fault_drops_command (v yaw : Q) (s s1 : MotorControl) :
  approach env v yaw s = (s1, Ok tt) ->
  cycle_count s1 mod 20 = 0 ->
  snd (with_mc (has_errors env) s1) <> Ok false ->
  let s2 := exec (fault_probe env) s1 in
  let s' := exec (reset_and_initialize_motors env CFG false)
              (exec (emergency_stop env) s2) in
  set_linear_angular_velocities env CFG v yaw s = (s', Ok tt) /\
  cycle_count s' = cycle_count s /\
  (forall v' yaw' s0,
     approach env v' yaw' s0 = (s1, Ok tt) ->
     set_linear_angular_velocities env CFG v' yaw' s0 = (s', Ok tt)).
Proof.
  intros Ha Hc Hf. cbv zeta.
  assert (Hrun : forall v' yaw' s0,
             approach env v' yaw' s0 = (s1, Ok tt) ->
             set_linear_angular_velocities env CFG v' yaw' s0 =
             (exec (reset_and_initialize_motors env CFG false)
                (exec (emergency_stop env) (exec (fault_probe env) s1)), Ok tt)).
  { intros v' yaw' s0 Ha'. rewrite set_linear_angular_velocities_phases.
    apply try_except_ok.
    rewrite (bind_ok _ _ _ _ _ Ha'). unfold bind at 1, gets at 1.
    rewrite (bind_ok _ _ _ _ _
               (eq_trans (health_check_fault s1 Hc Hf) (recover_eq _))).
    reflexivity. }
  split; [exact (Hrun v yaw s Ha) | split; [| exact Hrun]].
  unfold exec.
  rewrite (keeps_reset_and_initialize_motors false), keeps_emergency_stop.
  assert (Hp : keeps_count (fault_probe env)) by (unfold fault_probe; auto 20 with keeps).
  rewrite Hp. pose proof (keeps_approach v yaw s) as Hk. rewrite Ha in Hk. exact Hk.
Qed.

(** After recovery the cycle count is what it was. *)
Lemma keeps_recovery (s : MotorControl) :
  cycle_count (exec (reset_and_initialize_motors env CFG false)
                 (exec (emergency_stop env) s)) = cycle_count s.
Proof.
  unfold exec.
  rewrite (keeps_reset_and_initialize_motors false), keeps_emergency_stop.
  reflexivity.
Qed.

(** The last phase either leaves the cycle count alone or has written the
    two velocity commands and counted the cycle. *)
Lemma drive_cases (v yaw : Q) (s : MotorControl) :
  let wheels :=
    wheel_velocities CFG (clip v (MOTOR_CONTROL_MAX_SPEED_LINEAR_MPS CFG))
      (clip yaw (MOTOR_CONTROL_MAX_SPEED_ANGULAR_RADPS CFG)) in
  let rpm_to_mps := RPM_TO_METERS_PER_SECOND CFG in
  cycle_count (fst (drive env CFG v yaw s)) = cycle_count s \/
  exists o,
    motor_controller (fst (drive env CFG v yaw s)) = Some o /\
    snd (drive env CFG v yaw s) = Ok tt /\
    cycle_count (fst (drive env CFG v yaw s)) = cycle_count s + 1 /\
    bus (fst (drive env CFG v yaw s)) =
      bus s
      ++ sent (input_vel_command env (left_axis o)
                 (fst wheels / rpm_to_mps / 60 * dir_left o))
      ++ sent (input_vel_command env (right_axis o)
                 (snd wheels / rpm_to_mps / 60 * dir_right o)).
Proof.
  cbv zeta. destruct (drive env CFG v yaw s) as [s' r] eqn:D. cbn [fst snd].
  unfold drive, wheel_velocities in D. cbv zeta in D. cbn [fst snd].
  unfold py_div in D.
  destruct (Qeq_bool (RPM_TO_METERS_PER_SECOND CFG) 0).
  { left. inversion D. reflexivity. }
  unfold bind at 1, ret at 1 in D. unfold bind at 1, ret at 1 in D.
  unfold wheel_velocities. cbn [fst snd].
  match type of D with
  | context [with_mc (fun o => set_speed_rpm_left env o ?l)] => set (lrpm := l) in *
  end.
  match type of D with
  | context [with_mc (fun o => set_speed_rpm_right env o ?r)] => set (rrpm := r) in *
  end.
  unfold bind at 1, try_except in D.
  destruct (motor_controller s) as [o |] eqn:Ho.
  2:{ left. unfold bind at 1, with_mc at 1 in D. rewrite Ho in D.
      rewrite recover_eq in D. inversion D.
      rewrite keeps_recovery. reflexivity. }
  destruct (with_mc_write (fun o => set_speed_rpm_left env o lrpm)
              (input_vel_command env (left_axis o) (lrpm / 60 * dir_left o))
              s o Ho eq_refl eq_refl)
    as [[W1 _] | [[W1 _] | [W1 _]]].
  { left. rewrite (bind_raise _ _ _ _ _ W1), recover_eq in D. inversion D.
    rewrite keeps_recovery. reflexivity. }
  { left. rewrite (bind_raise _ _ _ _ _ W1), recover_eq in D. inversion D.
    rewrite keeps_recovery. reflexivity. }
  rewrite (bind_ok _ _ _ _ _ W1) in D.
  set (s1 := set_bus _ s) in *.
  destruct (with_mc_write (fun o => set_speed_rpm_right env o rrpm)
              (input_vel_command env (right_axis o) (rrpm / 60 * dir_right o))
              s1 o Ho eq_refl eq_refl)
    as [[W2 _] | [[W2 _] | [W2 _]]].
  { left. rewrite (bind_raise _ _ _ _ _ W2), recover_eq in D. inversion D.
    rewrite keeps_recovery. reflexivity. }
  { left. rewrite (bind_raise _ _ _ _ _ W2), recover_eq in D. inversion D.
    rewrite keeps_recovery. reflexivity. }
  rewrite (bind_ok _ _ _ _ _ W2) in D.
  right. exists o. inversion D.
  cbn [motor_controller cycle_count bus set_cycle_count set_bus s1].
  repeat split; auto. rewrite <- app_assoc. reflexivity.
Qed.

(** *** What a call puts on the port *)

Lemma uint_skipped (d : Decimal.uint) (tail : string) :
  skip_int (NilEmpty.string_of_uint d ++ tail)%string = skip_int tail.
Proof.
  induction d; cbn [NilEmpty.string_of_uint String.append skip_int];
    try exact IHd; reflexivity.
Qed.

Lemma str_int_skipped (n : Z) (tail : string) :
  skip_int (str_int n ++ tail)%string = skip_int tail.
Proof.
  unfold str_int, NilZero.string_of_int, NilZero.string_of_uint.
  destruct (Z.to_int n) as [d | d].
  - destruct d; try apply uint_skipped. reflexivity.
  - cbn [String.append skip_int]. change (is_int_char "-") with true. cbv iota.
    destruct d; try apply uint_skipped. reflexivity.
Qed.

Lemma string_app_assoc (a b c : string) : ((a ++ b) ++ c = a ++ (b ++ c))%string.
Proof. induction a as [| x a IH]; cbn; [reflexivity | rewrite IH; reflexivity]. Qed.

(** A line written to an axis is a velocity setpoint exactly when what
    follows the axis number starts with [.controller.input_vel ]. *)
Lemma axis_line_setpoint (n : Z) (tail : string) :
  is_velocity_setpoint (("w axis" ++ str_int n ++ tail) ++ LF)%string =
  match after_prefix ".controller.input_vel " (skip_int (tail ++ LF)%string) with
  | Some _ => true
  | None => false
  end.
Proof.
  rewrite string_app_assoc. unfold is_velocity_setpoint.
  cbn [String.append after_prefix Ascii.eqb Bool.eqb].
  rewrite string_app_assoc, str_int_skipped. reflexivity.
Qed.

(** Every velocity command is recognised as a setpoint. *)
Lemma input_vel_command_is_setpoint (axis : Z) (x : Q) :
  is_velocity_setpoint (input_vel_command env axis x ++ LF)%string = true.
Proof. unfold input_vel_command. rewrite axis_line_setpoint. reflexivity. Qed.

Section SetpointsSent.

Variable s0 : MotorControl.
Variables v yaw : Q.
Hypothesis max_linear_nonneg : (0 <= MOTOR_CONTROL_MAX_SPEED_LINEAR_MPS CFG)%Q.
Hypothesis max_angular_nonneg : (0 <= MOTOR_CONTROL_MAX_SPEED_ANGULAR_RADPS CFG)%Q.
Hypothesis track_nonneg : (0 <= ROBOT_WHEEL_DIST_M CFG)%Q.

Local Abbreviation P := (bounded_setpoint env CFG s0 v yaw).
Local Abbreviation Inv := (same_drivetrain CFG s0).
Local Abbreviation goes := (continues CFG P s0).

Lemma grows_refl (b : Bus) : grows P b b.
Proof. exists []. split; [symmetry; apply app_nil_r | constructor]. Qed.

Lemma grows_trans (b1 b2 b3 : Bus) : grows P b1 b2 -> grows P b2 b3 -> grows P b1 b3.
Proof.
  intros [a1 [E1 F1]] [a2 [E2 F2]]. exists (a1 ++ a2). split.
  - rewrite E2, E1, app_assoc. reflexivity.
  - apply Forall_app. auto.
Qed.

Lemma emits_ret {A : Type} (a : A) : emits P (ret a).
Proof. intros log. apply grows_refl. Qed.

Lemma emits_raise {A : Type} (e : exn) : emits P (@raise _ A e).
Proof. intros log. apply grows_refl. Qed.

Lemma emits_bind {A B : Type} (c : M Bus A) (k : A -> M Bus B) :
  emits P c -> (forall a, emits P (k a)) -> emits P (bind c k).
Proof.
  intros Hc Hk log. unfold bind. specialize (Hc log).
  destruct (c log) as [log1 [a | e]]; cbn [fst] in *.
  - exact (grows_trans _ _ _ Hc (Hk a log1)).
  - exact Hc.
Qed.

Lemma emits_try {A : Type} (c : M Bus A) (h : exn -> M Bus A) :
  emits P c -> (forall e, emits P (h e)) -> emits P (try_except c h).
Proof.
  intros Hc Hh log. unfold try_except. specialize (Hc log).
  destruct (c log) as [log1 [a | e]]; cbn [fst] in *.
  - exact Hc.
  - exact (grows_trans _ _ _ Hc (Hh e log1)).
Qed.

Lemma emits_try_ValueError {A : Type} (c h : M Bus A) :
  emits P c -> emits P h -> emits P (try_except_ValueError c h).
Proof.
  intros Hc Hh. unfold try_except_ValueError. apply emits_try; [exact Hc |].
  intros e. destruct (is_ValueError e); [exact Hh | apply emits_raise].
Qed.

Lemma emits_join_digits (r : option string) : emits P (join_digits r).
Proof. destruct r; [apply emits_ret | apply emits_raise]. Qed.

Lemma emits_py_int (t : string) : emits P (py_int t).
Proof.
  unfold py_int. destruct t; [apply emits_raise |].
  destruct (forall_str isdigit _); [apply emits_ret | apply emits_raise].
Qed.

Lemma emits_bus_op (e : event) : P e -> emits P (bus_op env e).
Proof.
  intros He log. exists [e]. split; [reflexivity | repeat constructor; exact He].
Qed.

(** [send_command] adds the flush, the line and, for a query, the read. *)
Lemma emits_send (command : string) :
  P (EvWrite (command ++ LF)%string) -> emits P (send_command env command).
Proof.
  intros Hw log. rewrite send_command_eq.
  assert (F1 : Forall P [EvResetInput]) by (repeat constructor).
  assert (F2 : Forall P (sent command)) by (repeat constructor; exact Hw).
  assert (F3 : Forall P (exchanged command)) by (repeat constructor; exact Hw).
  destruct (io_raises env (log ++ [EvResetInput])); [exists [EvResetInput]; auto |].
  destruct (io_raises env (log ++ sent command)); [exists (sent command); auto |].
  destruct (is_query command); [| exists (sent command); auto].
  destruct (io_raises env (log ++ exchanged command)); [exists (exchanged command); auto |].
  destruct (is_ascii _); exists (exchanged command); auto.
Qed.

(** A line that is not a velocity setpoint is not constrained. *)
Lemma other_line (command : string) :
  is_velocity_setpoint (command ++ LF)%string = false ->
  P (EvWrite (command ++ LF)%string).
Proof. intros H. cbn. rewrite H. discriminate. Qed.

Ltac not_a_setpoint :=
  apply other_line; first [reflexivity | rewrite axis_line_setpoint; reflexivity].

Ltac port_walk :=
  repeat lazymatch goal with
    | |- emits _ (ret _) => apply emits_ret
    | |- emits _ (raise _) => apply emits_raise
    | |- emits _ (join_digits _) => apply emits_join_digits
    | |- emits _ (py_int _) => apply emits_py_int
    | |- emits _ (send_command _ _) => apply emits_send; not_a_setpoint
    | |- emits _ (try_except_ValueError _ _) => apply emits_try_ValueError
    | |- emits _ (bind _ _) => apply emits_bind; [| intros ?]
    end.

Lemma emits_clear_errors (o : ODriveUART) (axis : Z) : emits P (clear_errors env o axis).
Proof. unfold clear_errors. port_walk. Qed.

Lemma emits_set_idle (o : ODriveUART) (axis : Z) : emits P (set_idle env o axis).
Proof. unfold set_idle. port_walk. Qed.

Lemma emits_start (o : ODriveUART) (axis : Z) : emits P (start env o axis).
Proof. unfold start. port_walk. Qed.

Lemma emits_enable_velocity_mode (o : ODriveUART) (axis : Z) :
  emits P (enable_velocity_mode env o axis).
Proof. unfold enable_velocity_mode. port_walk. Qed.

Lemma emits_disable_velocity_ramping (o : ODriveUART) (axis : Z) :
  emits P (disable_velocity_ramping env o axis).
Proof. unfold disable_velocity_ramping. port_walk. Qed.

Lemma emits_set_current_limit (o : ODriveUART) (axis : Z) (x : Q) :
  emits P (set_current_limit env o axis x).
Proof. unfold set_current_limit. port_walk. Qed.

Lemma emits_get_velocity_ramp (o : ODriveUART) (axis : Z) :
  emits P (get_velocity_ramp env o axis).
Proof. unfold get_velocity_ramp. port_walk. destruct a; port_walk. Qed.

Lemma emits_has_errors_loop (axes : list Z) : emits P (has_errors_loop env axes).
Proof.
  induction axes as [| axis rest IH]; cbn [has_errors_loop]; port_walk.
  destruct a0 as [code |]; [| port_walk].
  destruct (negb (code =? 0)); [port_walk | exact IH].
Qed.

Lemma emits_dump_errors_loop (sources : list string) :
  emits P (dump_errors_loop env sources).
Proof.
  induction sources as [| src rest IH]; cbn [dump_errors_loop]; port_walk. exact IH.
Qed.

Lemma emits_init (port : string) (la ra : Z) (dl dr : Q) :
  emits P (ODriveUART_init env port la ra dl dr).
Proof.
  unfold ODriveUART_init.
  repeat first [apply emits_ret | apply emits_bus_op; exact I
               | apply emits_bind; [| intros ?]].
Qed.

(** The zero setpoints and the wheel setpoints, through a controller of
    the call. *)
Lemma emits_zero_left (o : ODriveUART) :
  call_controller CFG s0 o -> emits P (set_speed_rpm_left env o 0).
Proof.
  intros Ho. unfold set_speed_rpm_left, set_speed_rpm. cbv zeta.
  apply emits_bind; [| intros ?; apply emits_ret].
  apply emits_send. intros _. exists o. split; [exact Ho | left; reflexivity].
Qed.

Lemma emits_zero_right (o : ODriveUART) :
  call_controller CFG s0 o -> emits P (set_speed_rpm_right env o 0).
Proof.
  intros Ho. unfold set_speed_rpm_right, set_speed_rpm. cbv zeta.
  apply emits_bind; [| intros ?; apply emits_ret].
  apply emits_send. intros _. exists o. split; [exact Ho | right; left; reflexivity].
Qed.

Lemma emits_wheel_left (o : ODriveUART) :
  call_controller CFG s0 o ->
  emits P (set_speed_rpm_left env o
             (fst (wheel_velocities CFG
                     (clip v (MOTOR_CONTROL_MAX_SPEED_LINEAR_MPS CFG))
                     (clip yaw (MOTOR_CONTROL_MAX_SPEED_ANGULAR_RADPS CFG)))
              / RPM_TO_METERS_PER_SECOND CFG)).
Proof.
  intros Ho. unfold set_speed_rpm_left, set_speed_rpm. cbv zeta.
  apply emits_bind; [| intros ?; apply emits_ret].
  apply emits_send. intros _. exists o. split; [exact Ho |].
  right; right; left. split; [reflexivity |].
  exact (proj1 (wheel_velocities_bound CFG v yaw max_linear_nonneg max_angular_nonneg
                  track_nonneg)).
Qed.

Lemma emits_wheel_right (o : ODriveUART) :
  call_controller CFG s0 o ->
  emits P (set_speed_rpm_right env o
             (snd (wheel_velocities CFG
                     (clip v (MOTOR_CONTROL_MAX_SPEED_LINEAR_MPS CFG))
                     (clip yaw (MOTOR_CONTROL_MAX_SPEED_ANGULAR_RADPS CFG)))
              / RPM_TO_METERS_PER_SECOND CFG)).
Proof.
  intros Ho. unfold set_speed_rpm_right, set_speed_rpm. cbv zeta.
  apply emits_bind; [| intros ?; apply emits_ret].
  apply emits_send. intros _. exists o. split; [exact Ho |].
  right; right; right. split; [reflexivity |].
  exact (proj2 (wheel_velocities_bound CFG v yaw max_linear_nonneg max_angular_nonneg
                  track_nonneg)).
Qed.

(** The facade. *)

Lemma goes_ret {A : Type} (a : A) (s : MotorControl) : goes (ret a) s.
Proof. intros H. split; [exact H | apply grows_refl]. Qed.

Lemma goes_raise {A : Type} (e : exn) (s : MotorControl) : goes (@raise _ A e) s.
Proof. intros H. split; [exact H | apply grows_refl]. Qed.

Lemma goes_gets {A : Type} (f : MotorControl -> A) (s : MotorControl) : goes (gets f) s.
Proof. intros H. split; [exact H | apply grows_refl]. Qed.

Lemma goes_bind {A B : Type} (c : M MotorControl A) (k : A -> M MotorControl B)
    (s : MotorControl) :
  goes c s ->
  (forall a, Inv s -> snd (c s) = Ok a -> goes (k a) (fst (c s))) ->
  goes (bind c k) s.
Proof.
  intros Hc Hk H. destruct (Hc H) as [I1 G1].
  pose proof (fun a => Hk a H) as Hk'. clear Hk.
  unfold bind. destruct (c s) as [s1 [a | e]]; cbn [fst snd] in *.
  - destruct (Hk' a eq_refl I1) as [I2 G2].
    split; [exact I2 | exact (grows_trans _ _ _ G1 G2)].
  - split; assumption.
Qed.

Lemma goes_try {A : Type} (c : M MotorControl A) (h : exn -> M MotorControl A)
    (s : MotorControl) :
  goes c s -> (forall e, goes (h e) (fst (c s))) -> goes (try_except c h) s.
Proof.
  intros Hc Hh H. destruct (Hc H) as [I1 G1].
  unfold try_except. destruct (c s) as [s1 [a | e]]; cbn [fst snd] in *.
  - split; assumption.
  - destruct (Hh e I1) as [I2 G2].
    split; [exact I2 | exact (grows_trans _ _ _ G1 G2)].
Qed.

Lemma goes_lift_bus {A : Type} (c : M Bus A) (s : MotorControl) :
  emits P c -> goes (lift_bus c) s.
Proof.
  intros Hc H. unfold lift_bus. specialize (Hc (bus s)).
  destruct (c (bus s)) as [b r]. cbn [fst] in *. split; [exact H | exact Hc].
Qed.

Lemma goes_with_mc {A : Type} (f : ODriveUART -> M Bus A) (s : MotorControl) :
  (forall o, call_controller CFG s0 o -> emits P (f o)) -> goes (with_mc f) s.
Proof.
  intros Hf H. unfold with_mc.
  destruct (motor_controller s) as [o |] eqn:Ho.
  - apply goes_lift_bus; [| exact H]. apply Hf.
    destruct H as [[Hm | Hm] _]; rewrite Ho in Hm.
    + left. symmetry. exact Hm.
    + right. congruence.
  - split; [exact H | apply grows_refl].
Qed.

Lemma goes_set_is_idle (b : bool) (s : MotorControl) : goes (modify (set_is_idle b)) s.
Proof. intros H. split; [exact H | apply grows_refl]. Qed.

Lemma goes_count (s : MotorControl) :
  goes (modify (fun s => set_cycle_count (cycle_count s + 1) s)) s.
Proof. intros H. split; [exact H | apply grows_refl]. Qed.

Ltac facade_walk :=
  repeat lazymatch goal with
    | |- continues _ _ _ (ret _) _ => apply goes_ret
    | |- continues _ _ _ (raise _) _ => apply goes_raise
    | |- continues _ _ _ (gets _) _ => apply goes_gets
    | |- continues _ _ _ (modify (set_is_idle _)) _ => apply goes_set_is_idle
    | |- continues _ _ _ (modify _) _ => apply goes_count
    | |- continues _ _ _ (with_mc _) _ => apply goes_with_mc; intros ? ?
    | |- continues _ _ _ (try_except _ _) _ => apply goes_try; [| intros ?]
    | |- continues _ _ _ (bind _ _) _ => apply goes_bind; [| intros ? _ _]
    end.

Ltac port_known :=
  lazymatch goal with
  | |- emits _ (set_speed_rpm_left _ _ 0) => apply emits_zero_left; assumption
  | |- emits _ (set_speed_rpm_right _ _ 0) => apply emits_zero_right; assumption
  | |- emits _ (set_idle_left _ _) => apply emits_set_idle
  | |- emits _ (set_idle_right _ _) => apply emits_set_idle
  | |- emits _ (clear_errors_left _ _) => apply emits_clear_errors
  | |- emits _ (clear_errors_right _ _) => apply emits_clear_errors
  | |- emits _ (start _ _ _) => apply emits_start
  | |- emits _ (enable_velocity_mode _ _ _) => apply emits_enable_velocity_mode
  | |- emits _ (disable_velocity_ramping _ _ _) => apply emits_disable_velocity_ramping
  | |- emits _ (set_current_limit _ _ _ _) => apply emits_set_current_limit
  | |- emits _ (get_velocity_ramp _ _ _) => apply emits_get_velocity_ramp
  | |- emits _ (has_errors _ _) => apply emits_has_errors_loop
  | |- emits _ (dump_errors _ _) => apply emits_dump_errors_loop
  | |- emits _ _ => port_walk
  end.

Lemma goes_stop (s : MotorControl) : goes (stop env) s.
Proof. unfold stop. facade_walk; port_known. Qed.

Lemma goes_emergency_stop (s : MotorControl) : goes (emergency_stop env) s.
Proof.
  intros H. rewrite (emergency_stop_is_stop s). exact (goes_stop s H).
Qed.

Lemma goes_dump_motor_config_loop (axes : list Z) (s : MotorControl) :
  goes (dump_motor_config_loop env axes) s.
Proof.
  revert s. induction axes as [| axis rest IH]; intros s; cbn [dump_motor_config_loop];
    facade_walk; try apply IH; port_known.
Qed.

Lemma goes_dump_motor_config (s : MotorControl) : goes (dump_motor_config env) s.
Proof.
  unfold dump_motor_config. facade_walk;
    [port_known | apply goes_dump_motor_config_loop].
Qed.

Lemma goes_start_motors_velocity_mode (s : MotorControl) :
  goes (start_motors_velocity_mode env) s.
Proof.
  unfold start_motors_velocity_mode, start_left, start_right,
    enable_velocity_mode_left, enable_velocity_mode_right,
    disable_velocity_ramping_left, disable_velocity_ramping_right.
  facade_walk; try apply goes_dump_motor_config; port_known.
Qed.

Lemma goes_start_motors_torque_mode (s : MotorControl) :
  goes (start_motors_torque_mode env) s.
Proof.
  unfold start_motors_torque_mode, start_left, start_right,
    enable_torque_mode_left, enable_torque_mode_right, enable_torque_mode.
  facade_walk; port_known.
Qed.

(** The constructor returns the object it was asked for. *)
Lemma ODriveUART_init_builds (port : string) (la ra : Z) (dl dr : Q) (log : Bus)
    (o : ODriveUART) :
  snd (ODriveUART_init env port la ra dl dr log) = Ok o ->
  o = {| left_axis := la; right_axis := ra; dir_left := dl; dir_right := dr |}.
Proof.
  unfold ODriveUART_init, bind, bus_op, ret.
  destruct (io_raises env _); [discriminate |].
  destruct (io_raises env _); [discriminate |].
  destruct (io_raises env _); [discriminate |].
  cbn. congruence.
Qed.

Lemma goes_reset (torque_mode : bool) (s : MotorControl) :
  goes (reset_and_initialize_motors env CFG torque_mode) s.
Proof.
  unfold reset_and_initialize_motors, reset_odrive.
  apply goes_bind; [apply goes_ret | intros [] _ _]. cbn [fst ret].
  apply goes_try; [| intros ?; apply goes_ret].
  apply goes_bind; [apply goes_gets | intros dl Hs Hdl]. cbn in Hdl. cbn [fst gets].
  apply goes_bind; [apply goes_gets | intros dr _ Hdr]. cbn in Hdr. cbn [fst gets].
  apply goes_bind; [apply goes_lift_bus, emits_init | intros o _ Ho].
  assert (Eo : o = configured_odrive CFG s0).
  { unfold lift_bus in Ho.
    destruct (ODriveUART_init env _ _ _ dl dr (bus s)) as [b r] eqn:E. cbn [snd] in Ho.
    subst r. pose proof (ODriveUART_init_builds _ _ _ _ _ _ o (f_equal snd E)) as Eo.
    rewrite Eo. unfold configured_odrive. destruct Hs as (_ & Hl & Hr).
    congruence. }
  apply goes_bind.
  { intros H. split; [| apply grows_refl].
    destruct H as (_ & Hl & Hr). split; [right; cbn; congruence | split; assumption]. }
  intros [] _ _.
  apply goes_bind; [apply goes_with_mc; intros ? ?; port_known | intros ? _ _].
  apply goes_bind; [apply goes_with_mc; intros ? ?; port_known | intros ? _ _].
  destruct torque_mode;
    [apply goes_start_motors_torque_mode | apply goes_start_motors_velocity_mode].
Qed.

Lemma goes_recover (s : MotorControl) : goes (recover env CFG) s.
Proof.
  unfold recover.
  apply goes_bind; [apply goes_emergency_stop | intros ? _ _].
  apply goes_bind; [apply goes_reset | intros ? _ _]. apply goes_ret.
Qed.

Lemma goes_approach (s : MotorControl) : goes (approach env v yaw) s.
Proof.
  unfold approach.
  apply goes_bind.
  { destruct (_ && _); [apply goes_stop | apply goes_ret]. }
  intros ? _ _. apply goes_bind; [apply goes_gets | intros idle _ _].
  destruct idle; facade_walk; port_known.
Qed.

Lemma goes_health_check (count : Z) (s : MotorControl) :
  goes (health_check env CFG count) s.
Proof.
  unfold health_check. destruct (count mod 20 =? 0); [| apply goes_ret].
  apply goes_try; [| intros ?; apply goes_recover].
  apply goes_bind; [apply goes_with_mc; intros ? ?; port_known |].
  intros faulty _ _. destruct faulty; [| apply goes_ret].
  apply goes_bind; [apply goes_with_mc; intros ? ?; port_known |].
  intros ? _ _.
  apply goes_bind; [apply goes_emergency_stop | intros ? _ _].
  apply goes_bind; [apply goes_reset | intros ? _ _]. apply goes_ret.
Qed.

Lemma goes_drive (s : MotorControl) : goes (drive env CFG v yaw) s.
Proof.
  unfold drive. cbv zeta.
  destruct (wheel_velocities CFG _ _) as [l r] eqn:W.
  assert (El : l = fst (wheel_velocities CFG
                          (clip v (MOTOR_CONTROL_MAX_SPEED_LINEAR_MPS CFG))
                          (clip yaw (MOTOR_CONTROL_MAX_SPEED_ANGULAR_RADPS CFG))))
    by (rewrite W; reflexivity).
  assert (Er : r = snd (wheel_velocities CFG
                          (clip v (MOTOR_CONTROL_MAX_SPEED_LINEAR_MPS CFG))
                          (clip yaw (MOTOR_CONTROL_MAX_SPEED_ANGULAR_RADPS CFG))))
    by (rewrite W; reflexivity).
  unfold py_div. destruct (Qeq_bool (RPM_TO_METERS_PER_SECOND CFG) 0).
  { intros H. split; [exact H | apply grows_refl]. }
  apply goes_bind; [apply goes_ret | intros lrpm _ Hl]. cbn in Hl. cbn [fst ret].
  apply goes_bind; [apply goes_ret | intros rrpm _ Hr]. cbn in Hr. cbn [fst ret].
  injection Hl as <-. injection Hr as <-. subst l r.
  apply goes_bind.
  - apply goes_try; [| intros ?; apply goes_recover].
    apply goes_bind; [apply goes_with_mc; intros o Ho; apply emits_wheel_left, Ho |].
    intros ? _ _.
    apply goes_bind; [apply goes_with_mc; intros o Ho; apply emits_wheel_right, Ho |].
    intros ? _ _. apply goes_ret.
  - intros [|] _ _; [apply goes_count | apply goes_ret].
Qed.

(** The whole call. *)
Lemma goes_set_linear_angular_velocities (s : MotorControl) :
  goes (set_linear_angular_velocities env CFG v yaw) s.
Proof.
  intros H. rewrite (set_linear_angular_velocities_phases v yaw s). revert H.
  apply goes_try; [| intros ?; apply goes_emergency_stop].
  apply goes_bind; [apply goes_approach | intros ? _ _].
  apply goes_bind; [apply goes_gets | intros count _ _].
  apply goes_bind; [apply goes_health_check | intros checked _ _].
  destruct checked; [apply goes_drive | apply goes_ret].
Qed.

End SetpointsSent.

Lemma same_drivetrain_refl (s : MotorControl) : same_drivetrain CFG s s.
Proof. split; [left; reflexivity | split; reflexivity]. Qed.

(** A call that counts its cycle has ended by writing the two wheel
    setpoints. *)
Lemma completed_call (v yaw : Q) (s : MotorControl) :
  let wheels :=
    wheel_velocities CFG (clip v (MOTOR_CONTROL_MAX_SPEED_LINEAR_MPS CFG))
      (clip yaw (MOTOR_CONTROL_MAX_SPEED_ANGULAR_RADPS CFG)) in
  let rpm_to_mps := RPM_TO_METERS_PER_SECOND CFG in
  let s' := exec (set_linear_angular_velocities env CFG v yaw) s in
  cycle_count s' = cycle_count s + 1 ->
  exists o before,
    motor_controller s' = Some o /\
    bus s' =
      (bus s ++ before)
      ++ sent (input_vel_command env (left_axis o)
                 (fst wheels / rpm_to_mps / 60 * dir_left o))
      ++ sent (input_vel_command env (right_axis o)
                 (snd wheels / rpm_to_mps / 60 * dir_right o)).
Proof.
  cbv zeta. unfold exec.
  destruct (set_linear_angular_velocities env CFG v yaw s) as [s' r] eqn:E.
  cbn [fst]. rewrite set_linear_angular_velocities_phases in E.
  unfold try_except in E.
  pose proof (keeps_approach v yaw s) as K1.
  pose proof (goes_approach s v yaw s (same_drivetrain_refl s)) as [I1 G1].
  unfold bind at 1 in E. destruct (approach env v yaw s) as [s1 [[] | e1]]; cbn [fst] in *.
  2:{ pose proof (keeps_emergency_stop s1) as K. rewrite E in K. cbn [fst] in K.
      intros H. exfalso. lia. }
  unfold bind at 1, gets at 1 in E.
  pose proof (keeps_health_check (cycle_count s1) s1) as K2.
  pose proof (goes_health_check s v yaw (cycle_count s1) s1 I1) as [I2 G2].
  unfold bind at 1 in E.
  destruct (health_check env CFG (cycle_count s1) s1) as [s2 [[|] | e2]]; cbn [fst] in *.
  - pose proof (drive_cases v yaw s2) as D. cbv zeta in D.
    destruct (drive env CFG v yaw s2) as [s3 [[] | e3]]; cbn [fst snd] in *.
    + inversion E; subst s3.
      destruct D as [D | [o [Ho [_ [_ Hb]]]]]; [intros H; exfalso; lia |].
      intros _. destruct G1 as [a1 [E1 _]], G2 as [a2 [E2 _]].
      exists o, (a1 ++ a2). split; [exact Ho |].
      rewrite Hb, E2, E1, <- !app_assoc. reflexivity.
    + destruct D as [D | [o [_ [D _]]]]; [| discriminate].
      pose proof (keeps_emergency_stop s3) as K. rewrite E in K. cbn [fst] in K.
      intros H. exfalso. lia.
  - inversion E; subst s'. intros H. exfalso. lia.
  - pose proof (keeps_emergency_stop s2) as K. rewrite E in K. cbn [fst] in K.
    intros H. exfalso. lia.
Qed.

(** C5: the wheel velocities computed from any inputs are the wheel
    decomposition of the clipped inputs and are bounded by
    [max_linear + track * max_angular / 2] in absolute value.  Whatever the
    state and the hardware, a call only adds to the port, and every
    velocity setpoint it adds is the zero setpoint of an axis (written by
    the stops) or the setpoint of one of these two bounded wheel
    velocities, converted to turns per second and signed by the direction
    of its axis; and a call that completes (it counts its cycle) has ended
    by writing exactly these two, to the left and then the right axis. *)
Theorem commanded_wheel_velocities_bounded (v yaw : Q) :
  let max_linear := MOTOR_CONTROL_MAX_SPEED_LINEAR_MPS CFG in
  let max_angular := MOTOR_CONTROL_MAX_SPEED_ANGULAR_RADPS CFG in
  let track := ROBOT_WHEEL_DIST_M CFG in
  let rpm_to_mps := RPM_TO_METERS_PER_SECOND CFG in
  let wheels := wheel_velocities CFG (clip v max_linear) (clip yaw max_angular) in
  (0 <= max_linear)%Q -> (0 <= max_angular)%Q -> (0 <= track)%Q ->
  wheels = bodyToWheel (clip v max_linear) (clip yaw max_angular) track /\
  (Qabs (fst wheels) <= max_linear + track * max_angular / 2)%Q /\
  (Qabs (snd wheels) <= max_linear + track * max_angular / 2)%Q /\
  forall s,
    let s' := exec (set_linear_angular_velocities env CFG v yaw) s in
    exists added,
      bus s' = bus s ++ added /\
      Forall (bounded_setpoint env CFG s v yaw) added /\
      (cycle_count s' = cycle_count s + 1 ->
       exists o before,
         motor_controller s' = Some o /\
         added =
           before
           ++ sent (input_vel_command env (left_axis o)
                      (fst wheels / rpm_to_mps / 60 * dir_left o))
           ++ sent (input_vel_command env (right_axis o)
                      (snd wheels / rpm_to_mps / 60 * dir_right o))).
Proof.
  cbv zeta. intros Hl Ha Ht.
  destruct (wheel_velocities_bound CFG v yaw Hl Ha Ht) as [B1 B2].
  split; [reflexivity | split; [exact B1 | split; [exact B2 |]]].
  intros s.
  destruct (goes_set_linear_angular_velocities s v yaw Hl Ha Ht s (same_drivetrain_refl s))
    as [_ [added [E F]]].
  exists added. split; [exact E | split; [exact F |]].
  intros Hc. destruct (completed_call v yaw s Hc) as [o [before [Ho Hb]]].
  exists o, before. split; [exact Ho |].
  unfold exec in *. rewrite E, <- app_assoc in Hb.
  exact (app_inv_head _ _ _ Hb).
Qed.

(** The call never raises: whatever happens inside is caught. *)
Lemma set_linear_angular_velocities_returns (v yaw : Q) (s : MotorControl) :
  snd (set_linear_angular_velocities env CFG v yaw s) = Ok tt.
Proof.
  rewrite set_linear_angular_velocities_phases. unfold try_except.
  destruct (bind _ _ s) as [s' [[] | e]]; [reflexivity |].
  apply emergency_stop_returns.
Qed.

(** *** On a port that accepts every operation *)

Section QuietPort.

Hypothesis quiet : forall l, io_raises env l = false.

Lemma send_command_quiet (command : string) (log : Bus) :
  is_query command = false ->
  send_command env command log = (log ++ sent command, Ok None).
Proof. intros Hq. apply send_command_write; auto. Qed.

Lemma with_mc_quiet (f : ODriveUART -> M Bus unit) (command : string)
    (s : MotorControl) (o : ODriveUART) :
  motor_controller s = Some o ->
  f o = (send_command env command ;; ret tt) ->
  is_query command = false ->
  with_mc f s = (set_bus (bus s ++ sent command) s, Ok tt).
Proof.
  intros Ho Hf Hq.
  destruct (with_mc_write f command s o Ho Hf Hq) as [[_ R] | [[_ [_ R]] | [W _]]];
    [rewrite quiet in R; discriminate | rewrite quiet in R; discriminate | exact W].
Qed.

Lemma stop_quiet (s : MotorControl) (o : ODriveUART) :
  motor_controller s = Some o ->
  stop env s = (set_is_idle true (set_bus (bus s ++ stop_events env o) s), Ok tt).
Proof.
  intros Ho. unfold stop. apply try_except_ok.
  set (c1 := input_vel_command env (left_axis o) (0 / 60 * dir_left o)).
  set (c2 := input_vel_command env (right_axis o) (0 / 60 * dir_right o)).
  set (c3 := idle_command (left_axis o)).
  set (c4 := idle_command (right_axis o)).
  set (s1 := set_bus (bus s ++ sent c1) s).
  set (s2 := set_bus (bus s1 ++ sent c2) s1).
  set (s3 := set_bus (bus s2 ++ sent c3) s2).
  rewrite (bind_ok _ _ _ _ _
             (with_mc_quiet (fun o => set_speed_rpm_left env o 0) c1 s o Ho
                eq_refl eq_refl)).
  rewrite (bind_ok _ _ _ _ _
             (with_mc_quiet (fun o => set_speed_rpm_right env o 0) c2 s1 o Ho
                eq_refl eq_refl)).
  rewrite (bind_ok _ _ _ _ _
             (with_mc_quiet (set_idle_left env) c3 s2 o Ho eq_refl eq_refl)).
  rewrite (bind_ok _ _ _ _ _
             (with_mc_quiet (set_idle_right env) c4 s3 o Ho eq_refl eq_refl)).
  unfold modify, set_is_idle, set_bus, stop_events. cbn [bus is_idle left_motor_dir
    right_motor_dir motor_controller cycle_count s1 s2 s3 set_bus].
  rewrite <- !app_assoc. reflexivity.
Qed.

Lemma clear_errors_quiet (axis_of : ODriveUART -> Z) (s : MotorControl) (o : ODriveUART) :
  motor_controller s = Some o ->
  with_mc (fun o => clear_errors env o (axis_of o)) s =
  (set_bus (bus s ++ rearm_events (axis_of o)) s, Ok tt).
Proof.
  intros Ho. unfold with_mc, lift_bus. rewrite Ho. unfold clear_errors, bind.
  rewrite send_command_quiet by reflexivity.
  rewrite send_command_quiet by reflexivity.
  unfold ret, rearm_events, clear_error_command, closed_loop_command.
  rewrite <- app_assoc. reflexivity.
Qed.

(** C1, what the code does on the zero command.  On a port that accepts
    every operation, with a controller attached, between two health
    checks and with a non-zero conversion constant: after [stop] has
    written zero velocity and idled both axes, the same call clears the
    errors of both axes and requests closed-loop control of both again,
    forgets the idle state, writes two more velocity commands and counts
    the cycle. *)
Theorem zero_command_rearms_and_drives (s : MotorControl) (o : ODriveUART) :
  motor_controller s = Some o ->
  cycle_count s mod 20 <> 0 ->
  Qeq_bool (RPM_TO_METERS_PER_SECOND CFG) 0 = false ->
  let wheels :=
    wheel_velocities CFG (clip 0 (MOTOR_CONTROL_MAX_SPEED_LINEAR_MPS CFG))
      (clip 0 (MOTOR_CONTROL_MAX_SPEED_ANGULAR_RADPS CFG)) in
  let rpm_to_mps := RPM_TO_METERS_PER_SECOND CFG in
  let s' := exec (set_linear_angular_velocities env CFG 0 0) s in
  is_idle s' = false /\
  cycle_count s' = cycle_count s + 1 /\
  bus s' =
    bus s
    ++ stop_events env o
    ++ rearm_events (left_axis o)
    ++ rearm_events (right_axis o)
    ++ sent (input_vel_command env (left_axis o)
               (fst wheels / rpm_to_mps / 60 * dir_left o))
    ++ sent (input_vel_command env (right_axis o)
               (snd wheels / rpm_to_mps / 60 * dir_right o)).
Proof.
  intros Ho Hc Hk. cbv zeta. unfold exec.
  rewrite set_linear_angular_velocities_phases.
  assert (Happroach :
            approach env 0 0 s =
            (set_is_idle false
               (set_bus (bus s ++ stop_events env o ++ rearm_events (left_axis o)
                         ++ rearm_events (right_axis o)) s), Ok tt)).
  { unfold approach. change (Qeq_bool 0 0 && Qeq_bool 0 0) with true. cbv iota.
    rewrite (bind_ok _ _ _ _ _ (stop_quiet s o Ho)).
    unfold bind at 1, gets at 1. cbn [is_idle set_is_idle].
    set (sa := set_is_idle true _).
    set (sb := set_bus (bus sa ++ rearm_events (left_axis o)) sa).
    rewrite (bind_ok _ _ _ _ _ (clear_errors_quiet left_axis sa o Ho)).
    rewrite (bind_ok _ _ _ _ _ (clear_errors_quiet right_axis sb o Ho)).
    unfold modify, sb, sa, set_is_idle, set_bus. cbn [bus is_idle left_motor_dir
      right_motor_dir motor_controller cycle_count].
    rewrite <- ?app_assoc. reflexivity. }
  set (s1 := set_is_idle false _) in Happroach.
  assert (Ho1 : motor_controller s1 = Some o) by exact Ho.
  assert (Hdrive :
            drive env CFG 0 0 s1 =
            (set_cycle_count (cycle_count s + 1)
               (set_bus (bus s1
                         ++ sent (input_vel_command env (left_axis o)
                                    (fst (wheel_velocities CFG
                                            (clip 0 (MOTOR_CONTROL_MAX_SPEED_LINEAR_MPS CFG))
                                            (clip 0 (MOTOR_CONTROL_MAX_SPEED_ANGULAR_RADPS CFG)))
                                     / RPM_TO_METERS_PER_SECOND CFG / 60 * dir_left o))
                         ++ sent (input_vel_command env (right_axis o)
                                    (snd (wheel_velocities CFG
                                            (clip 0 (MOTOR_CONTROL_MAX_SPEED_LINEAR_MPS CFG))
                                            (clip 0 (MOTOR_CONTROL_MAX_SPEED_ANGULAR_RADPS CFG)))
                                     / RPM_TO_METERS_PER_SECOND CFG / 60 * dir_right o)))
                  s1), Ok tt)).
  { unfold drive, wheel_velocities. cbv zeta. cbn [fst snd]. unfold py_div.
    rewrite Hk. unfold bind at 1, ret at 1. unfold bind at 1, ret at 1.
    match goal with
    | |- context [with_mc (fun o => set_speed_rpm_left env o ?l)] => set (lrpm := l)
    end.
    match goal with
    | |- context [with_mc (fun o => set_speed_rpm_right env o ?r)] => set (rrpm := r)
    end.
    unfold bind at 1.
    rewrite (try_except_ok _ _ s1
               (set_bus ((bus s1 ++ sent (input_vel_command env (left_axis o)
                                            (lrpm / 60 * dir_left o)))
                         ++ sent (input_vel_command env (right_axis o)
                                    (rrpm / 60 * dir_right o))) s1) Continue).
    - unfold modify, set_cycle_count, set_bus. cbn [bus is_idle left_motor_dir
        right_motor_dir motor_controller cycle_count s1 set_is_idle].
      rewrite <- !app_assoc. reflexivity.
    - rewrite (bind_ok _ _ _ _ _
                 (with_mc_quiet (fun o => set_speed_rpm_left env o lrpm)
                    (input_vel_command env (left_axis o) (lrpm / 60 * dir_left o))
                    s1 o Ho1 eq_refl eq_refl)).
      rewrite (bind_ok _ _ _ _ _
                 (with_mc_quiet (fun o => set_speed_rpm_right env o rrpm)
                    (input_vel_command env (right_axis o) (rrpm / 60 * dir_right o))
                    (set_bus (bus s1 ++ sent (input_vel_command env (left_axis o)
                                                (lrpm / 60 * dir_left o))) s1)
                    o Ho1 eq_refl eq_refl)).
      reflexivity. }
  set (s2 := set_cycle_count _ _) in Hdrive.
  rewrite (try_except_ok _ _ s s2 tt).
  2:{ rewrite (bind_ok _ _ _ _ _ Happroach).
      unfold bind at 1, gets at 1. unfold health_check.
      change (cycle_count s1) with (cycle_count s).
      rewrite (proj2 (Z.eqb_neq _ _) Hc).
      unfold bind at 1, ret at 1. exact Hdrive. }
  cbn [fst is_idle cycle_count bus set_cycle_count set_bus set_is_idle s1 s2].
  split; [reflexivity | split; [reflexivity |]].
  rewrite <- !app_assoc. reflexivity.
Qed.

End QuietPort.

End FacadeProperties.

(** ** Concrete runs *)

(** The zero command on the reference facade and healthy hardware: the
    port sees the stop, then the re-arming, then two velocity commands. *)
Lemma zero_command_rearms_and_drives_witness :
  (forall l, io_raises healthy_env l = false) /\
  motor_controller running_facade = Some reference_odrive /\
  cycle_count running_facade mod 20 <> 0 /\
  Qeq_bool (RPM_TO_METERS_PER_SECOND reference_CFG) 0 = false /\
  is_idle (exec (set_linear_angular_velocities healthy_env reference_CFG 0 0)
             running_facade) = false /\
  bus (exec (set_linear_angular_velocities healthy_env reference_CFG 0 0)
         running_facade) =
    sent "w axis1.controller.input_vel 0.0000"
    ++ sent "w axis0.controller.input_vel 0.0000"
    ++ sent "w axis1.requested_state 1" ++ sent "w axis0.requested_state 1"
    ++ sent "w axis1.error 0" ++ sent "w axis1.requested_state 8"
    ++ sent "w axis0.error 0" ++ sent "w axis0.requested_state 8"
    ++ sent "w axis1.controller.input_vel 0.0000"
    ++ sent "w axis0.controller.input_vel 0.0000".
Proof.
  assert (Hc : cycle_count running_facade mod 20 <> 0) by (vm_compute; discriminate).
  split; [intros l; reflexivity |].
  split; [reflexivity | split; [exact Hc | split; [reflexivity |]]].
  destruct (zero_command_rearms_and_drives healthy_env reference_CFG
              (fun _ => eq_refl) running_facade reference_odrive eq_refl Hc eq_refl)
    as [Hidle [_ Hbus]].
  split; [exact Hidle |].
  rewrite Hbus. reflexivity.
Defined.

(** C2 fails on the code: a query that times out returns the empty text. *)
Lemma send_command_timeout_does_not_raise :
  send_command silent_env "r axis0.error" [] =
    (exchanged "r axis0.error", Ok (Some ""%string)) /\
  ~ (forall env command log,
       is_query command = true ->
       rx env (log ++ exchanged command) = ""%string ->
       exists e, outcome (send_command env command) log = Raise e).
Proof.
  split; [reflexivity |].
  intros H. destruct (H silent_env "r axis0.error"%string [] eq_refl eq_refl) as [e He].
  vm_compute in He. discriminate He.
Qed.

(** C3 fails on the code: when the first write raises, [stop] returns
    with [is_idle] still false, and no idle command was written. *)
Lemma stop_error_leaves_idle_unrecorded :
  outcome (stop unplugged_env) running_facade = Ok tt /\
  is_idle (exec (stop unplugged_env) running_facade) = false /\
  bus (exec (stop unplugged_env) running_facade) =
    sent "w axis1.controller.input_vel 0.0000" /\
  ~ (forall env s, is_idle (exec (stop env) s) = true).
Proof.
  split; [reflexivity | split; [reflexivity | split; [reflexivity |]]].
  intros H. specialize (H unplugged_env running_facade).
  vm_compute in H. discriminate H.
Qed.

(** A write on healthy hardware returns [None]. *)
Lemma send_command_reads_only_queries_witness :
  is_query "w axis0.error 0" = false /\
  outcome (send_command healthy_env "w axis0.error 0") [] = Ok None.
Proof.
  split; [reflexivity |].
  destruct (send_command_reads_only_queries healthy_env "w axis0.error 0" [])
    as [_ [Hw _]].
  destruct (Hw eq_refl) as [_ [_ Hr]].
  exact (Hr eq_refl eq_refl).
Defined.

(** A query to silent hardware returns the empty text. *)
Lemma send_command_timeout_returns_empty_witness :
  is_query "r axis0.error" = true /\
  io_raises silent_env ([] ++ [EvResetInput]) = false /\
  io_raises silent_env ([] ++ sent "r axis0.error") = false /\
  io_raises silent_env ([] ++ exchanged "r axis0.error") = false /\
  rx silent_env ([] ++ exchanged "r axis0.error") = ""%string /\
  send_command silent_env "r axis0.error" [] =
    ([] ++ exchanged "r axis0.error", Ok (Some ""%string)).
Proof.
  repeat (split; [reflexivity |]).
  apply (send_command_timeout_returns_empty silent_env "r axis0.error" []);
    reflexivity.
Defined.

(** Silent hardware: the error code is unknown and the health check
    reports a fault. *)
Lemma get_errors_unknown_is_fault_witness :
  send_command silent_env (error_query 0) [] =
    (exchanged "r axis0.error", Ok (Some ""%string)) /\
  filter_str isdigit "" = ""%string /\
  get_errors silent_env reference_odrive 0 [] =
    (exchanged "r axis0.error", Ok (-1, inr "Unknown error"%string)) /\
  has_errors silent_env reference_odrive [] = (exchanged "r axis0.error", Ok true).
Proof.
  split; [reflexivity | split; [reflexivity |]].
  destruct (get_errors_unknown_is_fault silent_env reference_odrive 0 []
              (exchanged "r axis0.error") ""%string eq_refl) as [_ H].
  destruct (H eq_refl) as [H1 [_ [H3 _]]].
  split; [exact H1 | exact (H3 eq_refl)].
Defined.

(** Healthy hardware: both axes are polled, axis 0 first, and no fault is
    reported. *)
Lemma has_errors_fixed_axes_witness :
  has_errors healthy_env reference_odrive [] =
    (exchanged "r axis0.error" ++ exchanged "r axis1.error", Ok false) /\
  ((false = true /\
    exchanged "r axis0.error" ++ exchanged "r axis1.error"
      = [] ++ exchanged "r axis0.error" /\
    reply_is_fault (strip (rx healthy_env ([] ++ exchanged "r axis0.error"))) = true) \/
   (false = reply_is_fault
              (strip (rx healthy_env (([] ++ exchanged "r axis0.error")
                                      ++ exchanged "r axis1.error"))) /\
    exchanged "r axis0.error" ++ exchanged "r axis1.error"
      = ([] ++ exchanged "r axis0.error") ++ exchanged "r axis1.error" /\
    reply_is_fault (strip (rx healthy_env ([] ++ exchanged "r axis0.error"))) = false)).
Proof.
  split; [reflexivity |].
  exact (proj2 (has_errors_fixed_axes healthy_env reference_odrive []
                  (exchanged "r axis0.error" ++ exchanged "r axis1.error")
                  false eq_refl)).
Defined.

(** One newton metre forward on axis 0: 1.05 is written, then latched. *)
Lemma set_torque_nm_bias_then_latch_witness :
  io_raises healthy_env ([] ++ [EvResetInput]) = false /\
  io_raises healthy_env ([] ++ sent "c 0 1.0500") = false /\
  io_raises healthy_env (([] ++ sent "c 0 1.0500") ++ [EvResetInput]) = false /\
  io_raises healthy_env (([] ++ sent "c 0 1.0500") ++ sent "u 0") = false /\
  set_torque_nm healthy_env reference_odrive 0 1 1 [] =
    (sent "c 0 1.0500" ++ sent "u 0", Ok tt).
Proof.
  repeat (split; [reflexivity |]).
  exact (proj1 (set_torque_nm_bias_then_latch healthy_env reference_odrive 0 1 1 []
                  eq_refl eq_refl eq_refl eq_refl)).
Defined.

(** Faulted hardware at a health-check boundary: a command of 1 m/s ends
    in recovery. *)
Lemma health_fault_drops_command_witness :
  approach faulted_env 1 0 facade_at_check = (facade_at_check, Ok tt) /\
  cycle_count facade_at_check mod 20 = 0 /\
  snd (with_mc (has_errors faulted_env) facade_at_check) = Ok true /\
  set_linear_angular_velocities faulted_env reference_CFG 1 0 facade_at_check =
    (exec (reset_and_initialize_motors faulted_env reference_CFG false)
       (exec (emergency_stop faulted_env)
          (exec (fault_probe faulted_env) facade_at_check)), Ok tt).
Proof.
  split; [reflexivity | split; [reflexivity | split; [reflexivity |]]].
  refine (proj1 (health_fault_drops_command faulted_env reference_CFG 1 0
                   facade_at_check facade_at_check eq_refl eq_refl _)).
  vm_compute. discriminate.
Defined.

(** A command far beyond both limits, on the reference facade and healthy
    hardware: the inputs are clipped to 4 m/s and -8 rad/s, the wheels are
    asked for 6 and 2 m/s, the left one at the bound, and the two
    setpoints are all the call writes. *)
Lemma commanded_wheel_velocities_bounded_witness :
  (0 <= MOTOR_CONTROL_MAX_SPEED_LINEAR_MPS reference_CFG)%Q /\
  (0 <= MOTOR_CONTROL_MAX_SPEED_ANGULAR_RADPS reference_CFG)%Q /\
  (0 <= ROBOT_WHEEL_DIST_M reference_CFG)%Q /\
  clip 10 4 = 4%Q /\ clip (-20) 8 = (-8)%Q /\
  (fst (wheel_velocities reference_CFG 4 (-8)) == 6)%Q /\
  (snd (wheel_velocities reference_CFG 4 (-8)) == 2)%Q /\
  (4 + (1 # 2) * 8 / 2 == 6)%Q /\
  bus (exec (set_linear_angular_velocities healthy_env reference_CFG 10 (-20))
         running_facade) =
    sent "w axis1.controller.input_vel 10.0000"
    ++ sent "w axis0.controller.input_vel 3.3333" /\
  is_velocity_setpoint ("w axis1.controller.input_vel 10.0000" ++ LF) = true /\
  is_velocity_setpoint ("w axis0.controller.input_vel 3.3333" ++ LF) = true /\
  Forall (bounded_setpoint healthy_env reference_CFG running_facade 10 (-20))
    (sent "w axis1.controller.input_vel 10.0000"
     ++ sent "w axis0.controller.input_vel 3.3333").
Proof.
  assert (Hl : (0 <= MOTOR_CONTROL_MAX_SPEED_LINEAR_MPS reference_CFG)%Q)
    by (vm_compute; discriminate).
  assert (Ha : (0 <= MOTOR_CONTROL_MAX_SPEED_ANGULAR_RADPS reference_CFG)%Q)
    by (vm_compute; discriminate).
  assert (Ht : (0 <= ROBOT_WHEEL_DIST_M reference_CFG)%Q)
    by (vm_compute; discriminate).
  split; [exact Hl | split; [exact Ha | split; [exact Ht |]]].
  split; [reflexivity | split; [reflexivity |]].
  split; [reflexivity | split; [reflexivity | split; [reflexivity |]]].
  split; [reflexivity | split; [reflexivity | split; [reflexivity |]]].
  destruct (commanded_wheel_velocities_bounded healthy_env reference_CFG 10 (-20) Hl Ha Ht)
    as [_ [_ [_ Hsent]]].
  destruct (Hsent running_facade) as [added [E [F _]]].
  change (bus running_facade ++ added) with added in E.
  rewrite <- E in F. exact F.
Defined.

(** * Further properties *)

(** ** The other commands of [ODriveUART] *)

Section CommandProperties.

Variable env : Env.

Lemma never_reads_ret {A : Type} (a : A) : never_reads (ret a).
Proof. intros log. exists []. split; [symmetry; apply app_nil_r | intros []]. Qed.

Lemma never_reads_bind {A B : Type} (c : M Bus A) (k : A -> M Bus B) :
  never_reads c -> (forall a, never_reads (k a)) -> never_reads (bind c k).
Proof.
  intros Hc Hk log. unfold bind. destruct (Hc log) as [e1 [E1 N1]].
  destruct (c log) as [log1 [a | e]]; cbn [fst] in *.
  - destruct (Hk a log1) as [e2 [E2 N2]]. exists (e1 ++ e2). split.
    + rewrite E2, E1, app_assoc. reflexivity.
    + intros Hin. apply in_app_or in Hin. tauto.
  - exists e1. auto.
Qed.

Lemma never_reads_send (command : string) :
  is_query command = false -> never_reads (send_command env command).
Proof.
  intros Hq log. rewrite send_command_eq, Hq.
  destruct (io_raises env (log ++ [EvResetInput])).
  - exists [EvResetInput]. split; [reflexivity |].
    intros [H | []]; discriminate.
  - exists (sent command). split; [destruct (io_raises env _); reflexivity |].
    intros [H | [H | []]]; discriminate.
Qed.

Ltac no_read :=
  repeat first
    [ apply never_reads_ret
    | apply never_reads_send; reflexivity
    | apply never_reads_bind; [| intros ?] ].

(** X1: the commands that set something (velocity, torque, state, mode,
    limits, watchdog, reboot) never wait for a reply: whatever the axis,
    the values and the hardware, they add no [readline] to the port, and
    [reboot] returns no reply text. *)
Theorem write_commands_never_read (self : ODriveUART) (axis : Z) (x direction : Q) :
  never_reads (set_speed_rpm env self axis x direction) /\
  never_reads (set_torque_nm env self axis x direction) /\
  never_reads (set_idle env self axis) /\
  never_reads (clear_errors env self axis) /\
  never_reads (start env self axis) /\
  never_reads (ODriveUART_stop env self axis) /\
  never_reads (enable_velocity_mode env self axis) /\
  never_reads (enable_torque_mode env self axis) /\
  never_reads (disable_velocity_ramping env self axis) /\
  never_reads (config_velocity_ramp env self axis x) /\
  never_reads (set_current_limit env self axis x) /\
  never_reads (enable_watchdog env self axis) /\
  never_reads (disable_watchdog env self axis) /\
  never_reads (reboot env self) /\
  (forall log text, snd (reboot env self log) <> Ok (Some text)).
Proof.
  repeat split;
    try (unfold set_speed_rpm, set_torque_nm, set_idle, clear_errors, start,
           ODriveUART_stop, enable_velocity_mode, enable_torque_mode,
           disable_velocity_ramping, config_velocity_ramp, set_current_limit,
           enable_watchdog, disable_watchdog, reboot; cbv zeta; no_read).
  intros log text. unfold reboot. rewrite send_command_eq.
  change (is_query "sr") with false.
  destruct (io_raises env (log ++ [EvResetInput])); [discriminate |].
  destruct (io_raises env (log ++ sent "sr")); discriminate.
Qed.

Lemma check_errors_on_reply (self : ODriveUART) (axis : Z) (log log' : Bus) (reply : string) :
  send_command env (error_query axis) log = (log', Ok (Some reply)) ->
  check_errors env self axis log = (log', Ok (reply_is_fault reply)).
Proof.
  intros Hs. unfold check_errors.
  rewrite (bind_ok _ _ _ _ _ Hs).
  rewrite (parse_reply reply (fun code => negb (code =? 0)) true log').
  reflexivity.
Qed.

Lemma check_errors_on_raise (self : ODriveUART) (axis : Z) (log log' : Bus) (e : exn) :
  send_command env (error_query axis) log = (log', Raise e) ->
  check_errors env self axis log = (log', Raise e).
Proof. intros Hs. unfold check_errors. exact (bind_raise _ _ _ _ _ Hs). Qed.

(** X2: [has_errors] is [check_errors] on axis 0 and, when that reports no
    error, [check_errors] on axis 1: the same port traffic, the same
    answer and the same exceptions. *)
Theorem has_errors_is_check_errors_of_both_axes (self : ODriveUART) (log : Bus) :
  has_errors env self log =
  (faulty <- check_errors env self 0 ;;
   if faulty then ret true else check_errors env self 1) log.
Proof.
  unfold has_errors, bind.
  destruct (send_command_query_cases env (error_query 0) log eq_refl) as [[e He] | H0].
  { rewrite (has_errors_loop_on_raise env 0 [1] log _ e He).
    rewrite (check_errors_on_raise self 0 log _ e He). reflexivity. }
  rewrite (has_errors_loop_on_reply env 0 [1] log _ _ H0).
  rewrite (check_errors_on_reply self 0 log _ _ H0).
  destruct (reply_is_fault _); [reflexivity |].
  set (log0 := log ++ exchanged (error_query 0)).
  destruct (send_command_query_cases env (error_query 1) log0 eq_refl) as [[e He] | H1].
  { rewrite (has_errors_loop_on_raise env 1 [] log0 _ e He).
    rewrite (check_errors_on_raise self 1 log0 _ e He). reflexivity. }
  rewrite (has_errors_loop_on_reply env 1 [] log0 _ _ H1).
  rewrite (check_errors_on_reply self 1 log0 _ _ H1).
  destruct (reply_is_fault _); reflexivity.
Qed.

Lemma split_space_length (s : string) :
  List.length (split_space s) = S (count_spaces s).
Proof.
  induction s as [| c s IH]; [reflexivity |].
  cbn [split_space count_spaces]. destruct (Ascii.eqb c " ").
  - cbn [List.length]. rewrite IH. reflexivity.
  - destruct (split_space s) as [| field fields]; [discriminate IH | exact IH].
Qed.

(** X3: [get_pos_vel] needs a reply of exactly two fields.  When the reply
    does not have exactly one space (a timeout, which reads as the empty
    text, a single number, a double space) it raises [ValueError]; when it
    has, it returns the two numbers signed by the direction, the velocity
    times 60, or raises [ValueError] when [float] rejects a field. *)
Theorem get_pos_vel_needs_two_fields
    (self : ODriveUART) (axis : Z) (direction : Q) (log log' : Bus) (reply : string) :
  send_command env (feedback_query axis) log = (log', Ok (Some reply)) ->
  (count_spaces reply <> 1%nat ->
   get_pos_vel env self axis direction log = (log', Raise ValueError)) /\
  (reply = ""%string ->
   get_pos_vel env self axis direction log = (log', Raise ValueError)) /\
  (count_spaces reply = 1%nat ->
   exists pos vel,
     split_space reply = [pos; vel] /\
     get_pos_vel env self axis direction log =
     (log', match float_of_str env pos, float_of_str env vel with
            | Some p, Some v => Ok (p * direction, v * direction * 60)%Q
            | _, _ => Raise ValueError
            end)).
Proof.
  intros Hs.
  assert (Hbad : count_spaces reply <> 1%nat ->
                 get_pos_vel env self axis direction log = (log', Raise ValueError)).
  { intros Hn. unfold get_pos_vel. rewrite (bind_ok _ _ _ _ _ Hs).
    unfold bind, split_reply, ret, unpack2.
    pose proof (split_space_length reply) as Hl.
    destruct (split_space reply) as [| a [| b [| c rest]]]; try reflexivity.
    cbn in Hl. congruence. }
  split; [exact Hbad | split].
  - intros ->. apply Hbad. discriminate.
  - intros Hn. pose proof (split_space_length reply) as Hl. rewrite Hn in Hl.
    destruct (split_space reply) as [| pos [| vel [| c rest]]] eqn:E; try discriminate Hl.
    exists pos, vel. split; [reflexivity |].
    unfold get_pos_vel. rewrite (bind_ok _ _ _ _ _ Hs).
    unfold bind, split_reply, ret. rewrite E.
    cbv beta iota delta [unpack2 py_float raise ret].
    destruct (float_of_str env pos); [| reflexivity].
    destruct (float_of_str env vel); reflexivity.
Qed.

(** Half a unit of the fourth decimal, scaled by 60 and a factor. *)
Lemma rounding_scaled (d k : Q) :
  (Qabs d <= 1 # 20000 -> Qabs (d * (60 * k)) <= (3 # 1000) * Qabs k)%Q.
Proof.
  intros H. rewrite Qabs_Qmult, Qabs_Qmult.
  assert (E60 : Qabs 60 = 60%Q) by reflexivity. rewrite E60.
  pose proof (Qabs_nonneg k) as Hk.
  setoid_replace ((3 # 1000) * Qabs k)%Q with ((1 # 20000) * (60 * Qabs k))%Q by ring.
  apply Qmult_le_compat_r; [exact H |]. nra.
Qed.

(** X4: reading a speed back undoes the direction that writing it
    applied, up to the rounding of the text.  [set_speed_rpm] writes the
    setpoint of [rpm] (turns per second, signed by the direction) with four
    decimals; when the axis reports that text as its velocity, [float]
    reads it to within half a unit of the fourth decimal, and the direction
    is 1 or -1, [get_speed_rpm] returns [rpm] to within 0.003 turns per
    minute. *)
Theorem speed_read_back_within_rounding
    (self : ODriveUART) (axis : Z) (rpm direction : Q) :
  (direction == 1 \/ direction == -1)%Q ->
  let text := fmt_f env 4 (rpm / 60 * direction) in
  (forall log,
     io_raises env (log ++ [EvResetInput]) = false ->
     fst (set_speed_rpm env self axis rpm direction log) =
       log ++ sent ("w axis" ++ str_int axis ++ ".controller.input_vel " ++ text)%string) /\
  (forall log log' y,
     send_command env (vel_estimate_query axis) log = (log', Ok (Some text)) ->
     float_of_str env text = Some y ->
     (Qabs (y - rpm / 60 * direction) <= 1 # 20000)%Q ->
     exists r,
       get_speed_rpm env self axis direction log = (log', Ok r) /\
       (Qabs (r - rpm) <= 3 # 1000)%Q).
Proof.
  intros Hd. cbv zeta. split.
  - intros log H. unfold set_speed_rpm. cbv zeta. unfold bind.
    rewrite send_command_eq, H.
    change (is_query _) with false. cbv iota.
    destruct (io_raises env (_ ++ sent _)); reflexivity.
  - intros log log' y Hs Hf Hy. exists (y * direction * 60)%Q. split.
    + unfold get_speed_rpm.
      change (send_command env ("r axis" ++ str_int axis ++ ".encoder.vel_estimate")%string)
        with (send_command env (vel_estimate_query axis)).
      rewrite (bind_ok _ _ _ _ _ Hs).
      unfold bind, float_reply, py_float. rewrite Hf. reflexivity.
    + pose proof (rounding_scaled (y - rpm / 60 * direction) direction Hy) as R.
      assert (E1 : (Qabs direction == 1)%Q).
      { destruct Hd as [-> | ->]; reflexivity. }
      rewrite E1 in R.
      setoid_replace (y * direction * 60 - rpm)%Q
        with ((y - rpm / 60 * direction) * (60 * direction))%Q; [exact R |].
      destruct Hd as [-> | ->]; field.
Qed.

(** X5: [dump_errors] is not stopped by what the hardware answers.  On a
    port that accepts every operation and answers in ASCII it makes its
    eight error queries, in order, and returns, whether the replies are
    numbers, garbage or nothing at all. *)
Theorem dump_errors_tolerates_any_reply (self : ODriveUART) (log : Bus) :
  (forall l, io_raises env l = false) ->
  (forall l, is_ascii (rx env l) = true) ->
  dump_errors env self log =
  (log ++ flat_map (fun src => exchanged ("r " ++ src ++ ".error")%string) error_sources,
   Ok tt).
Proof.
  intros Hio Hrx. unfold dump_errors.
  generalize error_sources as sources. intros sources. revert log.
  induction sources as [| src rest IH]; intros log.
  - cbn. rewrite app_nil_r. reflexivity.
  - cbn [dump_errors_loop flat_map].
    assert (Hq : send_command env ("r " ++ src ++ ".error")%string log =
                 (log ++ exchanged ("r " ++ src ++ ".error")%string,
                  Ok (Some (strip (rx env (log ++ exchanged ("r " ++ src ++ ".error")%string)))))).
    { rewrite send_command_eq, !Hio, Hrx. reflexivity. }
    rewrite (bind_ok _ _ _ _ _ Hq).
    rewrite (bind_ok _ _ _ _ _ (parse_reply _ (fun _ => tt) tt _)).
    rewrite IH, app_assoc. reflexivity.
Qed.

End CommandProperties.

(** ** The rest of the facade *)

Section FacadeFurther.

Variable env : Env.
Variable CFG : Config.

(** *** Attributes that a computation leaves alone *)

Section Preserved.

Context {X : Type} (f : MotorControl -> X).
Hypothesis f_bus : forall b s, f (set_bus b s) = f s.


Lemma preserves_gets {A : Type} (g : MotorControl -> A) : preserves f (gets g).
Proof. intros s. reflexivity. Qed.









End Preserved.

(** X6: no method of the facade lets an exception out.  Whatever the
    hardware does, the velocity command, both stops, the reset, the
    configuration dump and the two feedback accessors return normally. *)
Theorem facade_never_raises (s : MotorControl) (v yaw : Q) (torque_mode : bool) :
  snd (set_linear_angular_velocities env CFG v yaw s) = Ok tt /\
  snd (stop env s) = Ok tt /\
  snd (emergency_stop env s) = Ok tt /\
  snd (reset_and_initialize_motors env CFG torque_mode s) = Ok tt /\
  snd (dump_motor_config env s) = Ok tt /\
  (exists x, snd (get_left_motor_velocity env CFG s) = Ok x) /\
  (exists x, snd (get_right_motor_velocity env CFG s) = Ok x).
Proof.
  assert (Hfeedback : forall body : M MotorControl Q,
             exists x, snd (try_except body
                              (fun _ => reset_and_initialize_motors env CFG false ;;
                                        ret 0%Q) s) = Ok x).
  { intros body. unfold try_except. destruct (body s) as [s1 [x | e]].
    - exists x. reflexivity.
    - exists 0%Q. unfold bind.
      pose proof (reset_and_initialize_motors_returns env CFG false s1) as Hr.
      destruct (reset_and_initialize_motors env CFG false s1) as [s2 r].
      cbn [snd] in Hr. rewrite Hr. reflexivity. }
  repeat split.
  - apply set_linear_angular_velocities_returns.
  - apply stop_returns.
  - apply emergency_stop_returns.
  - apply reset_and_initialize_motors_returns.
  - apply try_except_pass.
  - apply Hfeedback.
  - apply Hfeedback.
Qed.

(** X7: [emergency_stop] is [stop].  Its two fall-backs (writing zero
    velocity directly, then idling directly) are behind an [except] that
    [stop] never triggers, because [stop] catches every exception itself;
    so when [stop] fails half-way, nothing more is attempted. *)
Theorem emergency_stop_fallbacks_never_run (s : MotorControl) :
  emergency_stop env s = stop env s /\
  (forall s1 e,
     with_mc (fun o => set_speed_rpm_left env o 0) s = (s1, Raise e) ->
     emergency_stop env s = (s1, Ok tt)).
Proof.
  split; [apply emergency_stop_is_stop |].
  intros s1 e H. rewrite emergency_stop_is_stop. unfold stop.
  rewrite (try_except_raise _ _ _ _ _ (bind_raise _ _ _ _ _ H)). reflexivity.
Qed.

(** X8: the feedback accessors on a failed query.  When [get_pos_vel]
    raises on its axis (port error, timeout, garbled reply),
    [get_left_motor_velocity] and [get_right_motor_velocity] reset and
    re-initialise the motors and return 0.0; when it succeeds, they return
    the velocity times the conversion constant and change nothing but the
    port. *)
Theorem velocity_feedback_failure_returns_zero (s : MotorControl) :
  (forall s1 e,
     with_mc (get_pos_vel_left env) s = (s1, Raise e) ->
     get_left_motor_velocity env CFG s =
     (exec (reset_and_initialize_motors env CFG false) s1, Ok 0%Q)) /\
  (forall s1 e,
     with_mc (get_pos_vel_right env) s = (s1, Raise e) ->
     get_right_motor_velocity env CFG s =
     (exec (reset_and_initialize_motors env CFG false) s1, Ok 0%Q)) /\
  (forall s1 pos vel,
     with_mc (get_pos_vel_left env) s = (s1, Ok (pos, vel)) ->
     get_left_motor_velocity env CFG s =
     (s1, Ok (vel * RPM_TO_METERS_PER_SECOND CFG)%Q) /\
     s1 = set_bus (bus s1) s) /\
  (forall s1 pos vel,
     with_mc (get_pos_vel_right env) s = (s1, Ok (pos, vel)) ->
     get_right_motor_velocity env CFG s =
     (s1, Ok (vel * RPM_TO_METERS_PER_SECOND CFG)%Q) /\
     s1 = set_bus (bus s1) s).
Proof.
  assert (Hfail : forall (q : ODriveUART -> M Bus (Q * Q)) s1 e,
             with_mc q s = (s1, Raise e) ->
             try_except
               (pv <- with_mc q ;;
                let (_, vel) := pv in
                ret (vel * RPM_TO_METERS_PER_SECOND CFG)%Q)
               (fun _ => reset_and_initialize_motors env CFG false ;; ret 0%Q) s =
             (exec (reset_and_initialize_motors env CFG false) s1, Ok 0%Q)).
  { intros q s1 e H.
    rewrite (try_except_raise _ _ _ _ _ (bind_raise _ _ _ _ _ H)).
    rewrite (bind_ok _ _ _ _ _
               (returns_eq _ s1 tt (reset_and_initialize_motors_returns env CFG false s1))).
    reflexivity. }
  assert (Hgood : forall (q : ODriveUART -> M Bus (Q * Q)) s1 pos vel,
             with_mc q s = (s1, Ok (pos, vel)) ->
             try_except
               (pv <- with_mc q ;;
                let (_, vel) := pv in
                ret (vel * RPM_TO_METERS_PER_SECOND CFG)%Q)
               (fun _ => reset_and_initialize_motors env CFG false ;; ret 0%Q) s =
             (s1, Ok (vel * RPM_TO_METERS_PER_SECOND CFG)%Q) /\
             s1 = set_bus (bus s1) s).
  { intros q s1 pos vel H. split.
    - apply try_except_ok. rewrite (bind_ok _ _ _ _ _ H). reflexivity.
    - unfold with_mc, lift_bus in H. destruct (motor_controller s); [| discriminate].
      destruct (q o (bus s)) as [b r]. inversion H. reflexivity. }
  split; [exact (Hfail (get_pos_vel_left env)) |].
  split; [exact (Hfail (get_pos_vel_right env)) |].
  split; [exact (Hgood (get_pos_vel_left env)) | exact (Hgood (get_pos_vel_right env))].
Qed.

(** *** The reset *)





End FacadeFurther.

(** ** The path of a command *)

Section CommandPath.

Variable env : Env.
Variable CFG : Config.

(** The two velocity commands that the last phase writes for the inputs
    [v] and [yaw] on the controller [o]. *)
Lemma drive_on_quiet_port (v yaw : Q) (s : MotorControl) (o : ODriveUART) :
  (forall l, io_raises env l = false) ->
  motor_controller s = Some o ->
  Qeq_bool (RPM_TO_METERS_PER_SECOND CFG) 0 = false ->
  let wheels :=
    wheel_velocities CFG (clip v (MOTOR_CONTROL_MAX_SPEED_LINEAR_MPS CFG))
      (clip yaw (MOTOR_CONTROL_MAX_SPEED_ANGULAR_RADPS CFG)) in
  let rpm_to_mps := RPM_TO_METERS_PER_SECOND CFG in
  drive env CFG v yaw s =
  (set_cycle_count (cycle_count s + 1)
     (set_bus (bus s
               ++ sent (input_vel_command env (left_axis o)
                          (fst wheels / rpm_to_mps / 60 * dir_left o))
               ++ sent (input_vel_command env (right_axis o)
                          (snd wheels / rpm_to_mps / 60 * dir_right o))) s), Ok tt).
Proof.
  intros quiet Ho Hk. cbv zeta.
  unfold drive, wheel_velocities. cbv zeta. cbn [fst snd]. unfold py_div.
  rewrite Hk. unfold bind at 1, ret at 1. unfold bind at 1, ret at 1.
  match goal with
  | |- context [with_mc (fun o => set_speed_rpm_left env o ?l)] => set (lrpm := l)
  end.
  match goal with
  | |- context [with_mc (fun o => set_speed_rpm_right env o ?r)] => set (rrpm := r)
  end.
  set (cl := input_vel_command env (left_axis o) (lrpm / 60 * dir_left o)).
  set (cr := input_vel_command env (right_axis o) (rrpm / 60 * dir_right o)).
  set (s1 := set_bus (bus s ++ sent cl) s).
  unfold bind at 1.
  rewrite (try_except_ok _ _ s (set_bus (bus s1 ++ sent cr) s1) Continue).
  - unfold modify, s1, set_cycle_count, set_bus. cbn [bus is_idle left_motor_dir
      right_motor_dir motor_controller cycle_count].
    rewrite <- ?app_assoc. reflexivity.
  - rewrite (bind_ok _ _ _ _ _
               (with_mc_quiet env quiet (fun o => set_speed_rpm_left env o lrpm) cl
                  s o Ho eq_refl eq_refl)).
    rewrite (bind_ok _ _ _ _ _
               (with_mc_quiet env quiet (fun o => set_speed_rpm_right env o rrpm) cr
                  s1 o Ho eq_refl eq_refl)).
    reflexivity.
Qed.

(** X10: an ordinary command.  On a port that accepts every operation,
    between two health checks, a command that is not the zero command
    writes the two velocity setpoints of its clipped inputs and nothing
    else when the facade is active; when the facade is idle (after
    [stop]) it first clears the errors and requests closed-loop control on
    the left and then the right axis.  Either way the facade ends active
    and the cycle is counted. *)
Theorem command_rearms_then_drives (v yaw : Q) (s : MotorControl) (o : ODriveUART) :
  (forall l, io_raises env l = false) ->
  motor_controller s = Some o ->
  cycle_count s mod 20 <> 0 ->
  Qeq_bool (RPM_TO_METERS_PER_SECOND CFG) 0 = false ->
  Qeq_bool v 0 && Qeq_bool yaw 0 = false ->
  let wheels :=
    wheel_velocities CFG (clip v (MOTOR_CONTROL_MAX_SPEED_LINEAR_MPS CFG))
      (clip yaw (MOTOR_CONTROL_MAX_SPEED_ANGULAR_RADPS CFG)) in
  let rpm_to_mps := RPM_TO_METERS_PER_SECOND CFG in
  let s' := exec (set_linear_angular_velocities env CFG v yaw) s in
  is_idle s' = false /\
  cycle_count s' = cycle_count s + 1 /\
  motor_controller s' = Some o /\
  bus s' =
    bus s
    ++ (if is_idle s
        then rearm_events (left_axis o) ++ rearm_events (right_axis o)
        else [])
    ++ sent (input_vel_command env (left_axis o)
               (fst wheels / rpm_to_mps / 60 * dir_left o))
    ++ sent (input_vel_command env (right_axis o)
               (snd wheels / rpm_to_mps / 60 * dir_right o)).
Proof.
  intros quiet Ho Hc Hk Hnz. cbv zeta. unfold exec.
  rewrite set_linear_angular_velocities_phases.
  set (s1 := if is_idle s
             then set_is_idle false
                    (set_bus (bus s ++ rearm_events (left_axis o)
                              ++ rearm_events (right_axis o)) s)
             else s).
  assert (Happroach : approach env v yaw s = (s1, Ok tt)).
  { unfold approach. rewrite Hnz. unfold bind at 1, ret at 1.
    unfold bind at 1, gets at 1. unfold s1. destruct (is_idle s) eqn:Ei.
    - set (sb := set_bus (bus s ++ rearm_events (left_axis o)) s).
      rewrite (bind_ok _ _ _ _ _ (clear_errors_quiet env quiet left_axis s o Ho)).
      rewrite (bind_ok _ _ _ _ _ (clear_errors_quiet env quiet right_axis sb o Ho)).
      unfold modify, sb, set_is_idle, set_bus. cbn [bus is_idle left_motor_dir
        right_motor_dir motor_controller cycle_count].
      rewrite <- ?app_assoc. reflexivity.
    - reflexivity. }
  assert (Ho1 : motor_controller s1 = Some o) by (unfold s1; destruct (is_idle s); exact Ho).
  assert (Hc1 : cycle_count s1 = cycle_count s) by (unfold s1; destruct (is_idle s); reflexivity).
  pose proof (drive_on_quiet_port v yaw s1 o quiet Ho1 Hk) as Hdrive. cbv zeta in Hdrive.
  set (s2 := set_cycle_count _ _) in Hdrive.
  rewrite (try_except_ok _ _ s s2 tt).
  2:{ rewrite (bind_ok _ _ _ _ _ Happroach).
      unfold bind at 1, gets at 1. unfold health_check. rewrite Hc1.
      rewrite (proj2 (Z.eqb_neq _ _) Hc).
      unfold bind at 1, ret at 1. exact Hdrive. }
  cbn [fst]. unfold s2, s1.
  destruct (is_idle s) eqn:Ei;
    cbn [is_idle cycle_count bus motor_controller set_cycle_count set_bus set_is_idle].
  - rewrite Ho. repeat split. rewrite <- !app_assoc. reflexivity.
  - rewrite Ei, Ho. repeat split.
Qed.

(** X11: a call counts at most one cycle.  Whatever the inputs and the
    hardware, [set_linear_angular_velocities] leaves the cycle count as it
    was or adds one to it; so the health check, due whenever the count is
    a multiple of 20, is repeated at the next call after any call that did
    not complete. *)
Theorem cycle_count_steps_by_at_most_one (v yaw : Q) (s : MotorControl) :
  let s' := exec (set_linear_angular_velocities env CFG v yaw) s in
  cycle_count s' = cycle_count s \/ cycle_count s' = cycle_count s + 1.
Proof.
  cbv zeta. unfold exec.
  destruct (set_linear_angular_velocities env CFG v yaw s) as [s' r] eqn:E.
  cbn [fst]. rewrite set_linear_angular_velocities_phases in E.
  unfold try_except in E.
  pose proof (keeps_approach env v yaw s) as K1.
  unfold bind at 1 in E. destruct (approach env v yaw s) as [s1 [[] | e1]]; cbn [fst] in K1.
  2:{ pose proof (keeps_emergency_stop env s1) as K. rewrite E in K. cbn [fst] in K.
      left. congruence. }
  unfold bind at 1, gets at 1 in E.
  pose proof (keeps_health_check env CFG (cycle_count s1) s1) as K2.
  unfold bind at 1 in E.
  destruct (health_check env CFG (cycle_count s1) s1) as [s2 [[|] | e2]]; cbn [fst] in K2.
  - pose proof (drive_cases env CFG v yaw s2) as D. cbv zeta in D.
    destruct (drive env CFG v yaw s2) as [s3 [[] | e3]]; cbn [fst snd] in *.
    + inversion E; subst s3.
      destruct D as [D | [o [_ [_ [D _]]]]]; [left | right]; congruence.
    + destruct D as [D | [o [_ [D _]]]]; [| discriminate].
      pose proof (keeps_emergency_stop env s3) as K. rewrite E in K. cbn [fst] in K.
      left. congruence.
  - inversion E; subst s'. left. congruence.
  - pose proof (keeps_emergency_stop env s2) as K. rewrite E in K. cbn [fst] in K.
    left. congruence.
Qed.

(** X12: clipping.  For a limit that is not negative, a value within the
    limits is left as it is, a value above is replaced by the limit, a
    value below by its opposite, and clipping twice is clipping once.
    For a negative limit every value, zero included, is replaced by the
    opposite of the limit. *)
Theorem clip_saturates (x limit : Q) :
  ((0 <= limit ->
    (- limit <= x <= limit -> clip x limit = x) /\
    (limit < x -> clip x limit = limit) /\
    (x < - limit -> clip x limit = - limit) /\
    clip (clip x limit) limit = clip x limit) /\
   (limit < 0 -> clip x limit = - limit))%Q.
Proof.
  assert (Hle : forall a b : Q, (a <= b)%Q -> Qle_bool a b = true)
    by (intros a b; apply Qle_bool_iff).
  assert (Hgt : forall a b : Q, (b < a)%Q -> Qle_bool a b = false).
  { intros a b H. destruct (Qle_bool a b) eqn:E; [| reflexivity].
    apply Qle_bool_iff in E. lra. }
  assert (Hin : forall y, (0 <= limit -> - limit <= y <= limit -> clip y limit = y)%Q).
  { intros y _ [H1 H2]. unfold clip, py_min, py_max.
    rewrite (Hle y limit H2), (Hle (- limit)%Q y H1). reflexivity. }
  assert (Hhi : (0 <= limit -> limit < x -> clip x limit = limit)%Q).
  { intros H0 H. unfold clip, py_min, py_max.
    rewrite (Hgt x limit H). rewrite Hle by lra. reflexivity. }
  assert (Hlo : (0 <= limit -> x < - limit -> clip x limit = - limit)%Q).
  { intros H0 H. unfold clip, py_min, py_max.
    rewrite (Hle x limit) by lra. rewrite (Hgt (- limit)%Q x H). reflexivity. }
  split.
  - intros H0. split; [apply Hin; exact H0 | split; [auto | split; [auto |]]].
    destruct (Qlt_le_dec limit x) as [H | H].
    + rewrite (Hhi H0 H). apply Hin; [exact H0 | lra].
    + destruct (Qlt_le_dec x (- limit)%Q) as [H' | H'].
      * rewrite (Hlo H0 H'). apply Hin; [exact H0 | lra].
      * rewrite (Hin x H0 (conj H' H)). apply Hin; [exact H0 | lra].
  - intros H. unfold clip, py_max.
    assert (Hm : (py_min x limit <= limit)%Q).
    { unfold py_min. destruct (Qle_bool x limit) eqn:E; [apply Qle_bool_iff in E |]; lra. }
    rewrite Hgt by lra. reflexivity.
Qed.

(** X13: the wheel velocities give the body velocities back: their mean
    is the linear velocity and their difference is the track width times
    the yaw rate. *)
Theorem wheel_velocities_invert (linear angular : Q) :
  let wheels := wheel_velocities CFG linear angular in
  ((fst wheels + snd wheels) / 2 == linear /\
   snd wheels - fst wheels == ROBOT_WHEEL_DIST_M CFG * angular)%Q.
Proof. cbv zeta. unfold wheel_velocities. cbn [fst snd]. split; field. Qed.

(** X14: the feedback of a commanded velocity, up to the rounding of the
    text.  The facade writes the setpoint of the wheel velocity [v]
    ([v] divided by the conversion constant and by 60, signed by the
    direction) with four decimals; when the left axis reports that text as
    its velocity in a well-formed reply, [float] reads it to within half a
    unit of the fourth decimal, the direction is 1 or -1 and the
    conversion constant is not zero, [get_left_motor_velocity] returns [v]
    to within 0.003 times the conversion constant and changes nothing but
    the port. *)
Theorem velocity_feedback_within_rounding
    (s : MotorControl) (o : ODriveUART) (v : Q) :
  motor_controller s = Some o ->
  (dir_left o == 1 \/ dir_left o == -1)%Q ->
  ~ (RPM_TO_METERS_PER_SECOND CFG == 0)%Q ->
  let rpm_to_mps := RPM_TO_METERS_PER_SECOND CFG in
  let text := fmt_f env 4 (v / rpm_to_mps / 60 * dir_left o) in
  (io_raises env (bus s ++ [EvResetInput]) = false ->
   bus (exec (with_mc (fun o => set_speed_rpm_left env o (v / rpm_to_mps))) s) =
     bus s ++ sent ("w axis" ++ str_int (left_axis o) ++ ".controller.input_vel " ++ text)%string) /\
  (forall s1 log' reply pos p y,
     motor_controller s1 = Some o ->
     send_command env (feedback_query (left_axis o)) (bus s1) = (log', Ok (Some reply)) ->
     split_space reply = [pos; text] ->
     float_of_str env pos = Some p ->
     float_of_str env text = Some y ->
     (Qabs (y - v / rpm_to_mps / 60 * dir_left o) <= 1 # 20000)%Q ->
     exists r,
       get_left_motor_velocity env CFG s1 = (set_bus log' s1, Ok r) /\
       (Qabs (r - v) <= (3 # 1000) * Qabs rpm_to_mps)%Q).
Proof.
  intros Ho Hd Hk. cbv zeta. split.
  - intros H. unfold exec, with_mc, lift_bus. rewrite Ho.
    unfold set_speed_rpm_left, set_speed_rpm. cbv zeta. unfold bind.
    rewrite send_command_eq, H.
    change (is_query _) with false. cbv iota.
    destruct (io_raises env (_ ++ sent _)); reflexivity.
  - intros s1 log' reply pos p y Ho1 Hs Hsplit Hp Hf Hy.
    exists (y * dir_left o * 60 * RPM_TO_METERS_PER_SECOND CFG)%Q. split.
    + unfold get_left_motor_velocity. apply try_except_ok.
      assert (Hq : with_mc (get_pos_vel_left env) s1 =
                   (set_bus log' s1, Ok (p * dir_left o, y * dir_left o * 60)%Q)).
      { unfold with_mc, lift_bus. rewrite Ho1.
        unfold get_pos_vel_left, get_pos_vel.
        change (send_command env ("f " ++ str_int (left_axis o))%string)
          with (send_command env (feedback_query (left_axis o))).
        rewrite (bind_ok _ _ _ _ _ Hs).
        unfold bind, split_reply, ret. rewrite Hsplit.
        cbv beta iota delta [unpack2 py_float raise ret]. rewrite Hp, Hf. reflexivity. }
      rewrite (bind_ok _ _ _ _ _ Hq). reflexivity.
    + pose proof (rounding_scaled _ (dir_left o * RPM_TO_METERS_PER_SECOND CFG) Hy) as R.
      assert (E1 : (Qabs (dir_left o * RPM_TO_METERS_PER_SECOND CFG)
                    == Qabs (RPM_TO_METERS_PER_SECOND CFG))%Q).
      { rewrite Qabs_Qmult.
        destruct Hd as [-> | ->];
          [change (Qabs 1) with 1%Q | change (Qabs (-1)) with 1%Q]; ring. }
      rewrite E1 in R.
      setoid_replace (y * dir_left o * 60 * RPM_TO_METERS_PER_SECOND CFG - v)%Q
        with ((y - v / RPM_TO_METERS_PER_SECOND CFG / 60 * dir_left o)
              * (60 * (dir_left o * RPM_TO_METERS_PER_SECOND CFG)))%Q; [exact R |].
      destruct Hd as [-> | ->]; field; exact Hk.
Qed.

End CommandPath.

(** ** The input programs *)

Section InputProperties.

Lemma Qlt_bool_iff (a b : Q) : Qlt_bool a b = true <-> (a < b)%Q.
Proof.
  unfold Qlt_bool. destruct (Qle_bool b a) eqn:E; cbn [negb].
  - apply Qle_bool_iff in E. split; [discriminate | intros H; exfalso; lra].
  - split; [intros _ | reflexivity].
    apply Qnot_le_lt. intros H. apply Qle_bool_iff in H. congruence.
Qed.

Lemma Qlt_bool_false (a b : Q) : Qlt_bool a b = false <-> (b <= a)%Q.
Proof.
  split.
  - intros H. apply Qnot_lt_le. intros Hlt. apply Qlt_bool_iff in Hlt. congruence.
  - intros H. destruct (Qlt_bool a b) eqn:E; [| reflexivity].
    apply Qlt_bool_iff in E. lra.
Qed.

Lemma py_div_nonzero {S : Type} (x y : Q) (s : S) :
  ~ (y == 0)%Q -> py_div x y s = (s, Ok (x / y)%Q).
Proof.
  intros Hy. unfold py_div. destruct (Qeq_bool y 0) eqn:E; [| reflexivity].
  apply Qeq_bool_iff in E. contradiction.
Qed.

Lemma apply_deadzone_value {S : Type} (value deadzone : Q) (s : S) :
  ~ (deadzone == 1)%Q ->
  apply_deadzone value deadzone s = (s, Ok (deadzone_value value deadzone)).
Proof.
  intros Hd. unfold apply_deadzone, deadzone_value.
  assert (Hn : ~ (1 - deadzone == 0)%Q) by (intros H; apply Hd; lra).
  destruct (Qlt_bool (Qabs value) deadzone); [reflexivity |].
  destruct (Qlt_bool 0 value); apply py_div_nonzero; exact Hn.
Qed.

Lemma deadzone_value_cases (value deadzone : Q) :
  (0 <= deadzone -> deadzone < 1 ->
   (Qabs value < deadzone /\ deadzone_value value deadzone = 0) \/
   (deadzone <= value /\ 0 < value /\
    deadzone_value value deadzone = (value - deadzone) / (1 - deadzone)) \/
   (value <= - deadzone /\ value <= 0 /\
    deadzone_value value deadzone = (value + deadzone) / (1 - deadzone)))%Q.
Proof.
  intros H0 H1. unfold deadzone_value.
  destruct (Qlt_bool (Qabs value) deadzone) eqn:Ea.
  - left. apply Qlt_bool_iff in Ea. auto.
  - right. apply Qlt_bool_false in Ea.
    destruct (Qlt_bool 0 value) eqn:Ev.
    + left. apply Qlt_bool_iff in Ev. rewrite Qabs_pos in Ea by lra. auto.
    + right. apply Qlt_bool_false in Ev. rewrite Qabs_neg in Ea by lra.
      repeat split; auto; lra.
Qed.

Lemma scaled_le (a b c : Q) : (0 < c -> a <= b -> a / c <= b / c)%Q.
Proof.
  intros Hc Hab. apply Qle_shift_div_l; [exact Hc |].
  setoid_replace (a / c * c)%Q with a by (field; lra). exact Hab.
Qed.

Lemma scaled_zero (c : Q) : (0 < c -> 0 / c == 0)%Q.
Proof. intros Hc. field. lra. Qed.

Lemma scaled_one (c : Q) : (0 < c -> c / c == 1)%Q.
Proof. intros Hc. field. lra. Qed.

(** Within the stick range the dead zone gives a value of the stick range
    and does not raise. *)
Lemma apply_deadzone_bounded {S : Type} (value deadzone : Q) (s : S) :
  (0 <= deadzone)%Q -> (deadzone < 1)%Q -> (Qabs value <= 1)%Q ->
  exists r, apply_deadzone value deadzone s = (s, Ok r) /\ (Qabs r <= 1)%Q.
Proof.
  intros H0 H1 Hv. exists (deadzone_value value deadzone).
  split; [apply apply_deadzone_value; lra |].
  apply Qabs_Qle_condition in Hv. destruct Hv as [Hv1 Hv2].
  assert (Hc : (0 < 1 - deadzone)%Q) by lra.
  apply Qabs_Qle_condition.
  destruct (deadzone_value_cases value deadzone H0 H1)
    as [[Ha ->] | [[Hd [Hp ->]] | [Hd [Hn ->]]]].
  - split; vm_compute; discriminate.
  - split.
    + apply Qle_shift_div_l; [exact Hc | lra].
    + apply Qle_shift_div_r; [exact Hc | lra].
  - split.
    + apply Qle_shift_div_l; [exact Hc | lra].
    + apply Qle_shift_div_r; [exact Hc | lra].
Qed.

(** X15: [apply_deadzone] keeps a stick value in range.  For a dead zone in
    [0, 1) and a value in [-1, 1] it never raises and returns a value in
    [-1, 1]: zero inside the dead zone, and outside it the distance to the
    dead zone rescaled to [0, 1], with the sign of the value. *)
Theorem apply_deadzone_in_range {S : Type} (value deadzone : Q) (s : S) :
  (0 <= deadzone)%Q -> (deadzone < 1)%Q -> (Qabs value <= 1)%Q ->
  exists r,
    apply_deadzone value deadzone s = (s, Ok r) /\
    (Qabs r <= 1)%Q /\
    (Qabs value < deadzone -> r = 0)%Q /\
    (deadzone <= Qabs value ->
     Qabs r == (Qabs value - deadzone) / (1 - deadzone))%Q /\
    (0 <= value -> 0 <= r)%Q /\
    (value <= 0 -> r <= 0)%Q.
Proof.
  intros H0 H1 Hv. exists (deadzone_value value deadzone).
  split; [apply apply_deadzone_value; lra |].
  apply Qabs_Qle_condition in Hv. destruct Hv as [Hv1 Hv2].
  assert (Hc : (0 < 1 - deadzone)%Q) by lra.
  destruct (deadzone_value_cases value deadzone H0 H1)
    as [[Ha ->] | [[Hd [Hp ->]] | [Hd [Hn ->]]]].
  - split; [cbn; discriminate |]. split; [reflexivity |].
    split; [intros H; exfalso; lra |]. split; intros _; lra.
  - pose proof (scaled_le 0 (value - deadzone) (1 - deadzone) Hc) as L0.
    pose proof (scaled_le (value - deadzone) (1 - deadzone) (1 - deadzone) Hc) as L1.
    rewrite scaled_zero in L0 by exact Hc. rewrite scaled_one in L1 by exact Hc.
    assert (R0 : (0 <= (value - deadzone) / (1 - deadzone))%Q) by (apply L0; lra).
    assert (R1 : ((value - deadzone) / (1 - deadzone) <= 1)%Q) by (apply L1; lra).
    split; [apply Qabs_Qle_condition; split; lra |].
    split; [intros H; rewrite Qabs_pos in H by lra; exfalso; lra |].
    split; [intros _; rewrite Qabs_pos by exact R0; rewrite Qabs_pos by lra; reflexivity |].
    split; [intros _; exact R0 | intros H; exfalso; lra].
  - pose proof (scaled_le (value + deadzone) 0 (1 - deadzone) Hc) as L0.
    pose proof (scaled_le (- (1 - deadzone)) (value + deadzone) (1 - deadzone) Hc) as L1.
    rewrite scaled_zero in L0 by exact Hc.
    assert (E : (- (1 - deadzone) / (1 - deadzone) == - (1))%Q) by (field; lra).
    rewrite E in L1.
    assert (R0 : ((value + deadzone) / (1 - deadzone) <= 0)%Q) by (apply L0; lra).
    assert (R1 : (- (1) <= (value + deadzone) / (1 - deadzone))%Q) by (apply L1; lra).
    split; [apply Qabs_Qle_condition; split; lra |].
    split; [intros H; rewrite Qabs_neg in H by lra; exfalso; lra |].
    split.
    + intros _. rewrite Qabs_neg by exact R0. rewrite Qabs_neg by lra. field. lra.
    + split; [intros H | intros _; exact R0].
      assert (Hz : (value == 0)%Q) by lra.
      assert (Hdz : (deadzone == 0)%Q) by lra.
      rewrite Hz, Hdz. cbn. discriminate.
Qed.

(** X16: [apply_deadzone] is odd: the opposite value gives the opposite
    result, for every dead zone that is not negative and not 1. *)
Theorem apply_deadzone_odd {S : Type} (value deadzone : Q) (s : S) :
  (0 <= deadzone)%Q -> ~ (deadzone == 1)%Q ->
  exists r r',
    apply_deadzone value deadzone s = (s, Ok r) /\
    apply_deadzone (- value) deadzone s = (s, Ok r') /\
    (r' == - r)%Q.
Proof.
  intros H0 H1.
  exists (deadzone_value value deadzone), (deadzone_value (- value) deadzone).
  split; [apply apply_deadzone_value; exact H1 |].
  split; [apply apply_deadzone_value; exact H1 |].
  assert (Hn : ~ (1 - deadzone == 0)%Q) by (intros H; apply H1; lra).
  unfold deadzone_value.
  assert (Ea : Qlt_bool (Qabs (- value)) deadzone = Qlt_bool (Qabs value) deadzone).
  { destruct (Qlt_bool (Qabs value) deadzone) eqn:E.
    - apply Qlt_bool_iff. apply Qlt_bool_iff in E. rewrite Qabs_opp. exact E.
    - apply Qlt_bool_false. apply Qlt_bool_false in E. rewrite Qabs_opp. exact E. }
  rewrite Ea.
  destruct (Qlt_bool (Qabs value) deadzone) eqn:E; [reflexivity |].
  apply Qlt_bool_false in E.
  destruct (Qlt_bool 0 value) eqn:Ev.
  - apply Qlt_bool_iff in Ev.
    assert (Ev' : Qlt_bool 0 (- value) = false) by (apply Qlt_bool_false; lra).
    rewrite Ev'. field. exact Hn.
  - apply Qlt_bool_false in Ev.
    destruct (Qlt_bool 0 (- value)) eqn:Ev'.
    + field. exact Hn.
    + apply Qlt_bool_false in Ev'.
      assert (Hz : (value == 0)%Q) by lra.
      rewrite Hz in E. cbn in E.
      assert (Hdz : (deadzone == 0)%Q).
      { change (Qabs 0) with 0%Q in E. lra. }
      rewrite Hz, Hdz. reflexivity.
Qed.

(** X17: [apply_deadzone] is monotone: for a dead zone in [0, 1) a larger
    value never gives a smaller result. *)
Theorem apply_deadzone_monotone {S : Type} (v1 v2 deadzone : Q) (s : S) :
  (0 <= deadzone)%Q -> (deadzone < 1)%Q -> (v1 <= v2)%Q ->
  exists r1 r2,
    apply_deadzone v1 deadzone s = (s, Ok r1) /\
    apply_deadzone v2 deadzone s = (s, Ok r2) /\
    (r1 <= r2)%Q.
Proof.
  intros H0 H1 Hv.
  exists (deadzone_value v1 deadzone), (deadzone_value v2 deadzone).
  split; [apply apply_deadzone_value; lra |].
  split; [apply apply_deadzone_value; lra |].
  assert (Hc : (0 < 1 - deadzone)%Q) by lra.
  assert (Hpos : forall a, (0 <= a -> 0 <= a / (1 - deadzone))%Q).
  { intros a Ha. pose proof (scaled_le 0 a (1 - deadzone) Hc Ha) as L.
    rewrite scaled_zero in L by exact Hc. exact L. }
  assert (Hneg : forall a, (a <= 0 -> a / (1 - deadzone) <= 0)%Q).
  { intros a Ha. pose proof (scaled_le a 0 (1 - deadzone) Hc Ha) as L.
    rewrite scaled_zero in L by exact Hc. exact L. }
  destruct (deadzone_value_cases v1 deadzone H0 H1)
    as [[A1 ->] | [[D1 [P1 ->]] | [D1 [N1 ->]]]];
  destruct (deadzone_value_cases v2 deadzone H0 H1)
    as [[A2 ->] | [[D2 [P2 ->]] | [D2 [N2 ->]]]].
  - lra.
  - apply Hpos. lra.
  - apply Qabs_Qlt_condition in A1. exfalso. lra.
  - apply Qabs_Qlt_condition in A2. exfalso. lra.
  - apply scaled_le; [exact Hc | lra].
  - exfalso. lra.
  - apply Hneg. lra.
  - apply Qle_trans with 0%Q; [apply Hneg | apply Hpos]; lra.
  - apply scaled_le; [exact Hc | lra].
Qed.

(** X18: a dead zone of exactly 1 divides by zero: a value of magnitude at
    least 1 raises [ZeroDivisionError], a smaller one gives zero. *)
Theorem apply_deadzone_of_one_raises {S : Type} (value deadzone : Q) (s : S) :
  (deadzone == 1)%Q ->
  ((1 <= Qabs value)%Q ->
   apply_deadzone value deadzone s = (s, Raise ZeroDivisionError)) /\
  ((Qabs value < 1)%Q -> apply_deadzone value deadzone s = (s, Ok 0%Q)).
Proof.
  intros Hd. unfold apply_deadzone. split; intros Hv.
  - assert (E : Qlt_bool (Qabs value) deadzone = false) by (apply Qlt_bool_false; lra).
    rewrite E. unfold py_div.
    assert (Ez : Qeq_bool (1 - deadzone) 0 = true) by (apply Qeq_bool_iff; lra).
    rewrite Ez. destruct (Qlt_bool 0 value); reflexivity.
  - assert (E : Qlt_bool (Qabs value) deadzone = true) by (apply Qlt_bool_iff; lra).
    rewrite E. reflexivity.
Qed.

End InputProperties.

Section LoopProperties.

Variable env : Env.
Variable CFG : Config.

Lemma smooth_within (current target limit : Q) :
  (Qabs current <= limit -> Qabs target <= limit ->
   Qabs (smooth current target) <= limit)%Q.
Proof.
  intros Hc Ht. apply Qabs_Qle_condition in Hc. apply Qabs_Qle_condition in Ht.
  apply Qabs_Qle_condition. unfold smooth, SMOOTHING. split; lra.
Qed.

Lemma stick_target_within (r limit : Q) :
  (0 <= limit -> Qabs r <= 1 -> Qabs (r * limit) <= limit /\ Qabs (- r * limit) <= limit)%Q.
Proof.
  intros Hl Hr. apply Qabs_Qle_condition in Hr.
  split; apply Qabs_Qle_condition; split; nra.
Qed.

Lemma zero_within_limits : within_limits 0 0.
Proof. split; vm_compute; discriminate. Qed.

(** The targets chosen from a controller state in range are within the
    limits, and choosing them never raises. *)
Lemma controller_targets_within {S : Type} (state : ControllerState) (s : S) :
  in_range state ->
  exists tl ta mode,
    controller_targets state s = (s, Ok (tl, ta, mode)) /\ within_limits tl ta.
Proof.
  intros (Hlx & Hly & Hrx & Hry & Hl2 & Hr2).
  assert (Hd0 : (0 <= STICK_DEADZONE)%Q) by (vm_compute; discriminate).
  assert (Hd1 : (STICK_DEADZONE < 1)%Q) by reflexivity.
  assert (Hneg : forall x, (Qabs x <= 1 -> Qabs (- x) <= 1)%Q)
    by (intros x Hx; rewrite Qabs_opp; exact Hx).
  unfold controller_targets.
  destruct (apply_deadzone_bounded (cs_left_stick_x state) STICK_DEADZONE s Hd0 Hd1 Hlx)
    as [lx [E1 B1]].
  rewrite (bind_ok _ _ _ _ _ E1).
  destruct (apply_deadzone_bounded (- cs_left_stick_y state) STICK_DEADZONE s Hd0 Hd1
              (Hneg _ Hly)) as [ly [E2 B2]].
  rewrite (bind_ok _ _ _ _ _ E2).
  destruct (apply_deadzone_bounded (cs_right_stick_x state) STICK_DEADZONE s Hd0 Hd1 Hrx)
    as [rx_ [E3 B3]].
  rewrite (bind_ok _ _ _ _ _ E3).
  destruct (apply_deadzone_bounded (- cs_right_stick_y state) STICK_DEADZONE s Hd0 Hd1
              (Hneg _ Hry)) as [ry [E4 B4]].
  rewrite (bind_ok _ _ _ _ _ E4).
  cbv zeta.
  assert (Btrigger : forall t, (0 <= t <= 1)%Q ->
                       (Qabs (if Qlt_bool TRIGGER_DEADZONE t then t else 0) <= 1)%Q).
  { intros t Ht. destruct (Qlt_bool TRIGGER_DEADZONE t);
      apply Qabs_Qle_condition; split; lra. }
  pose proof (Btrigger _ Hl2) as Bl2. pose proof (Btrigger _ Hr2) as Br2.
  set (l2 := if Qlt_bool TRIGGER_DEADZONE (cs_l2_trigger state)
             then cs_l2_trigger state else 0%Q) in *.
  set (r2 := if Qlt_bool TRIGGER_DEADZONE (cs_r2_trigger state)
             then cs_r2_trigger state else 0%Q) in *.
  assert (H4 : (0 <= MAX_LINEAR_SPEED)%Q) by (vm_compute; discriminate).
  assert (H8 : (0 <= MAX_ANGULAR_SPEED)%Q) by (vm_compute; discriminate).
  assert (Hz : (Qabs 0 <= MAX_ANGULAR_SPEED)%Q) by (vm_compute; discriminate).
  destruct (Qlt_bool 0 l2 || Qlt_bool 0 r2).
  - destruct (Qlt_bool r2 l2); do 3 eexists; (split; [reflexivity |]); split;
      try exact Hz; apply (stick_target_within _ _ H4); assumption.
  - destruct (Qlt_bool 0 (Qabs rx_) || Qlt_bool 0 (Qabs ry)).
    + do 3 eexists. split; [reflexivity |]. split.
      * apply (stick_target_within _ _ H4); assumption.
      * apply (stick_target_within _ _ H8); assumption.
    + destruct (Qlt_bool 0 (Qabs lx) || Qlt_bool 0 (Qabs ly)).
      * do 3 eexists. split; [reflexivity |]. split.
        -- apply (stick_target_within _ _ H4); assumption.
        -- apply (stick_target_within _ _ H8); assumption.
      * do 3 eexists. split; [reflexivity |]. apply zero_within_limits.
Qed.

Lemma controller_step_within (state : ControllerState) (v : ControlVars) (s : MotorControl) :
  in_range state -> control_vars_ok v ->
  (controller_step env CFG state v s = (s, Ok None) /\
   button_get (cs_buttons state) 9 = true) \/
  exists v',
    controller_step env CFG state v s =
      (exec (set_linear_angular_velocities env CFG
               (cv_current_linear v') (cv_current_angular v')) s, Ok (Some v')) /\
    control_vars_ok v'.
Proof.
  intros Hr [[Hcl Hca] _]. unfold controller_step.
  destruct (button_get (cs_buttons state) 9); [left; auto | right].
  assert (Hchosen : exists tl ta mode,
             (if button_get (cs_buttons state) 0
              then ret (0%Q, 0%Q, emergency_stop_mode)
              else controller_targets state) s = (s, Ok (tl, ta, mode)) /\
             within_limits tl ta).
  { destruct (button_get (cs_buttons state) 0).
    - do 3 eexists. split; [reflexivity | apply zero_within_limits].
    - apply controller_targets_within. exact Hr. }
  destruct Hchosen as (tl & ta & mode & E & [Htl Hta]).
  rewrite (bind_ok _ _ _ _ _ E).
  exists {| cv_current_linear := smooth (cv_current_linear v) tl;
            cv_current_angular := smooth (cv_current_angular v) ta;
            cv_target_linear := tl;
            cv_target_angular := ta;
            cv_last_control_mode := Some mode |}.
  split.
  - rewrite (bind_ok _ _ _ _ _
               (returns_eq _ s tt (set_linear_angular_velocities_returns env CFG _ _ s))).
    reflexivity.
  - split; split; cbn [cv_current_linear cv_current_angular cv_target_linear
                         cv_target_angular]; auto using smooth_within.
Qed.

(** X19: the controller program never asks for more than its limits and
    never stops on an exception.  From velocities within 4 m/s and 8 rad/s
    and for controller states in range, every turn of the main loop of
    [controller_control.py] either ends the loop (the quit button) or
    calls the facade with velocities within the limits, and the loop
    returns normally with its velocities and targets within the limits. *)
Theorem controller_loop_within_limits
    (states : list ControllerState) (v : ControlVars) (s : MotorControl) :
  Forall in_range states -> control_vars_ok v ->
  (forall state, In state states ->
     forall v0 s0, control_vars_ok v0 ->
       (controller_step env CFG state v0 s0 = (s0, Ok None)) \/
       exists v1,
         controller_step env CFG state v0 s0 =
           (exec (set_linear_angular_velocities env CFG
                    (cv_current_linear v1) (cv_current_angular v1)) s0, Ok (Some v1)) /\
         within_limits (cv_current_linear v1) (cv_current_angular v1)) /\
  exists v', snd (controller_loop env CFG states v s) = Ok v' /\ control_vars_ok v'.
Proof.
  intros Hall Hv. split.
  - intros state Hin v0 s0 Hv0.
    assert (Hr : in_range state) by (rewrite Forall_forall in Hall; auto).
    destruct (controller_step_within state v0 s0 Hr Hv0) as [[E _] | [v1 [E [Hc _]]]].
    + left. exact E.
    + right. exists v1. auto.
  - revert v s Hv. induction Hall as [| state rest Hr _ IH]; intros v s Hv.
    + exists v. split; [reflexivity | exact Hv].
    + cbn [controller_loop].
      destruct (controller_step_within state v s Hr Hv) as [[E _] | [v1 [E Hv1]]].
      * rewrite (bind_ok _ _ _ _ _ E). exists v. split; [reflexivity | exact Hv].
      * rewrite (bind_ok _ _ _ _ _ E). apply IH. exact Hv1.
Qed.

(** *** The keyboard program *)

Lemma key_targets_ok (cmd : option string) (v : KeyVars) :
  key_vars_ok v ->
  match key_targets cmd v with
  | None => True
  | Some (last, tl, ta) =>
      within_limits tl ta /\
      (is_move_command last = false -> tl = 0%Q /\ ta = 0%Q) /\
      (key_truthy cmd = false -> tl = 0%Q /\ ta = 0%Q)
  end.
Proof.
  intros (_ & Ht & Hz).
  assert (W : forall a b : Q, (Qabs a <= 4)%Q -> (Qabs b <= 8)%Q -> within_limits a b)
    by (intros a b Ha Hb; split; assumption).
  unfold key_targets. destruct (key_truthy cmd) eqn:Et.
  - destruct cmd as [c |]; [| discriminate Et].
    destruct (String.eqb c "w") eqn:Ew.
    { apply String.eqb_eq in Ew. subst c.
      split; [apply W; cbn; discriminate | split; intros; discriminate]. }
    destruct (String.eqb c "s") eqn:Es.
    { apply String.eqb_eq in Es. subst c.
      split; [apply W; cbn; discriminate | split; intros; discriminate]. }
    destruct (String.eqb c "a") eqn:Ea.
    { apply String.eqb_eq in Ea. subst c.
      split; [apply W; cbn; discriminate | split; intros; discriminate]. }
    destruct (String.eqb c "d") eqn:Ed.
    { apply String.eqb_eq in Ed. subst c.
      split; [apply W; cbn; discriminate | split; intros; discriminate]. }
    destruct (String.eqb c "x").
    { split; [apply zero_within_limits | split; intros; auto; discriminate]. }
    destruct (String.eqb c "q"); [exact I |].
    destruct (String.eqb c (String (ascii_of_nat 3) EmptyString)); [exact I |].
    split; [exact Ht | split; [exact Hz | intros; discriminate]].
  - destruct (is_move_command (kv_last_command v)) eqn:Em.
    + split; [apply zero_within_limits | split; intros; auto].
    + split; [exact Ht | split; [intros _; exact (Hz eq_refl) | intros _; exact (Hz eq_refl)]].
Qed.

Lemma keyboard_step_ok (cmd : option string) (v : KeyVars) (s : MotorControl) :
  key_vars_ok v ->
  (keyboard_step env CFG cmd v s = (s, Ok None)) \/
  exists v',
    keyboard_step env CFG cmd v s =
      (exec (set_linear_angular_velocities env CFG
               (kv_current_linear v') (kv_current_angular v')) s, Ok (Some v')) /\
    key_vars_ok v' /\
    (key_truthy cmd = false ->
     kv_target_linear v' = 0%Q /\ kv_target_angular v' = 0%Q /\
     (kv_current_linear v' == (7 # 10) * kv_current_linear v)%Q /\
     (kv_current_angular v' == (7 # 10) * kv_current_angular v)%Q).
Proof.
  intros Hv. pose proof (key_targets_ok cmd v Hv) as Hk.
  destruct Hv as ([Hcl Hca] & _ & _).
  unfold keyboard_step. destruct (key_targets cmd v) as [[[last tl] ta] |].
  2:{ left. reflexivity. }
  right. destruct Hk as ([Htl Hta] & Hz & Hrel).
  exists {| kv_last_command := last;
            kv_current_linear := smooth (kv_current_linear v) tl;
            kv_current_angular := smooth (kv_current_angular v) ta;
            kv_target_linear := tl;
            kv_target_angular := ta |}.
  split; [| split].
  - rewrite (bind_ok _ _ _ _ _
               (returns_eq _ s tt (set_linear_angular_velocities_returns env CFG _ _ s))).
    reflexivity.
  - split; [| split]; cbn [kv_current_linear kv_current_angular kv_target_linear
                             kv_target_angular kv_last_command].
    + split; auto using smooth_within.
    + split; assumption.
    + exact Hz.
  - intros Hf. destruct (Hrel Hf) as [-> ->].
    cbn [kv_current_linear kv_current_angular kv_target_linear kv_target_angular].
    repeat split; unfold smooth, SMOOTHING; ring.
Qed.

Lemma key_vars_init_ok : key_vars_ok key_vars_init.
Proof.
  split; [apply zero_within_limits | split; [apply zero_within_limits |]].
  intros _. split; reflexivity.
Qed.

(** X20: the keyboard program stays within its limits.  Whatever keys are
    read, in whatever order, the main loop of [backshot.py] returns
    normally, its velocities and targets never exceed 4 m/s and 8 rad/s,
    and its targets are zero unless the last command is one of the four
    movement keys. *)
Theorem keyboard_loop_within_limits (keys : list (option string)) (s : MotorControl) :
  exists v,
    snd (keyboard_loop env CFG keys key_vars_init s) = Ok v /\ key_vars_ok v.
Proof.
  generalize key_vars_init_ok. generalize key_vars_init as v. revert s.
  induction keys as [| cmd rest IH]; intros s v Hv.
  - exists v. split; [reflexivity | exact Hv].
  - cbn [keyboard_loop].
    destruct (keyboard_step_ok cmd v s Hv) as [E | [v1 [E [Hv1 _]]]].
    + rewrite (bind_ok _ _ _ _ _ E). exists v. split; [reflexivity | exact Hv].
    + rewrite (bind_ok _ _ _ _ _ E). apply IH. exact Hv1.
Qed.

(** X21: releasing the keys stops the robot, holding an unmapped key does
    not.  At a turn where no key is read, in any state the loop can reach,
    the targets become zero and each velocity sent to the facade is 0.7
    times the previous one.  At a turn where a key other than w, s, a, d,
    x, q and Ctrl-C is read, the targets and the last command stay as
    they were. *)
Theorem released_key_stops (cmd : option string) (v : KeyVars) (s : MotorControl) :
  key_vars_ok v ->
  (key_truthy cmd = false ->
   exists v',
     keyboard_step env CFG cmd v s =
       (exec (set_linear_angular_velocities env CFG
                (kv_current_linear v') (kv_current_angular v')) s, Ok (Some v')) /\
     kv_target_linear v' = 0%Q /\ kv_target_angular v' = 0%Q /\
     (kv_current_linear v' == (7 # 10) * kv_current_linear v)%Q /\
     (kv_current_angular v' == (7 # 10) * kv_current_angular v)%Q) /\
  (forall c,
     cmd = Some c -> key_truthy cmd = true ->
     ~ In c ["w"; "s"; "a"; "d"; "x"; "q"; String (ascii_of_nat 3) EmptyString]%string ->
     key_targets cmd v =
       Some (kv_last_command v, kv_target_linear v, kv_target_angular v)).
Proof.
  intros Hv. split.
  - intros Hf. destruct (keyboard_step_ok cmd v s Hv) as [E | [v' [E [_ Hrel]]]].
    + exfalso. unfold keyboard_step, key_targets in E. rewrite Hf in E.
      destruct (is_move_command (kv_last_command v)); unfold bind in E;
        destruct (set_linear_angular_velocities env CFG _ _ s) as [s1 [[] | e]];
        discriminate E.
    + exists v'. split; [exact E | exact (Hrel Hf)].
  - intros c -> Ht Hn. unfold key_targets. rewrite Ht.
    assert (Hneq : forall k, In k ["w"; "s"; "a"; "d"; "x"; "q";
                                   String (ascii_of_nat 3) EmptyString]%string ->
                             String.eqb c k = false).
    { intros k Hk. apply String.eqb_neq. intros ->. exact (Hn Hk). }
    rewrite !Hneq by (cbn; tauto). reflexivity.
Qed.

End LoopProperties.

(** ** The game controller as a keyboard *)

Lemma stick_command_cases (x y deadzone : Q) :
  (0 <= deadzone)%Q ->
  (deadzone < Qabs x \/ deadzone < Qabs y)%Q ->
  (stick_command x y deadzone = "w"%string /\ (y < - deadzone)%Q /\ (Qabs x < Qabs y)%Q) \/
  (stick_command x y deadzone = "s"%string /\ (deadzone < y)%Q /\ (Qabs x < Qabs y)%Q) \/
  (stick_command x y deadzone = "d"%string /\ (deadzone < x)%Q /\ (Qabs y <= Qabs x)%Q) \/
  (stick_command x y deadzone = "a"%string /\ (x < - deadzone)%Q /\ (Qabs y <= Qabs x)%Q).
Proof.
  intros Hd Hpush. unfold stick_command.
  assert (Habs : forall z, (deadzone < Qabs z -> deadzone < z \/ z < - deadzone)%Q).
  { intros z Hz. destruct (Qlt_le_dec z 0) as [Hneg | Hpos].
    - rewrite Qabs_neg in Hz by lra. right. lra.
    - rewrite Qabs_pos in Hz by exact Hpos. left. exact Hz. }
  destruct (Qlt_bool (Qabs x) (Qabs y)) eqn:E.
  - apply Qlt_bool_iff in E.
    assert (Hy : (deadzone < Qabs y)%Q) by (destruct Hpush; lra).
    destruct (Qlt_bool y (- deadzone)) eqn:Ey.
    + apply Qlt_bool_iff in Ey. left. auto.
    + apply Qlt_bool_false in Ey. right. left.
      destruct (Habs y Hy) as [H | H]; [auto | exfalso; lra].
  - apply Qlt_bool_false in E.
    assert (Hx : (deadzone < Qabs x)%Q) by (destruct Hpush; lra).
    destruct (Qlt_bool deadzone x) eqn:Ex.
    + apply Qlt_bool_iff in Ex. right. right. left. auto.
    + apply Qlt_bool_false in Ex. right. right. right.
      destruct (Habs x Hx) as [H | H]; [exfalso; lra | auto].
Qed.

(** X22: a stick command points where the stick is pushed.  With no button
    pressed and both triggers at rest, when the right stick is beyond the
    dead zone [_determine_command] marks the input active and returns
    [w] only for a stick pushed up (y below -0.15), [s] only pushed down,
    [d] only pushed right and [a] only pushed left, choosing the axis on
    which the stick is pushed further. *)
Theorem stick_command_points_where_pushed (c : ControllerInput) :
  button_get (ci_buttons c) 9 = false ->
  button_get (ci_buttons c) 0 = false ->
  (ci_r2_trigger c <= 5 # 100)%Q ->
  (ci_l2_trigger c <= 5 # 100)%Q ->
  ((15 # 100) < Qabs (ci_right_stick_x c) \/ (15 # 100) < Qabs (ci_right_stick_y c))%Q ->
  let x := ci_right_stick_x c in
  let y := ci_right_stick_y c in
  exists cmd,
    determine_command c = (set_input_active true c, Some cmd) /\
    ((cmd = "w"%string /\ (y < - (15 # 100))%Q /\ (Qabs x < Qabs y)%Q) \/
     (cmd = "s"%string /\ ((15 # 100) < y)%Q /\ (Qabs x < Qabs y)%Q) \/
     (cmd = "d"%string /\ ((15 # 100) < x)%Q /\ (Qabs y <= Qabs x)%Q) \/
     (cmd = "a"%string /\ (x < - (15 # 100))%Q /\ (Qabs y <= Qabs x)%Q)).
Proof.
  intros H9 H0 Hr2 Hl2 Hpush. cbv zeta.
  exists (stick_command (ci_right_stick_x c) (ci_right_stick_y c) (15 # 100)).
  split.
  - unfold determine_command. cbv zeta. rewrite H9, H0.
    rewrite (proj2 (Qlt_bool_false _ _) Hr2), (proj2 (Qlt_bool_false _ _) Hl2).
    assert (E : Qlt_bool (15 # 100) (Qabs (ci_right_stick_x c))
                || Qlt_bool (15 # 100) (Qabs (ci_right_stick_y c)) = true).
    { apply orb_true_iff. destruct Hpush as [H | H]; [left | right];
        apply Qlt_bool_iff; exact H. }
    rewrite E. reflexivity.
  - apply stick_command_cases; [cbn; discriminate | exact Hpush].
Qed.

(** X23: the quit and emergency-stop buttons are reported only while some
    other input is active.  When the options button, or failing that the
    cross button, is pressed, [_determine_command] returns [q] or [x]
    without touching [input_active]; so after the update
    [get_current_command] gives the button command when [input_active]
    was true before, and [None] when it was false. *)
Theorem button_commands_need_active_input (c : ControllerInput) :
  (button_get (ci_buttons c) 9 = true ->
   ci_input_active (update_command c) = ci_input_active c /\
   get_current_command (update_command c) =
     if ci_input_active c then Some "q"%string else None) /\
  (button_get (ci_buttons c) 9 = false ->
   button_get (ci_buttons c) 0 = true ->
   ci_input_active (update_command c) = ci_input_active c /\
   get_current_command (update_command c) =
     if ci_input_active c then Some "x"%string else None).
Proof.
  split.
  - intros H9. unfold update_command, determine_command, get_current_command.
    cbv zeta. rewrite H9. cbn [set_current_command ci_input_active ci_current_command].
    split; reflexivity.
  - intros H9 H0. unfold update_command, determine_command, get_current_command.
    cbv zeta. rewrite H9, H0.
    cbn [set_current_command ci_input_active ci_current_command].
    split; reflexivity.
Qed.

(** ** Concrete runs of the further properties *)

(** Silent hardware: the feedback query times out and [get_pos_vel]
    raises. *)
Lemma get_pos_vel_needs_two_fields_witness :
  send_command silent_env (feedback_query 1) [] =
    (exchanged "f 1", Ok (Some ""%string)) /\
  count_spaces "" <> 1%nat /\
  get_pos_vel silent_env reference_odrive 1 1 [] = (exchanged "f 1", Raise ValueError).
Proof.
  assert (Hn : count_spaces "" <> 1%nat) by discriminate.
  split; [reflexivity | split; [exact Hn |]].
  exact (proj1 (get_pos_vel_needs_two_fields silent_env reference_odrive 1 1 []
                  (exchanged "f 1") ""%string eq_refl) Hn).
Defined.

(** 100 turns per minute are written as [1.6667] and read back as
    100.002. *)
Lemma speed_read_back_within_rounding_witness :
  (1 == 1 \/ 1 == -1)%Q /\
  io_raises setpoint_echo_env ([] ++ [EvResetInput]) = false /\
  fmt_f setpoint_echo_env 4 (100 / 60 * 1) = "1.6667"%string /\
  send_command setpoint_echo_env (vel_estimate_query 1) [] =
    (exchanged "r axis1.encoder.vel_estimate", Ok (Some "1.6667"%string)) /\
  float_of_str setpoint_echo_env "1.6667" = Some (16667 # 10000) /\
  (Qabs ((16667 # 10000) - 100 / 60 * 1) <= 1 # 20000)%Q /\
  fst (set_speed_rpm setpoint_echo_env reference_odrive 1 100 1 []) =
    sent "w axis1.controller.input_vel 1.6667" /\
  exists r,
    get_speed_rpm setpoint_echo_env reference_odrive 1 1 [] =
      (exchanged "r axis1.encoder.vel_estimate", Ok r) /\
    (Qabs (r - 100) <= 3 # 1000)%Q /\ ~ (r == 100)%Q.
Proof.
  assert (Hd : (1 == 1 \/ 1 == -1)%Q) by (left; reflexivity).
  assert (Hy : (Qabs ((16667 # 10000) - 100 / 60 * 1) <= 1 # 20000)%Q)
    by (vm_compute; discriminate).
  destruct (speed_read_back_within_rounding setpoint_echo_env reference_odrive 1 100 1 Hd)
    as [Hw Hr].
  split; [exact Hd | split; [reflexivity | split; [reflexivity |]]].
  split; [reflexivity | split; [reflexivity | split; [exact Hy |]]].
  split; [exact (Hw [] eq_refl) |].
  destruct (Hr [] _ (16667 # 10000) eq_refl eq_refl Hy) as [r [E B]].
  exists r. split; [exact E | split; [exact B |]].
  vm_compute in E. injection E as <-. vm_compute. discriminate.
Defined.

(** Hardware whose registers read [0x20]: the dump makes its eight
    queries and returns. *)
Lemma dump_errors_tolerates_any_reply_witness :
  (forall l, io_raises faulted_env l = false) /\
  (forall l, is_ascii (rx faulted_env l) = true) /\
  dump_errors faulted_env reference_odrive [] =
    ([] ++ flat_map (fun src => exchanged ("r " ++ src ++ ".error")%string) error_sources,
     Ok tt).
Proof.
  split; [intros l; reflexivity | split; [intros l; reflexivity |]].
  apply (dump_errors_tolerates_any_reply faulted_env reference_odrive []);
    intros l; reflexivity.
Defined.

(** An unplugged port: the first write of [stop] raises and
    [emergency_stop] ends there. *)
Lemma emergency_stop_fallbacks_never_run_witness :
  with_mc (fun o => set_speed_rpm_left unplugged_env o 0) running_facade =
    (set_bus (sent "w axis1.controller.input_vel 0.0000") running_facade,
     Raise SerialException) /\
  emergency_stop unplugged_env running_facade =
    (set_bus (sent "w axis1.controller.input_vel 0.0000") running_facade, Ok tt).
Proof.
  split; [reflexivity |].
  exact (proj2 (emergency_stop_fallbacks_never_run unplugged_env running_facade)
           _ SerialException eq_refl).
Defined.

(** Silent hardware: the feedback accessor answers 0.0. *)
Lemma velocity_feedback_failure_returns_zero_witness :
  with_mc (get_pos_vel_left silent_env) running_facade =
    (set_bus (exchanged "f 1") running_facade, Raise ValueError) /\
  snd (get_left_motor_velocity silent_env reference_CFG running_facade) = Ok 0%Q.
Proof.
  split; [reflexivity |].
  rewrite (proj1 (velocity_feedback_failure_returns_zero silent_env reference_CFG
                    running_facade) _ ValueError eq_refl).
  reflexivity.
Defined.


(** One metre per second asked of the idle reference facade. *)
Lemma command_rearms_then_drives_witness :
  (forall l, io_raises healthy_env l = false) /\
  motor_controller idle_facade = Some reference_odrive /\
  cycle_count idle_facade mod 20 <> 0 /\
  Qeq_bool (RPM_TO_METERS_PER_SECOND reference_CFG) 0 = false /\
  Qeq_bool 1 0 && Qeq_bool 0 0 = false /\
  is_idle (exec (set_linear_angular_velocities healthy_env reference_CFG 1 0)
             idle_facade) = false /\
  bus (exec (set_linear_angular_velocities healthy_env reference_CFG 1 0) idle_facade) =
    sent "w axis1.error 0" ++ sent "w axis1.requested_state 8"
    ++ sent "w axis0.error 0" ++ sent "w axis0.requested_state 8"
    ++ sent "w axis1.controller.input_vel 1.6667"
    ++ sent "w axis0.controller.input_vel 1.6667".
Proof.
  assert (Hc : cycle_count idle_facade mod 20 <> 0) by (vm_compute; discriminate).
  split; [intros l; reflexivity |].
  split; [reflexivity | split; [exact Hc | split; [reflexivity | split; [reflexivity |]]]].
  destruct (command_rearms_then_drives healthy_env reference_CFG 1 0 idle_facade
              reference_odrive (fun _ => eq_refl) eq_refl Hc eq_refl eq_refl)
    as (Hidle & _ & _ & Hbus).
  split; [exact Hidle |]. rewrite Hbus. reflexivity.
Defined.

(** Ten, asked of a limit of four, is sent as four. *)
Lemma clip_saturates_witness : (0 <= 4)%Q /\ (4 < 10)%Q /\ clip 10 4 = 4%Q.
Proof.
  assert (H0 : (0 <= 4)%Q) by (vm_compute; discriminate).
  assert (H1 : (4 < 10)%Q) by reflexivity.
  split; [exact H0 | split; [exact H1 |]].
  destruct (clip_saturates 10 4) as [H _].
  destruct (H H0) as (_ & Hhi & _).
  exact (Hhi H1).
Defined.

(** One metre per second is written as [1.6667] and read back as
    1.00002. *)
Lemma velocity_feedback_within_rounding_witness :
  motor_controller running_facade = Some reference_odrive /\
  (dir_left reference_odrive == 1 \/ dir_left reference_odrive == -1)%Q /\
  ~ (RPM_TO_METERS_PER_SECOND reference_CFG == 0)%Q /\
  io_raises feedback_echo_env (bus running_facade ++ [EvResetInput]) = false /\
  fmt_f feedback_echo_env 4 (1 / (1 # 100) / 60 * 1) = "1.6667"%string /\
  send_command feedback_echo_env (feedback_query 1) [] =
    (exchanged "f 1", Ok (Some "0.5 1.6667"%string)) /\
  split_space "0.5 1.6667" = ["0.5"; "1.6667"]%string /\
  float_of_str feedback_echo_env "0.5" = Some (1 # 2) /\
  float_of_str feedback_echo_env "1.6667" = Some (16667 # 10000) /\
  (Qabs ((16667 # 10000) - 1 / (1 # 100) / 60 * 1) <= 1 # 20000)%Q /\
  bus (exec (with_mc (fun o => set_speed_rpm_left feedback_echo_env o (1 / (1 # 100))))
         running_facade) = sent "w axis1.controller.input_vel 1.6667" /\
  exists r,
    get_left_motor_velocity feedback_echo_env reference_CFG running_facade =
      (set_bus (exchanged "f 1") running_facade, Ok r) /\
    (Qabs (r - 1) <= (3 # 1000) * (1 # 100))%Q /\ ~ (r == 1)%Q.
Proof.
  assert (Hd : (dir_left reference_odrive == 1 \/ dir_left reference_odrive == -1)%Q)
    by (left; reflexivity).
  assert (Hk : ~ (RPM_TO_METERS_PER_SECOND reference_CFG == 0)%Q) by discriminate.
  assert (Hy : (Qabs ((16667 # 10000) - 1 / (1 # 100) / 60 * 1) <= 1 # 20000)%Q)
    by (vm_compute; discriminate).
  destruct (velocity_feedback_within_rounding feedback_echo_env reference_CFG
              running_facade reference_odrive 1 eq_refl Hd Hk) as [Hw Hr].
  split; [reflexivity | split; [exact Hd | split; [exact Hk |]]].
  split; [reflexivity | split; [reflexivity | split; [reflexivity |]]].
  split; [reflexivity | split; [reflexivity | split; [reflexivity | split; [exact Hy |]]]].
  split; [exact (Hw eq_refl) |].
  destruct (Hr running_facade _ "0.5 1.6667"%string "0.5"%string (1 # 2) (16667 # 10000)
              eq_refl eq_refl eq_refl eq_refl eq_refl Hy) as [r [E B]].
  exists r. split; [exact E | split; [exact B |]].
  vm_compute in E. injection E as <-. vm_compute. discriminate.
Defined.

(** A stick at one half with the dead zone of the program. *)
Lemma apply_deadzone_in_range_witness :
  (0 <= 15 # 100)%Q /\ (15 # 100 < 1)%Q /\ (Qabs (1 # 2) <= 1)%Q /\
  exists r, apply_deadzone (1 # 2) (15 # 100) tt = (tt, Ok r) /\ (Qabs r <= 1)%Q.
Proof.
  assert (H0 : (0 <= 15 # 100)%Q) by (vm_compute; discriminate).
  assert (H1 : (15 # 100 < 1)%Q) by reflexivity.
  assert (Hv : (Qabs (1 # 2) <= 1)%Q) by (vm_compute; discriminate).
  split; [exact H0 | split; [exact H1 | split; [exact Hv |]]].
  destruct (apply_deadzone_in_range (1 # 2) (15 # 100) tt H0 H1 Hv) as [r [E [B _]]].
  exists r. split; [exact E | exact B].
Defined.

Lemma apply_deadzone_odd_witness :
  (0 <= 15 # 100)%Q /\ ~ (15 # 100 == 1)%Q /\
  exists r r',
    apply_deadzone (1 # 2) (15 # 100) tt = (tt, Ok r) /\
    apply_deadzone (- (1 # 2)) (15 # 100) tt = (tt, Ok r') /\ (r' == - r)%Q.
Proof.
  assert (H0 : (0 <= 15 # 100)%Q) by (vm_compute; discriminate).
  assert (H1 : ~ (15 # 100 == 1)%Q) by discriminate.
  split; [exact H0 | split; [exact H1 |]].
  exact (apply_deadzone_odd (1 # 2) (15 # 100) tt H0 H1).
Defined.

Lemma apply_deadzone_monotone_witness :
  (0 <= 15 # 100)%Q /\ (15 # 100 < 1)%Q /\ (- (1 # 2) <= 1 # 10)%Q /\
  exists r1 r2,
    apply_deadzone (- (1 # 2)) (15 # 100) tt = (tt, Ok r1) /\
    apply_deadzone (1 # 10) (15 # 100) tt = (tt, Ok r2) /\ (r1 <= r2)%Q.
Proof.
  assert (H0 : (0 <= 15 # 100)%Q) by (vm_compute; discriminate).
  assert (H1 : (15 # 100 < 1)%Q) by reflexivity.
  assert (Hv : (- (1 # 2) <= 1 # 10)%Q) by (vm_compute; discriminate).
  split; [exact H0 | split; [exact H1 | split; [exact Hv |]]].
  exact (apply_deadzone_monotone (- (1 # 2)) (1 # 10) (15 # 100) tt H0 H1 Hv).
Defined.

(** A stick fully pushed with a dead zone of 1. *)
Lemma apply_deadzone_of_one_raises_witness :
  (1 == 1)%Q /\ (1 <= Qabs 1)%Q /\
  apply_deadzone 1 1 tt = (tt, Raise ZeroDivisionError).
Proof.
  assert (Hd : (1 == 1)%Q) by reflexivity.
  assert (Hv : (1 <= Qabs 1)%Q) by (vm_compute; discriminate).
  split; [exact Hd | split; [exact Hv |]].
  exact (proj1 (apply_deadzone_of_one_raises 1 1 tt Hd) Hv).
Defined.

Lemma stick_up_state_in_range : in_range stick_up_state.
Proof. repeat split; vm_compute; discriminate. Defined.

Lemma quit_state_in_range : in_range quit_state.
Proof. repeat split; vm_compute; discriminate. Defined.

Lemma control_vars_init_ok : control_vars_ok control_vars_init.
Proof. repeat split; vm_compute; discriminate. Defined.

(** Two turns with the right stick pushed up, then the quit button. *)
Lemma controller_loop_within_limits_witness :
  Forall in_range [stick_up_state; stick_up_state; quit_state] /\
  control_vars_ok control_vars_init /\
  exists v',
    snd (controller_loop healthy_env reference_CFG
           [stick_up_state; stick_up_state; quit_state] control_vars_init
           running_facade) = Ok v' /\
    control_vars_ok v'.
Proof.
  assert (Hall : Forall in_range [stick_up_state; stick_up_state; quit_state]).
  { apply Forall_cons; [exact stick_up_state_in_range |].
    apply Forall_cons; [exact stick_up_state_in_range |].
    apply Forall_cons; [exact quit_state_in_range | apply Forall_nil]. }
  split; [exact Hall | split; [exact control_vars_init_ok |]].
  exact (proj2 (controller_loop_within_limits healthy_env reference_CFG
                  [stick_up_state; stick_up_state; quit_state] control_vars_init
                  running_facade Hall control_vars_init_ok)).
Defined.

(** The keys are released while the robot moves: the targets become
    zero and the linear velocity sent decays from -1.2 to -0.84. *)
Lemma released_key_stops_witness :
  key_vars_ok moving_vars /\
  key_truthy None = false /\
  exists v',
    keyboard_step healthy_env reference_CFG None moving_vars running_facade =
      (exec (set_linear_angular_velocities healthy_env reference_CFG
               (kv_current_linear v') (kv_current_angular v')) running_facade,
       Ok (Some v')) /\
    kv_target_linear v' = 0%Q /\ kv_target_angular v' = 0%Q /\
    (kv_current_linear v' == - (84 # 100))%Q.
Proof.
  assert (Hv : key_vars_ok moving_vars).
  { repeat split; try (vm_compute; discriminate). }
  split; [exact Hv | split; [reflexivity |]].
  destruct (proj1 (released_key_stops healthy_env reference_CFG None moving_vars
                     running_facade Hv) eq_refl) as [v' (E & Hl & Ha & Hc & _)].
  exists v'. split; [exact E | split; [exact Hl | split; [exact Ha |]]].
  rewrite Hc. reflexivity.
Defined.

(** The right stick pushed up and a little to the right reads as [w]. *)
Lemma stick_command_points_where_pushed_witness :
  button_get (ci_buttons stick_up_input) 9 = false /\
  button_get (ci_buttons stick_up_input) 0 = false /\
  (ci_r2_trigger stick_up_input <= 5 # 100)%Q /\
  (ci_l2_trigger stick_up_input <= 5 # 100)%Q /\
  ((15 # 100) < Qabs (ci_right_stick_x stick_up_input) \/
   (15 # 100) < Qabs (ci_right_stick_y stick_up_input))%Q /\
  exists cmd,
    determine_command stick_up_input = (set_input_active true stick_up_input, Some cmd).
Proof.
  assert (Hr : (ci_r2_trigger stick_up_input <= 5 # 100)%Q) by (vm_compute; discriminate).
  assert (Hl : (ci_l2_trigger stick_up_input <= 5 # 100)%Q) by (vm_compute; discriminate).
  assert (Hp : ((15 # 100) < Qabs (ci_right_stick_x stick_up_input) \/
                (15 # 100) < Qabs (ci_right_stick_y stick_up_input))%Q)
    by (left; reflexivity).
  split; [reflexivity | split; [reflexivity | split; [exact Hr | split; [exact Hl |]]]].
  split; [exact Hp |].
  destruct (stick_command_points_where_pushed stick_up_input eq_refl eq_refl Hr Hl Hp)
    as [cmd [E _]].
  exists cmd. exact E.
Defined.

(** The options button pressed with everything else at rest: no command
    is reported. *)
Lemma button_commands_need_active_input_witness :
  button_get (ci_buttons quit_pressed_input) 9 = true /\
  get_current_command (update_command quit_pressed_input) = None.
Proof.
  split; [reflexivity |].
  exact (proj2 (proj1 (button_commands_need_active_input quit_pressed_input) eq_refl)).
Defined.
